(** * A shallow embedding of deploy_mxs_vm.py (class Stage1)

    The script is sequential glue code around external programs.  We model it
    as a state-and-exception monad over a [world] (files, mount table, log,
    commands run, console) read against an [env] that fixes what the outside
    world answers (exit status of each command, contents of disk images, user
    name, resource probes).  Python's [sys.exit] is kept apart from ordinary
    exceptions, because [except Exception] does not catch [SystemExit]. *)

From Stdlib Require Import String List ZArith Bool Ascii Lia.
Import ListNotations.
Open Scope string_scope.

(** ** Python values *)

Inductive level := DEBUG | INFO | WARNING | ERROR.

(** Exceptions the modelled code can raise; all are subclasses of
    [Exception]. *)
Inductive pyexn :=
| Exception (msg : string)
| CalledProcessError (cmd : list string) (returncode : Z) (stderr : string)
| PermissionError (path : string)
| FileNotFoundError (path : string)
| TypeError (msg : string)
| ValueError (msg : string)
| AttributeError (msg : string)
| KeyError (key : string)
| ZeroDivisionError
| EOFError
| FileExistsError (path : string)
| ShutilError (errs : list (string * string * string))
| OSError (errno : Z) (msg : string).

Definition is_ValueError (x : pyexn) : bool :=
  match x with ValueError _ => true | _ => false end.
Definition is_PermissionError (x : pyexn) : bool :=
  match x with PermissionError _ => true | _ => false end.
Definition is_CalledProcessError (x : pyexn) : bool :=
  match x with CalledProcessError _ _ _ => true | _ => false end.
Definition is_FileExistsError (x : pyexn) : bool :=
  match x with FileExistsError _ => true | _ => false end.
Definition any_exception (x : pyexn) : bool := true.

(** How a call ends: a value, a raised exception, or [SystemExit(code)]. *)
Inductive outcome (A : Type) :=
| Ok (a : A)
| Raise (x : pyexn)
| Exit (code : Z).
Arguments Ok {A} a.
Arguments Raise {A} x.
Arguments Exit {A} code.

(** ** Decimal printing and parsing ([str(int)], [int(str)], [str.strip]) *)

Fixpoint digits_aux (fuel : nat) (n : Z) (acc : string) : string :=
  match fuel with
  | O => acc
  | S f =>
      let acc' := String (ascii_of_nat (48 + Z.to_nat (n mod 10))) acc in
      if (n <? 10)%Z then acc' else digits_aux f (n / 10) acc'
  end.

Definition zstr (z : Z) : string :=
  let a := Z.abs z in
  let s := digits_aux (S (Z.to_nat (Z.log2 a))) a "" in
  if (z <? 0)%Z then "-" ++ s else s.

Definition is_space (c : ascii) : bool :=
  match nat_of_ascii c with
  | 32 | 9 | 10 | 11 | 12 | 13 => true
  | _ => false
  end.

Definition is_digit (c : ascii) : bool :=
  let n := nat_of_ascii c in (48 <=? n)%nat && (n <=? 57)%nat.

Fixpoint lstrip (s : string) : string :=
  match s with
  | String c s' => if is_space c then lstrip s' else s
  | EmptyString => EmptyString
  end.

Definition rev_string (s : string) : string :=
  string_of_list_ascii (rev (list_ascii_of_string s)).

Definition py_strip (s : string) : string :=
  rev_string (lstrip (rev_string (lstrip s))).

(** Digits with single underscores between them, as [int()] accepts. *)
Fixpoint parse_digits (acc : Z) (prev_us : bool) (s : string) : option Z :=
  match s with
  | EmptyString => if prev_us then None else Some acc
  | String c s' =>
      if is_digit c then
        parse_digits (acc * 10 + Z.of_nat (nat_of_ascii c - 48)) false s'
      else if Ascii.eqb c "_" then
        if prev_us then None else parse_digits acc true s'
      else None
  end.

Definition parse_unsigned (s : string) : option Z :=
  match s with
  | String c _ => if is_digit c then parse_digits 0 false s else None
  | EmptyString => None
  end.

(** [int(s)] for a decimal string. *)
Definition py_int (s : string) : option Z :=
  match py_strip s with
  | String "-" r => option_map Z.opp (parse_unsigned r)
  | String "+" r => parse_unsigned r
  | r => parse_unsigned r
  end.

(** ** Substrings and [str.replace] *)

(** [sub in s] *)
Fixpoint contains (sub s : string) : bool :=
  prefix sub s ||
  match s with
  | EmptyString => false
  | String _ s' => contains sub s'
  end.

(** [s.replace(old, new)] for a non-empty [old]: the leftmost occurrences
    are replaced, scanning on after each replaced occurrence.  [skip] counts
    the characters of the last replaced occurrence still to be dropped. *)
Fixpoint replace_go (old new : string) (skip : nat) (s : string) : string :=
  match s with
  | EmptyString => EmptyString
  | String c s' =>
      match skip with
      | S k => replace_go old new k s'
      | O =>
          if prefix old s then new ++ replace_go old new (String.length old - 1) s'
          else String c (replace_go old new 0 s')
      end
  end.

Definition py_replace (s old new : string) : string := replace_go old new 0 s.

(** ** Association lists keyed by paths *)

Fixpoint lookup {A} (k : string) (l : list (string * A)) : option A :=
  match l with
  | [] => None
  | (k', v) :: l' => if String.eqb k k' then Some v else lookup k l'
  end.

Fixpoint remove_key {A} (k : string) (l : list (string * A)) : list (string * A) :=
  match l with
  | [] => []
  | (k', v) :: l' => if String.eqb k k' then remove_key k l' else (k', v) :: remove_key k l'
  end.

Definition assign {A} (k : string) (v : A) (l : list (string * A)) : list (string * A) :=
  (k, v) :: remove_key k l.

(** [p] lies strictly below directory [d]. *)
Definition under (d p : string) : bool := prefix (d ++ "/") p.

Fixpoint remove_first {A} (k : string) (l : list (string * A)) : list (string * A) :=
  match l with
  | [] => []
  | (k', v) :: l' => if String.eqb k k' then l' else (k', v) :: remove_first k l'
  end.

Fixpoint join (sep : string) (l : list string) : string :=
  match l with
  | [] => ""
  | [x] => x
  | x :: l' => x ++ sep ++ join sep l'
  end.

(** [str(e)] and [traceback.format_exc()] *)
Definition py_repr_list (l : list string) : string :=
  "[" ++ join ", " (map (fun s => "'" ++ s ++ "'") l) ++ "]".

Definition exn_str (x : pyexn) : string :=
  match x with
  | Exception m => m
  | CalledProcessError cmd code _ =>
      "Command '" ++ py_repr_list cmd ++ "' returned non-zero exit status " ++ zstr code ++ "."
  | PermissionError p => "[Errno 13] Permission denied: '" ++ p ++ "'"
  | FileNotFoundError p => "[Errno 2] No such file or directory: '" ++ p ++ "'"
  | TypeError m | ValueError m | AttributeError m => m
  | KeyError k => "'" ++ k ++ "'"
  | ZeroDivisionError => "integer division or modulo by zero"
  | EOFError => "EOF when reading a line"
  | FileExistsError p => "[Errno 17] File exists: '" ++ p ++ "'"
  | ShutilError _ => "shutil.Error"
  | OSError n m => "[Errno " ++ zstr n ++ "] " ++ m
  end.

Definition format_exc (x : pyexn) : string :=
  "Traceback (most recent call last): " ++ exn_str x.

(** ** The machine the script runs on *)

(** The six [TemporaryDirectory] objects held by [self]. *)
Record tempdirs := mkTempdirs {
  temp_dir : string;
  wimtemp_dir : string;
  drivers_dir : string;
  windows_dir : string;
  virtio_mount_dir : string;
  windows_mount_dir : string
}.

Definition tempdir_list (t : tempdirs) : list string :=
  [temp_dir t; wimtemp_dir t; drivers_dir t; windows_dir t;
   virtio_mount_dir t; windows_mount_dir t].

Record world := mkWorld {
  files : list (string * string);                  (** regular files and contents *)
  dirs : list string;                              (** directories created *)
  mounts : list (string * list (string * string)); (** mount point, files it hides; innermost first *)
  logs : list (level * string);                    (** log records, newest first *)
  out : list string;                               (** console output, newest first *)
  stdin : list string;                             (** lines the user will type *)
  trace : list (list string);                      (** external commands run, newest first *)
  tmp : tempdirs;                                  (** [self.*_dir] *)
  gen : nat;                                       (** temporary directories created so far *)
  locals : list (string * list string)             (** list-valued local variables of the running method *)
}.

Definition set_files f w :=
  mkWorld f (dirs w) (mounts w) (logs w) (out w) (stdin w) (trace w) (tmp w) (gen w) (locals w).
Definition set_dirs d w :=
  mkWorld (files w) d (mounts w) (logs w) (out w) (stdin w) (trace w) (tmp w) (gen w) (locals w).
Definition set_mounts m w :=
  mkWorld (files w) (dirs w) m (logs w) (out w) (stdin w) (trace w) (tmp w) (gen w) (locals w).
Definition set_logs l w :=
  mkWorld (files w) (dirs w) (mounts w) l (out w) (stdin w) (trace w) (tmp w) (gen w) (locals w).
Definition set_out o w :=
  mkWorld (files w) (dirs w) (mounts w) (logs w) o (stdin w) (trace w) (tmp w) (gen w) (locals w).
Definition set_stdin i w :=
  mkWorld (files w) (dirs w) (mounts w) (logs w) (out w) i (trace w) (tmp w) (gen w) (locals w).
Definition set_trace t w :=
  mkWorld (files w) (dirs w) (mounts w) (logs w) (out w) (stdin w) t (tmp w) (gen w) (locals w).
Definition set_tmp t g w :=
  mkWorld (files w) (dirs w) (mounts w) (logs w) (out w) (stdin w) (trace w) t g (locals w).
Definition set_locals v w :=
  mkWorld (files w) (dirs w) (mounts w) (logs w) (out w) (stdin w) (trace w) (tmp w) (gen w) v.

(** What the outside world answers. *)
Record env := mkEnv {
  status : list (list string) -> list string -> Z;  (** exit status, given the commands run before *)
  stderr_of : list string -> string;
  stdout_of : list string -> string;
  image_files : string -> list (string * string);   (** files an ISO or "wim:index" shows when mounted *)
  copy_fault : string -> string -> option pyexn;    (** what [shutil.copytree] raises, if anything *)
  unreadable : string -> bool;                      (** listing this directory is refused *)
  fresh : nat -> tempdirs;                          (** names of new temporary directories *)
  user : string;                                    (** [getpass.getuser()] *)
  home : string;                                    (** [$HOME] *)
  url_content : string -> option string;            (** what [urlretrieve] fetches *)
  mido_iso : option string;                         (** the ISO Mido.sh leaves, if any *)
  meminfo_available_kb : option Z;                  (** [MemAvailable] of /proc/meminfo *)
  cpu_count : Z;                                    (** [os.cpu_count()] *)
  statvfs_images : pyexn + Z                        (** [os.statvfs('/var/lib/libvirt/images/')]: its [OSError], or [f_frsize * f_bavail] *)
}.

(** ** The monad *)

Definition M (A : Type) : Type := env -> world -> outcome A * world.

Definition ret {A} (a : A) : M A := fun _ w => (Ok a, w).

Definition bind {A B} (m : M A) (k : A -> M B) : M B := fun e w =>
  match m e w with
  | (Ok a, w1) => k a e w1
  | (Raise x, w1) => (Raise x, w1)
  | (Exit c, w1) => (Exit c, w1)
  end.

Declare Scope py_scope.
Delimit Scope py_scope with py.
Notation "x <- m ;; k" := (bind m (fun x => k))
  (at level 61, m at next level, right associativity) : py_scope.
Notation "' p <- m ;; k" := (bind m (fun x => match x with p => k end))
  (at level 61, p pattern, m at next level, right associativity) : py_scope.
Notation "m ;; k" := (bind m (fun _ => k))
  (at level 61, right associativity) : py_scope.
Open Scope py_scope.

Definition raise {A} (x : pyexn) : M A := fun _ w => (Raise x, w).
Definition sys_exit {A} (code : Z) : M A := fun _ w => (Exit code, w).
Definition get_env : M env := fun e w => (Ok e, w).
Definition get_world : M world := fun _ w => (Ok w, w).
Definition modify (f : world -> world) : M unit := fun _ w => (Ok tt, f w).

(** The [except] clauses of a [try], tried in order; a handler's own
    exception is not caught by the clauses after it. *)
Fixpoint dispatch {A} (clauses : list ((pyexn -> bool) * (pyexn -> M A))) (x : pyexn) : M A :=
  match clauses with
  | [] => raise x
  | (c, h) :: cs => if c x then h x else dispatch cs x
  end.

Definition try_excepts {A} (m : M A) (clauses : list ((pyexn -> bool) * (pyexn -> M A))) : M A :=
  fun e w =>
    match m e w with
    | (Raise x, w1) => dispatch clauses x e w1
    | r => r
    end.

(** [try: m except C as x: h x] *)
Definition try_except {A} (m : M A) (catches : pyexn -> bool) (h : pyexn -> M A) : M A :=
  try_excepts m [(catches, h)].

(** [try: m finally: fin] *)
Definition try_finally {A} (m : M A) (fin : M unit) : M A := fun e w =>
  let (r, w1) := m e w in
  match fin e w1 with
  | (Ok _, w2) => (r, w2)
  | (Raise x, w2) => (Raise x, w2)
  | (Exit c, w2) => (Exit c, w2)
  end.

Fixpoint for_each {A} (l : list A) (body : A -> M unit) : M unit :=
  match l with
  | [] => ret tt
  | a :: l' => body a ;; for_each l' body
  end.

(** ** Library calls *)

(** [logging.log(level, message)] *)
Definition log (lvl : level) (msg : string) : M unit :=
  modify (fun w => set_logs ((lvl, msg) :: logs w) w).

Definition print (msg : string) : M unit :=
  modify (fun w => set_out (msg :: out w) w).

(** [input(prompt)] *)
Definition input (prompt : string) : M string := fun _ w =>
  match stdin w with
  | [] => (Raise EOFError, set_out (prompt :: out w) w)
  | l :: rest => (Ok l, set_stdin rest (set_out (prompt :: out w) w))
  end.

Definition isfile (p : string) : M bool := fun _ w =>
  (Ok (match lookup p (files w) with Some _ => true | None => false end), w).

Definition isdir_w (p : string) (w : world) : bool :=
  existsb (String.eqb p) (dirs w) || existsb (fun '(q, _) => under p q) (files w)
  || existsb (fun '(q, _) => String.eqb p q) (mounts w).

(** [os.path.exists(p)] / [Path(p).exists()] *)
Definition path_exists (p : string) : M bool := fun _ w =>
  (Ok (match lookup p (files w) with Some _ => true | None => isdir_w p w end), w).

(** [os.path.ismount(p)] *)
Definition ismount_w (p : string) (w : world) : bool :=
  existsb (fun '(q, _) => String.eqb p q) (mounts w).

Definition ismount (p : string) : M bool := fun _ w => (Ok (ismount_w p w), w).

(** The path components of [s], split at every "/". *)
Fixpoint split_slash_go (s cur : string) : list string :=
  match s with
  | EmptyString => [cur]
  | String c r =>
      if Ascii.eqb c "/" then cur :: split_slash_go r "" else split_slash_go r (cur ++ String c "")
  end.

Definition split_slash (s : string) : list string := split_slash_go s "".

(** The first component of a relative path. *)
Definition first_component (s : string) : string :=
  match split_slash s with c :: _ => c | [] => "" end.

(** The paths the world knows: regular files, directories, mount points. *)
Definition known_paths (w : world) : list string :=
  app (map fst (files w)) (app (dirs w) (map fst (mounts w))).

(** [list(Path(p).iterdir())]: the entries directly inside [p], regular
    files and subdirectories alike, each once. *)
Definition iterdir (p : string) : M (list string) := fun e w =>
  if unreadable e p then (Raise (PermissionError p), w)
  else if isdir_w p w then
    (Ok (nodup string_dec
           (map (fun q => p ++ "/" ++ first_component
                                       (substring (S (String.length p)) (String.length q) q))
              (filter (under p) (known_paths w)))), w)
  else (Raise (FileNotFoundError p), w).

(** [open(p).read()] *)
Definition read_file (p : string) : M string := fun _ w =>
  match lookup p (files w) with
  | Some c => (Ok c, w)
  | None => (Raise (FileNotFoundError p), w)
  end.

Definition write_file (p c : string) : M unit :=
  modify (fun w => set_files (assign p c (files w)) w).

Definition remove_file (p : string) : M unit :=
  modify (fun w => set_files (remove_key p (files w)) w).

Definition rmtree (p : string) : M unit :=
  modify (fun w =>
    set_dirs (filter (fun d => negb (String.eqb d p || under p d)) (dirs w))
      (set_files (filter (fun '(q, _) => negb (under p q)) (files w)) w)).

Definition makedirs (p : string) : M unit :=
  modify (fun w => set_dirs (p :: dirs w) w).

(** [os.path.expanduser]: "~" and "~/..." only; "~name" paths are left as
    they are. *)
Definition expanduser (p : string) : M string := fun e w =>
  (Ok (match p with
       | String "~" EmptyString => home e
       | String "~" (String "/" r) => home e ++ "/" ++ r
       | _ => p
       end), w).

Definition pybool (b : bool) : string := if b then "True" else "False".

Definition str_in (s : string) (l : list string) : bool := existsb (String.eqb s) l.

(** ** External commands *)

(** A mount puts the image's files at [mp] and hides what was there. *)
Definition mount_at (mp : string) (img : list (string * string)) (w : world) : world :=
  let hidden := filter (fun '(p, _) => under mp p) (files w) in
  let kept := filter (fun '(p, _) => negb (under mp p)) (files w) in
  set_mounts ((mp, hidden) :: mounts w)
    (set_files (app (map (fun '(r, c) => (mp ++ "/" ++ r, c)) img) kept) w).

Definition unmount_at (mp : string) (w : world) : world :=
  match lookup mp (mounts w) with
  | None => w
  | Some hidden =>
      set_mounts (remove_first mp (mounts w))
        (set_files (app hidden (filter (fun '(p, _) => negb (under mp p)) (files w))) w)
  end.

Definition file_or_empty (p : string) (w : world) : string :=
  match lookup p (files w) with Some c => c | None => "" end.

(** What a command that exits with status 0 does, and its standard output. *)
Definition cmd_effect (e : env) (cmd : list string) (input : string) (w : world)
  : world * string :=
  match cmd with
  | ["sudo"; "mount"; "-o"; "loop"; iso; mp] => (mount_at mp (image_files e iso) w, "")
  | ["sudo"; "umount"; mp] => (unmount_at mp w, "")
  | ["sudo"; "wimmountrw"; wim; idx; dir] =>
      (mount_at dir (image_files e (wim ++ ":" ++ idx)) w, "")
  | ["sudo"; "wimunmount"; "--commit"; dir] => (unmount_at dir w, "")
  | ["sudo"; "cp"; a; b] =>
      (match lookup a (files w) with
       | Some c => set_files (assign b c (files w)) w
       | None => w
       end, "")
  | ["sudo"; "tee"; "-a"; f] =>
      (set_files (assign f (file_or_empty f w ++ input) (files w)) w, input)
  | ["sudo"; "tee"; f] => (set_files (assign f input (files w)) w, input)
  | ["sudo"; "cat"; f] => (w, file_or_empty f w)
  | ["./Mido.sh"; "win10x64"] =>
      (match mido_iso e with
       | Some c => set_files (assign "win10x64.iso" c (files w)) w
       | None => w
       end, stdout_of e cmd)
  | "sudo" :: "mkisofs" :: _ => (set_files (assign "CustomWin10.iso" "" (files w)) w, "")
  | _ => (w, stdout_of e cmd)
  end.

(** Run [cmd] with [input] on its standard input: (status, stdout, stderr). *)
Definition sp_run (cmd : list string) (input : string) : M (Z * string * string) :=
  fun e w =>
    let code := status e (trace w) cmd in
    let w1 := set_trace (cmd :: trace w) w in
    if Z.eqb code 0 then
      let (w2, o) := cmd_effect e cmd input w1 in (Ok (0%Z, o, ""), w2)
    else (Ok (code, "", stderr_of e cmd), w1).

(** [subprocess.run(cmd, input=..., capture_output=True, check=True)] *)
Definition run_checked (cmd : list string) (input : string) : M string :=
  '(code, o, err) <- sp_run cmd input ;;
  if Z.eqb code 0 then ret o else raise (CalledProcessError cmd code err).

(** [subprocess.call(cmd)] *)
Definition call (cmd : list string) : M Z :=
  '(code, _, _) <- sp_run cmd "" ;; ret code.

(** [subprocess.check_output(cmd).decode()] *)
Definition check_output (cmd : list string) : M string := run_checked cmd "".

(** [subprocess.run(cmd)]: no check of the status. *)
Definition run_unchecked (cmd : list string) : M unit :=
  _ <- sp_run cmd "" ;; ret tt.

(** ** Stage1 *)

Definition fail {A} (msg : string) (exc : option pyexn) : M A :=
  match exc with
  | Some x =>
      log ERROR (msg ++ ". Exception: " ++ exn_str x ++ ". Traceback: " ++ format_exc x)
  | None => log ERROR msg
  end ;;
  sys_exit 1.

Definition run_subprocess (cmd : list string) (fail_msg : string) : M unit :=
  try_except (run_checked cmd "" ;; ret tt) is_CalledProcessError
    (fun x =>
       match x with
       | CalledProcessError _ _ err =>
           log ERROR ("Command failed. Error: " ++ err) ;; raise (Exception fail_msg)
       | _ => raise x
       end).

Definition sudo_tee_write (file_path content : string) : M unit :=
  try_except
    (* the [returncode != 0] test after [check=True] never fires *)
    (run_checked ["sudo"; "tee"; file_path] content ;; ret tt)
    any_exception
    (fun x =>
       fail (A:=unit) ("Failed to modify " ++ file_path ++ ". Error: " ++ exn_str x) None ;;
       raise (Exception ("Exiting due to failure in modifying " ++ file_path))).

Definition sudo_cat_read (file_path : string) : M string :=
  try_except
    (run_checked ["sudo"; "cat"; file_path] "")
    any_exception
    (fun x =>
       fail (A:=unit) ("Failed to read " ++ file_path ++ ". Error: " ++ exn_str x) None ;;
       raise (Exception ("Exiting due to failure in reading " ++ file_path))).

Definition init_temp_dirs : M unit := fun e w =>
  let t := fresh e (gen w) in
  (Ok tt, set_dirs (app (tempdir_list t) (dirs w)) (set_tmp t (S (gen w)) w)).

Definition is_mounted (p : string) : M bool := ismount p.

Definition unmount (mount_point : string) : M unit :=
  let cmd := ["sudo"; "umount"; mount_point] in
  m <- is_mounted mount_point ;;
  if negb m then log WARNING (mount_point ++ " is not mounted.") else
  try_excepts
    (run_subprocess cmd ("Failed to unmount " ++ mount_point) ;;
     entries <- iterdir mount_point ;;
     match entries with
     | [] => ret tt
     | _ => fail ("Failed to unmount " ++ mount_point ++ ". The directory is not empty.") None
     end ;;
     log INFO ("Successfully unmounted " ++ mount_point ++ "."))
    [(is_PermissionError,
      fun _ =>
        log ERROR ("Permission error occurred while unmounting " ++ mount_point) ;;
        fail ("Failed to unmount " ++ mount_point ++ " due to permission error.") None);
     (any_exception, fun x => fail ("Failed to unmount " ++ mount_point) (Some x))].

Definition mount_iso (iso_path mount_point : string) : M unit :=
  (* the two [isinstance] tests hold after the [Path(...)] conversions *)
  ie <- path_exists iso_path ;;
  if negb ie then log ERROR ("ISO path " ++ iso_path ++ " does not exist.") else
  me <- path_exists mount_point ;;
  if negb me then log ERROR ("Mount point " ++ mount_point ++ " does not exist.") else
  let cmd := ["sudo"; "mount"; "-o"; "loop"; iso_path; mount_point] in
  try_except
    (run_subprocess cmd ("Failed to mount " ++ iso_path ++ " to " ++ mount_point) ;;
     entries <- iterdir mount_point ;;
     match entries with
     | [] => fail ("Failed to mount " ++ iso_path ++ " to " ++ mount_point
                   ++ ". The directory is empty.") None
     | _ => ret tt
     end ;;
     log INFO ("Successfully mounted " ++ iso_path ++ " to " ++ mount_point ++ "."))
    any_exception
    (fun x =>
       ie' <- path_exists iso_path ;;
       me' <- path_exists mount_point ;;
       log ERROR ("Debug Info: ISO Path exists: " ++ pybool ie' ++ ", Mount Point exists: "
                  ++ pybool me') ;;
       fail ("Failed to mount " ++ iso_path ++ " to " ++ mount_point) (Some x)).

Definition mount_wim (wim_path : string) (index : Z) : M unit :=
  w <- get_world ;;
  let wimtemp := wimtemp_dir (tmp w) in
  log INFO ("Mounting WIM image from " ++ wim_path ++ " at index " ++ zstr index ++ " to "
            ++ wimtemp) ;;
  ex <- path_exists wim_path ;;
  if negb ex then log ERROR ("WIM file " ++ wim_path ++ " does not exist.") else
  let cmd := ["sudo"; "wimmountrw"; wim_path; zstr index; wimtemp] in
  try_except
    (run_checked cmd "" ;; log INFO "Successfully mounted WIM image.")
    is_CalledProcessError
    (fun x =>
       match x with
       | CalledProcessError _ _ err =>
           log ERROR ("Failed to mount WIM image. Error: " ++ py_strip err)
       | _ => raise x
       end).

Definition unmount_wim : M unit :=
  w <- get_world ;;
  run_subprocess ["sudo"; "wimunmount"; "--commit"; wimtemp_dir (tmp w)]
    "Failed to unmount WIM image.".

(** The files below [src] that [skip] does not reject, copied to the same
    relative paths below [dest], which is created. *)
Definition copy_entries (src dest : string) (skip : string -> bool) (w : world) : world :=
  let copied :=
    map (fun '(p, c) => (dest ++ substring (String.length src) (String.length p) p, c))
      (filter (fun '(p, _) => under src p && negb (skip p)) (files w)) in
  set_dirs (dest :: dirs w)
    (set_files (fold_right (fun '(p, c) fs => assign p c fs) (files w) copied) w).

(** [shutil.copytree(src, dest, dirs_exist_ok=True)].  A [shutil.Error] is
    raised at the end, after every entry that could be copied was copied:
    only the failed entries (and what lies below a failed directory) are
    missing.  The other faults stop it before it copies anything. *)
Definition copytree (src dest : string) : M unit := fun e w =>
  match copy_fault e src dest with
  | Some (ShutilError errs) =>
      let failed := map (fun '(s, _, _) => s) errs in
      (Raise (ShutilError errs),
       copy_entries src dest (fun p => existsb (fun f => String.eqb f p || under f p) failed) w)
  | Some x => (Raise x, w)
  | None =>
      if isdir_w src w then (Ok tt, copy_entries src dest (fun _ => false) w)
      else (Raise (FileNotFoundError src), w)
  end.

(** [for src, dst, msg in e.args[0]] in the handler of [copy_tree]:
    only a [shutil.Error] carries a list there; an [OSError] carries its
    errno, and the other exceptions their message. *)
Definition log_copy_errors (x : pyexn) : M unit :=
  match x with
  | ShutilError errs =>
      for_each errs (fun '(s, d, m) =>
        log ERROR ("Error occurred when copying " ++ s ++ " to " ++ d ++ ": " ++ m))
  | OSError _ _ | FileNotFoundError _ | PermissionError _ | FileExistsError _
  | CalledProcessError _ _ _ => raise (TypeError "'int' object is not iterable")
  | ZeroDivisionError | EOFError =>
      raise (ValueError "not enough values to unpack (expected 3, got 1)")
  | Exception m | TypeError m | ValueError m | AttributeError m | KeyError m =>
      if String.eqb m "" then ret tt
      else raise (ValueError "not enough values to unpack (expected 3, got 1)")
  end.

Definition copy_tree (src dest : string) : M unit :=
  try_excepts (copytree src dest)
    [(is_FileExistsError, fun _ => log ERROR (dest ++ " already exists."));
     (is_PermissionError,
      fun _ => log ERROR ("Do not have the necessary permissions to copy to " ++ dest ++ "."));
     (any_exception, log_copy_errors);
     (* the bare [except:] only sees what [except Exception] lets through *)
     (any_exception, fun x => log ERROR ("An unexpected error occurred: " ++ exn_str x))].

Definition local_get (name : string) : M (list string) := fun _ w =>
  (Ok (match lookup name (locals w) with Some v => v | None => [] end), w).

Definition local_set (name : string) (v : list string) : M unit :=
  modify (fun w => set_locals (assign name v (locals w)) w).

(** [os.chmod(p, 0o755)]: only its failure on a missing file matters here. *)
Definition chmod (p : string) : M unit :=
  ex <- path_exists p ;;
  if ex then ret tt else raise (FileNotFoundError p).

(** [str(Path(s))]: repeated "/" and "." components dropped, a leading
    "//" (but not "///") kept, and "." for a path with nothing left. *)
Definition path_str (s : string) : string :=
  let parts := filter (fun c => negb (String.eqb c "" || String.eqb c ".")) (split_slash s) in
  let root := match s with
              | String "/" (String "/" (String "/" _)) => "/"
              | String "/" (String "/" _) => "//"
              | String "/" _ => "/"
              | _ => ""
              end in
  match root, parts with
  | "", [] => "."
  | _, _ => root ++ join "/" parts
  end.

(** A directory, for a path in the form [path_str] gives: the current and
    parent directories and the root always are. *)
Definition is_dir_path (p : string) (w : world) : bool :=
  String.eqb p "." || String.eqb p ".." || String.eqb p "/" || String.eqb p "//" || isdir_w p w.

(** The directory that would hold [p] exists: the current directory for a
    single component, the root for a component right below it. *)
Definition parent_exists (p : string) (w : world) : bool :=
  match rev (split_slash p) with
  | [] | [_] => true
  | _ :: rparent =>
      let par := join "/" (rev rparent) in
      String.eqb par "" || is_dir_path par w
  end.

(** [urlretrieve(url, dest)]: the URL is opened first, then [dest] for
    writing, which fails on a directory ([IsADirectoryError], errno 21) and
    when the directory that would hold it is missing. *)
Definition urlretrieve (url dest : string) : M unit := fun e w =>
  match url_content e url with
  | Some c =>
      if is_dir_path dest w then (Raise (OSError 21 ("Is a directory: '" ++ dest ++ "'")), w)
      else if negb (parent_exists dest w) then (Raise (FileNotFoundError dest), w)
      else (Ok tt, set_files (assign dest c (files w)) w)
  | None => (Raise (OSError 0 ("<urlopen error " ++ url ++ ">")), w)
  end.

(** [os.path.basename(urlsplit(u).path)] for a URL of the form
    scheme://netloc/path?query#fragment *)
Fixpoint cut_query (s : string) : string :=
  match s with
  | EmptyString => EmptyString
  | String c r => if Ascii.eqb c "?" || Ascii.eqb c "#" then EmptyString else String c (cut_query r)
  end.

Fixpoint after_scheme (s : string) : option string :=
  if prefix "://" s then Some (substring 3 (String.length s - 3) s)
  else match s with
       | EmptyString => None
       | String _ r => after_scheme r
       end.

Fixpoint from_slash (s : string) : string :=
  match s with
  | EmptyString => EmptyString
  | String "/" _ => s
  | String _ r => from_slash r
  end.

Fixpoint basename_go (s acc : string) : string :=
  match s with
  | EmptyString => acc
  | String "/" r => basename_go r ""
  | String c r => basename_go r (acc ++ String c "")
  end.

Definition url_basename (u : string) : string :=
  let u' := cut_query u in
  let path := match after_scheme u' with Some r => from_slash r | None => u' end in
  basename_go path "".

Definition VIRTIO_ISO_URL : string :=
  "https://fedorapeople.org/groups/virt/virtio-win/direct-downloads/latest-virtio/virtio-win.iso".

Definition iso_options : list string :=
  ["Use your own Windows 10 ISO that has VirtIO drivers installed.";
   "Use your own Windows 10 ISO that needs to have VirtIO drivers installed.";
   "Securely download a new Windows 10 ISO and install VirtIO drivers."].

Fixpoint print_options (i : Z) (l : list string) : M unit :=
  match l with
  | [] => ret tt
  | o :: l' => print (zstr i ++ ". " ++ o) ;; print_options (i + 1) l'
  end.

(** One round of [while True: try: ... break except ValueError: print(e)]. *)
Definition choice_round : M (option string) :=
  try_except
    (choice <- input "Select an option: " ;;
     if str_in choice ["1"; "2"; "3"] then ret (Some choice)
     else raise (ValueError "Invalid choice, please try again."))
    is_ValueError
    (fun x => print (exn_str x) ;; ret None).

(** Each round reads a line (or raises [EOFError]), so [S (length stdin)]
    rounds are as many as the loop can run. *)
Fixpoint choice_loop (fuel : nat) : M string :=
  match fuel with
  | O => raise EOFError
  | S n =>
      r <- choice_round ;;
      match r with
      | Some c => ret c
      | None => choice_loop n
      end
  end.

Definition prompt_for_iso_choice : M (string * string * string * string) :=
  print_options 1 iso_options ;;
  w <- get_world ;;
  choice <- choice_loop (S (length (stdin w))) ;;
  iso_ref <-
    (if str_in choice ["1"; "2"] then
       r <- input "Please enter the path to the existing ISO: " ;;
       r' <- expanduser r ;;
       ok <- isfile r' ;;
       (if ok then ret tt else fail (r' ++ " does not exist. Exiting.") None) ;;
       ret r'
     else ret "") ;;
  let skip_ref := if String.eqb choice "1" then "true" else "false" in
  let download_ref := if String.eqb choice "2" then "false" else "true" in
  ret (iso_ref, skip_ref, download_ref, choice).

Definition handle_user_provided_iso (provided_win_iso : string) : M string :=
  ret provided_win_iso.

Definition get_redirected_url (url : string) : M string :=
  try_except
    (log DEBUG ("Debug: Getting redirected URL for " ++ url ++ ".") ;;
     o <- check_output ["curl"; "-sIL"; "-o"; "/dev/null"; "-w"; "%{url_effective}"; url] ;;
     ret (py_strip o))
    any_exception
    (fun x =>
       log ERROR ("Error in get_redirected_url: " ++ exn_str x) ;;
       fail ("Failed to get redirected URL. Error: " ++ exn_str x) (Some x)).

Definition download_file (url dest : string) : M unit :=
  let dest_path := path_str dest in
  try_except
    (log DEBUG ("Debug: Downloading file from " ++ url ++ " to " ++ dest_path ++ ".") ;;
     urlretrieve url dest_path ;;
     ex <- path_exists dest_path ;;
     (if ex then ret tt
      else fail ("Download failed, file " ++ dest_path ++ " does not exist.") None) ;;
     log INFO ("Successfully downloaded from " ++ url ++ " to " ++ dest_path ++ "."))
    any_exception
    (fun x =>
       log ERROR ("Error in download_file: " ++ exn_str x) ;;
       fail ("Failed to download " ++ dest_path ++ ". Error: " ++ exn_str x) (Some x)).

Definition prepare_directories_for_custom_iso : M unit :=
  w <- get_world ;;
  let t := tmp w in
  for_each [temp_dir t; drivers_dir t; windows_dir t; virtio_mount_dir t;
            windows_mount_dir t; wimtemp_dir t]
    (fun d =>
       ex <- path_exists d ;;
       (if ex then rmtree d else ret tt) ;;
       makedirs d).

Definition copy_virtio_drivers (virtio_iso : string) : M unit :=
  log INFO "Copying over VirtIO drivers." ;;
  w <- get_world ;;
  let t := tmp w in
  try_except
    (mount_iso virtio_iso (virtio_mount_dir t) ;;
     copy_tree (virtio_mount_dir t) (drivers_dir t) ;;
     unmount (virtio_mount_dir t))
    any_exception
    (fun x =>
       log ERROR ("Error in copy_virtio_drivers: " ++ exn_str x) ;;
       fail ("Failed to copy VirtIO drivers. Error: " ++ exn_str x) (Some x)).

Definition copy_windows_files (win_iso : string) : M unit :=
  log INFO "Copying over Windows files." ;;
  w <- get_world ;;
  let t := tmp w in
  try_except
    (mount_iso win_iso (windows_mount_dir t) ;;
     copy_tree (windows_mount_dir t) (windows_dir t) ;;
     unmount (windows_mount_dir t))
    any_exception
    (fun x =>
       log ERROR ("Error in copy_windows_files: " ++ exn_str x) ;;
       fail ("Failed to copy Windows files. Error: " ++ exn_str x) (Some x)).

Definition add_drivers_to_windows_boot_images : M unit :=
  log INFO "Adding drivers to Windows boot images." ;;
  for_each [1%Z; 2%Z] (fun image_index =>
    w <- get_world ;;
    let t := tmp w in
    mount_wim (windows_dir t ++ "/sources/boot.wim") image_index ;;
    copy_tree (drivers_dir t) (wimtemp_dir t) ;;
    unmount_wim).

Definition mkisofs_command (windows : string) : list string :=
  ["sudo"; "mkisofs"; "-allow-limited-size"; "-o"; "CustomWin10.iso"; "-b";
   "boot/etfsboot.com"; "-no-emul-boot"; "-boot-load-seg"; "0x07C0"; "-boot-load-size"; "8";
   "-iso-level"; "2"; "-J"; "-l"; "-D"; "-N"; "-joliet-long"; "-relaxed-filenames"; "-V";
   "Custom Win10"; "-allow-lowercase"; "-hide"; "boot.catalog"; windows].

Definition generate_custom_iso : M string :=
  log INFO "Generating custom ISO." ;;
  w <- get_world ;;
  run_subprocess (mkisofs_command (windows_dir (tmp w))) "Failed to create custom ISO." ;;
  log INFO "Custom ISO generated successfully." ;;
  ret "CustomWin10.iso".

(** [mounted_isos.append(name)] *)
Definition record_mounted (name : string) : M unit :=
  l <- local_get "mounted_isos" ;; local_set "mounted_isos" (app l [name]).

Definition create_custom_iso (win_iso virtio_iso : string) : M string :=
  local_set "mounted_isos" [] ;;
  try_finally
    (try_except
       (prepare_directories_for_custom_iso ;;
        copy_virtio_drivers virtio_iso ;;
        w1 <- get_world ;;
        record_mounted (virtio_mount_dir (tmp w1)) ;;
        copy_windows_files win_iso ;;
        w2 <- get_world ;;
        record_mounted (windows_mount_dir (tmp w2)) ;;
        add_drivers_to_windows_boot_images ;;
        generate_custom_iso)
       any_exception
       (fun x => fail ("Failed to create custom ISO. Error: " ++ exn_str x) (Some x)))
    (l <- local_get "mounted_isos" ;; for_each l unmount).

Definition cleanup_temp_dirs : M unit :=
  w <- get_world ;;
  let t := tmp w in
  for_each [temp_dir t; drivers_dir t; windows_dir t; virtio_mount_dir t; windows_mount_dir t]
    (fun d =>
       m <- is_mounted d ;;
       (if m then unmount d else ret tt) ;;
       rmtree d) ;;
  init_temp_dirs.

Definition create_iso_with_virtio_from_user_iso (provided_win_iso : string) : M string :=
  log INFO "Create custom ISO with VirtIO drivers." ;;
  cleanup_temp_dirs ;;
  try_except
    (actual_virtio_url <- get_redirected_url VIRTIO_ISO_URL ;;
     let virtio_iso := url_basename actual_virtio_url in
     download_file actual_virtio_url virtio_iso ;;
     create_custom_iso provided_win_iso virtio_iso)
    any_exception
    (fun x => fail ("Failed to create custom ISO. Error: " ++ exn_str x) (Some x)).

Definition handle_downloaded_iso : M string :=
  log INFO "Starting to handle downloaded ISO." ;;
  download_file "https://raw.githubusercontent.com/ElliotKillick/Mido/main/Mido.sh" "Mido.sh" ;;
  log INFO "Custom ISO created successfully." ;;
  chmod "Mido.sh" ;;
  code <- call ["./Mido.sh"; "win10x64"] ;;
  (if negb (Z.eqb code 0) then fail "Failed to download Windows 10 ISO." None else ret tt) ;;
  let downloaded_win_iso := "win10x64.iso" in
  ok <- isfile downloaded_win_iso ;;
  (if negb ok then fail (downloaded_win_iso ++ " not found. Something went wrong.") None
   else ret tt) ;;
  actual_virtio_url <- get_redirected_url VIRTIO_ISO_URL ;;
  let virtio_iso := url_basename actual_virtio_url in
  download_file actual_virtio_url virtio_iso ;;
  custom_iso_path <- create_custom_iso downloaded_win_iso virtio_iso ;;
  print "Custom ISO Created" ;;
  ret custom_iso_path.

(** Lines 53-60 of [main]. *)
Definition dispatch_choice (user_choice provided_win_iso : string) : M string :=
  if String.eqb user_choice "1" then handle_user_provided_iso provided_win_iso
  else if String.eqb user_choice "2" then create_iso_with_virtio_from_user_iso provided_win_iso
  else if String.eqb user_choice "3" then handle_downloaded_iso
  else fail "Invalid choice." None.

(** ** Packages and host configuration *)

Definition dq : string := String (ascii_of_nat 34) EmptyString.
Definition nl : string := String (ascii_of_nat 10) EmptyString.
Definition quoted (s : string) : string := dq ++ s ++ dq.

Definition REQUIRED_PACKAGES : list string :=
  ["qemu-system-x86"; "libvirt-clients"; "libvirt-daemon-system";
   "libvirt-daemon-config-network"; "bridge-utils"; "virt-manager"; "ovmf"; "wimtools"].

Definition dpkg_query (package : string) : list string :=
  ["dpkg-query"; "-W"; "-f=${Status}"; package].

(** [all(subprocess.call(dpkg_query(p)) == 0 for p in packages)]: stops at the
    first package whose query exits non-zero. *)
Fixpoint all_installed (packages : list string) : M bool :=
  match packages with
  | [] => ret true
  | p :: ps =>
      code <- call (dpkg_query p) ;;
      if Z.eqb code 0 then all_installed ps else ret false
  end.

Definition install_packages (packages : list string) : M unit :=
  log INFO "Starting package installation." ;;
  log INFO "Checking if required packages are already installed..." ;;
  ok <- all_installed packages ;;
  (if negb ok then
     log INFO "Installing required packages..." ;;
     run_subprocess ["sudo"; "apt"; "update"] "Failed to update package list." ;;
     run_subprocess (app ["sudo"; "apt"; "install"; "-y"] packages) "Failed to install packages."
   else log INFO "All required packages are already installed.") ;;
  log INFO "Finished package installation.".

Definition add_user_to_libvirt_and_kvm_groups : M unit :=
  try_except
    (e <- get_env ;;
     run_subprocess ["sudo"; "usermod"; "-a"; "-G"; "kvm,libvirt"; user e]
       "Failed to add the user to kvm and libvirt groups.")
    any_exception
    (fun x => fail ("Failed to add user to kvm and libvirt groups. Error: " ++ exn_str x) None).

Definition manage_libvirtd_service (actions : list string) : M unit :=
  for_each actions (fun action =>
    run_subprocess ["sudo"; "systemctl"; action; "libvirtd"]
      ("Failed to " ++ action ++ " the libvirtd service.")).

Definition restart_libvirtd_service : M unit := manage_libvirtd_service ["restart"].

Definition enable_virsh_default_network : M unit :=
  run_subprocess ["sudo"; "virsh"; "net-autostart"; "default"]
    "Failed to enable the default network for virsh.".

Definition backup_file (file_path : string) : M unit :=
  try_except
    (ex <- path_exists file_path ;;
     if ex then
       let backup_path := file_path ++ ".backup" in
       run_unchecked ["sudo"; "cp"; file_path; backup_path] ;;
       log INFO ("Backup of " ++ file_path ++ " created.")
     else log WARNING ("File " ++ file_path ++ " does not exist, skipping backup."))
    any_exception
    (fun x => fail ("Failed to create backup of " ++ file_path ++ ". Error: " ++ exn_str x) None).

Definition modify_config (file_path search_string replace_string : string) : M unit :=
  try_except
    (filedata <- sudo_cat_read file_path ;;
     if contains search_string filedata then
       let filedata' := py_replace filedata search_string replace_string in
       sudo_tee_write file_path filedata' ;;
       log INFO ("Modified " ++ file_path ++ ".")
     else
       log WARNING ("Search string '" ++ search_string ++ "' not found in " ++ file_path))
    any_exception
    (fun x =>
       fail (A:=unit) ("Failed to modify " ++ file_path ++ ". Error: " ++ exn_str x) None ;;
       raise (Exception ("Exiting due to failure in modifying " ++ file_path))).

Definition LIBVIRT_CONFIG_PATH : string := "/etc/libvirt/libvirtd.conf".
Definition QEMU_CONFIG_PATH : string := "/etc/libvirt/qemu.conf".

Definition sock_group_search : string := "#unix_sock_group = " ++ quoted "libvirt".
Definition sock_group_replace : string := "unix_sock_group = " ++ quoted "libvirt".
Definition sock_perms_search : string := "#unix_sock_rw_perms = " ++ quoted "0770".
Definition sock_perms_replace : string := "unix_sock_rw_perms = " ++ quoted "0770".

Definition additional_settings : string :=
  "log_filters=" ++ quoted "3:qemu 1:libvirt" ++ nl ++
  "log_outputs=" ++ quoted "2:file:/var/log/libvirt/libvirtd.log" ++ nl.

(** [additional_settings.strip().split('\n')] *)
Definition additional_lines : list string :=
  ["log_filters=" ++ quoted "3:qemu 1:libvirt";
   "log_outputs=" ++ quoted "2:file:/var/log/libvirt/libvirtd.log"].

Definition modify_and_backup_libvirt_config : M unit :=
  let libvirt_config_path := "/etc/libvirt/libvirtd.conf" in
  let backup_path := libvirt_config_path ++ ".backup" in
  try_except
    (log INFO "Checking if libvirt configuration file exists..." ;;
     ok <- isfile libvirt_config_path ;;
     (if negb ok then fail (libvirt_config_path ++ " not found. Exiting.") None else ret tt) ;;
     log INFO "Checking if backup file already exists..." ;;
     has_backup <- isfile backup_path ;;
     (if negb has_backup then
        log INFO "Backup file does not exist. Creating backup..." ;;
        backup_file libvirt_config_path
      else log INFO "Backup file already exists. Skipping backup.") ;;
     log INFO "Modifying libvirt configuration..." ;;
     modify_config libvirt_config_path sock_group_search sock_group_replace ;;
     modify_config libvirt_config_path sock_perms_search sock_perms_replace ;;
     log INFO "Checking if additional settings already exist in libvirt configuration..." ;;
     file_contents <- read_file libvirt_config_path ;;
     let additional_settings_exist :=
       forallb (fun line => contains line file_contents) additional_lines in
     (if negb additional_settings_exist then
        log INFO "Appending additional settings to libvirt configuration..." ;;
        write_file "/tmp/additional_libvirt_settings" additional_settings ;;
        tmp_text <- read_file "/tmp/additional_libvirt_settings" ;;
        run_checked ["sudo"; "tee"; "-a"; libvirt_config_path] tmp_text ;;
        remove_file "/tmp/additional_libvirt_settings"
      else
        log INFO "Additional settings already exist in libvirt configuration. Skipping.") ;;
     log INFO "Libvirt configuration successfully modified and backed up.")
    any_exception
    (fun x =>
       fail (A:=unit) ("Failed to modify and backup libvirt configuration. Error: " ++ exn_str x)
         None ;;
       raise (Exception
                "Exiting due to failure in modifying and backing up libvirt configuration")).

Definition modify_and_backup_qemu_config : M unit :=
  let qemu_config_path := "/etc/libvirt/qemu.conf" in
  let backup_path := qemu_config_path ++ ".backup" in
  try_except
    (log INFO "Checking if qemu configuration file exists..." ;;
     ok <- isfile qemu_config_path ;;
     (if negb ok then fail (qemu_config_path ++ " not found. Exiting.") None else ret tt) ;;
     log INFO "Checking if backup file already exists..." ;;
     has_backup <- isfile backup_path ;;
     (if negb has_backup then
        log INFO "Backup file does not exist. Creating backup..." ;;
        backup_file qemu_config_path
      else log INFO "Backup file already exists. Skipping backup.") ;;
     log INFO "Modifying qemu configuration..." ;;
     e <- get_env ;;
     modify_config qemu_config_path ("#user = " ++ quoted "root") ("user = " ++ quoted (user e)) ;;
     modify_config qemu_config_path ("#group = " ++ quoted "root") ("group = " ++ quoted "libvirt") ;;
     log INFO "qemu configuration successfully modified and backed up.")
    any_exception
    (fun x =>
       fail (A:=unit) ("Failed to modify and backup qemu configuration. Error: " ++ exn_str x)
         None ;;
       raise (Exception
                "Exiting due to failure in modifying and backing up qemu configuration")).

Definition setup_libvirt : M unit :=
  log INFO "Configuring libvirt." ;;
  add_user_to_libvirt_and_kvm_groups ;;
  modify_and_backup_libvirt_config ;;
  manage_libvirtd_service ["enable"; "start"] ;;
  modify_and_backup_qemu_config ;;
  restart_libvirtd_service ;;
  enable_virsh_default_network ;;
  log INFO "libvirt configured successfully.".

(** ** Resources and the VM *)

(** Python's [a // b] on ints: floor division, [ZeroDivisionError] on 0. *)
Definition py_floordiv (a b : Z) : M Z :=
  if Z.eqb b 0 then raise ZeroDivisionError else ret (a / b)%Z.

Definition resource_assessment : M (Z * Z * Z) :=
  try_except
    (e <- get_env ;;
     match meminfo_available_kb e with
     | None => raise (KeyError "MemAvailable")
     | Some kb =>
         let available_ram_mb := (kb / 1024)%Z in
         let available_cpus := cpu_count e in
         match statvfs_images e with
         | inl x => raise x
         | inr free_bytes =>
             let available_disk_gb := (free_bytes / (1024 * 1024 * 1024))%Z in
             ret (available_ram_mb, available_cpus, available_disk_gb)
         end
     end)
    any_exception
    (fun x => fail ("Failed to assess system resources. Error: " ++ exn_str x) None).

Definition auto_or_manual_config : M string :=
  input "Do you want to automatically allocate resources? (y/n): ".

Definition auto_allocation (available_ram_mb available_cpus available_disk_gb : Z)
  : M (Z * Z * Z) :=
  try_except
    (log INFO "Automatically allocating resources..." ;;
     allocated_ram <- py_floordiv available_ram_mb 2 ;;
     allocated_cpus <- py_floordiv available_cpus 2 ;;
     allocated_disk <- py_floordiv available_disk_gb 2 ;;
     log INFO ("Allocated RAM: " ++ zstr allocated_ram ++ "MB") ;;
     log INFO ("Allocated CPU cores: " ++ zstr allocated_cpus) ;;
     log INFO ("Allocated Disk Space: " ++ zstr allocated_disk ++ "GB") ;;
     ret (allocated_ram, allocated_cpus, allocated_disk))
    any_exception
    (fun x => fail ("Failed to automatically allocate resources. Error: " ++ exn_str x) None).

(** [int(input(prompt))] *)
Definition input_int (prompt : string) : M Z :=
  s <- input prompt ;;
  match py_int s with
  | Some n => ret n
  | None => raise (ValueError ("invalid literal for int() with base 10: '" ++ s ++ "'"))
  end.

Definition manual_allocation (available_ram_mb available_cpus available_disk_gb : Z)
  : M (Z * Z * Z) :=
  try_except
    (allocated_ram <- input_int ("Enter the amount of RAM to allocate (suggested: "
                                 ++ zstr (available_ram_mb / 2) ++ "MB): ") ;;
     allocated_cpus <- input_int ("Enter the number of CPU cores to allocate (suggested: "
                                  ++ zstr (available_cpus / 2) ++ "): ") ;;
     allocated_disk <- input_int ("Enter the amount of disk space to allocate (suggested: "
                                  ++ zstr (available_disk_gb / 2) ++ "GB): ") ;;
     (if (Z.ltb available_ram_mb allocated_ram) || (Z.ltb available_cpus allocated_cpus)
         || (Z.ltb available_disk_gb allocated_disk)
      then fail "Invalid resource allocation." None else ret tt) ;;
     ret (allocated_ram, allocated_cpus, allocated_disk))
    any_exception
    (fun x => fail ("Failed to manually allocate resources. Error: " ++ exn_str x) None).

(** Lines of a text, split at newlines. *)
Fixpoint split_lines_go (s cur : string) : list string :=
  match s with
  | EmptyString => [cur]
  | String c r =>
      if Ascii.eqb c (ascii_of_nat 10) then cur :: split_lines_go r ""
      else split_lines_go r (cur ++ String c "")
  end.

Definition split_lines (s : string) : list string := split_lines_go s "".

(** The regular-expression search for [^ID=] followed by the rest of a line,
    in multi-line mode, and its group 1: the rest of the first line that
    starts with "ID=". *)
Fixpoint first_id (ls : list string) : option string :=
  match ls with
  | [] => None
  | l :: ls' =>
      if prefix "ID=" l then Some (substring 3 (String.length l - 3) l) else first_id ls'
  end.

Definition os_release_id (text : string) : option string := first_id (split_lines text).

Definition SUPPORTED_DISTROS : list string := ["ubuntu"; "pop"; "debian"; "linuxmint"].
Definition OVMF_PATH : string := "/usr/share/OVMF/OVMF_CODE_4M.fd".

Definition get_uefi_path : M string :=
  text <- read_file "/etc/os-release" ;;
  match os_release_id text with
  | None => raise (AttributeError "'NoneType' object has no attribute 'group'")
  | Some DISTRO_NAME =>
      if str_in DISTRO_NAME SUPPORTED_DISTROS then ret OVMF_PATH
      else fail "Unsupported Linux distribution for UEFI firmware." None
  end.

Fixpoint skip_ws (s : string) : string :=
  match s with
  | String c r => if is_space c then skip_ws r else s
  | EmptyString => s
  end.

Fixpoint leading_digits (s : string) : string :=
  match s with
  | String c r => if is_digit c then String c (leading_digits r) else ""
  | EmptyString => ""
  end.

(** The search for [label], blanks, then a run of digits: the number after
    the first occurrence of [label] that is followed by blanks and digits. *)
Fixpoint find_field (label text : string) : option Z :=
  let here :=
    if prefix label text then
      let ds := leading_digits (skip_ws (substring (String.length label)
                                           (String.length text - String.length label) text)) in
      if String.eqb ds "" then None else parse_digits 0 false ds
    else None in
  match here with
  | Some n => Some n
  | None =>
      match text with
      | EmptyString => None
      | String _ r => find_field label r
      end
  end.

Definition field_or_raise (label text : string) : M Z :=
  match find_field label text with
  | Some n => ret n
  | None => raise (AttributeError "'NoneType' object has no attribute 'group'")
  end.

Definition get_cpu_topology : M (Z * Z * Z) :=
  lscpu_output <- check_output ["lscpu"] ;;
  threads_per_core <- field_or_raise "Thread(s) per core:" lscpu_output ;;
  sockets <- field_or_raise "Socket(s):" lscpu_output ;;
  numa_nodes <- field_or_raise "NUMA node(s):" lscpu_output ;;
  ret (threads_per_core, sockets, numa_nodes).

Definition validate_allocation (allocated_ram allocated_cpus allocated_disk
                                available_ram_mb available_cpus available_disk_gb : Z) : M unit :=
  if (Z.ltb available_ram_mb allocated_ram) || (Z.ltb available_cpus allocated_cpus)
     || (Z.ltb available_disk_gb allocated_disk)
  then fail "Invalid resource allocation." None
  else ret tt.

Definition ascii_lower (c : ascii) : ascii :=
  let n := nat_of_ascii c in
  if (65 <=? n)%nat && (n <=? 90)%nat then ascii_of_nat (n + 32) else c.

Fixpoint lower (s : string) : string :=
  match s with
  | EmptyString => EmptyString
  | String c r => String (ascii_lower c) (lower r)
  end.

Definition virt_install_cmd (vm_name iso_path uefi : string)
  (allocated_ram allocated_cpus allocated_disk sockets cores threads_per_core : Z) : list string :=
  ["sudo"; "virt-install";
   "--name"; vm_name;
   "--ram"; zstr allocated_ram;
   "--vcpus"; zstr allocated_cpus;
   "--cpu"; "host,topology.sockets=" ++ zstr sockets ++ ",topology.cores=" ++ zstr cores
              ++ ",topology.threads=" ++ zstr threads_per_core;
   "--os-type"; "windows";
   "--os-variant"; "win10";
   "--network"; "network=default";
   "--graphics"; "spice";
   "--cdrom"; iso_path;
   "--disk"; "path=/var/lib/libvirt/images/" ++ vm_name ++ ".img,size=" ++ zstr allocated_disk
               ++ ",bus=scsi,format=qcow2,cache=writeback,discard=unmap";
   "--controller"; "type=scsi,model=virtio-scsi";
   "--machine"; "type=pc-q35-6.2";
   "--boot"; "uefi=" ++ uefi ++ ",cdrom,hd";
   "--memballoon"; "model=virtio"].

Definition create_vm (vm_name iso_path : string) : M unit :=
  log INFO ("Attempting to create VM with name: " ++ vm_name ++ ", iso_path: " ++ iso_path) ;;
  UEFI_PATH <- get_uefi_path ;;
  ok <- isfile UEFI_PATH ;;
  (if negb ok then fail ("UEFI firmware not found at specified path: " ++ UEFI_PATH) None
   else ret tt) ;;
  '(threads_per_core, sockets, numa_nodes) <- get_cpu_topology ;;
  '(available_ram_mb, available_cpus, available_disk_gb) <- resource_assessment ;;
  auto_allocate <- auto_or_manual_config ;;
  '(allocated_ram, allocated_cpus, allocated_disk) <-
    (if String.eqb (lower auto_allocate) "y"
     then auto_allocation available_ram_mb available_cpus available_disk_gb
     else manual_allocation available_ram_mb available_cpus available_disk_gb) ;;
  validate_allocation allocated_ram allocated_cpus allocated_disk
    available_ram_mb available_cpus available_disk_gb ;;
  c1 <- py_floordiv allocated_cpus threads_per_core ;;
  cores <- py_floordiv c1 sockets ;;
  run_subprocess (virt_install_cmd vm_name iso_path UEFI_PATH allocated_ram allocated_cpus
                    allocated_disk sockets cores threads_per_core) "Failed to create the VM." ;;
  log INFO ("Successfully created VM with name: " ++ vm_name).

Definition main : M unit :=
  log INFO "Starting the main sequence of the script." ;;
  log INFO "Prompting for ISO choice." ;;
  '(provided_win_iso, _, _, user_choice) <- prompt_for_iso_choice ;;
  log INFO "Installing required packages." ;;
  install_packages REQUIRED_PACKAGES ;;
  log INFO "Handling user's ISO choice." ;;
  final_win_iso_path <- dispatch_choice user_choice provided_win_iso ;;
  setup_libvirt ;;
  create_vm "MyVM" final_win_iso_path.

(** How the interpreter ends: an uncaught exception exits with status 1. *)
Definition exit_status {A} (r : outcome A) : Z :=
  match r with
  | Ok _ => 0
  | Raise _ => 1
  | Exit c => c
  end.

(** ** A concrete machine, for running the script on examples *)

Definition demo_dirs (n : nat) : tempdirs :=
  let k := zstr (Z.of_nat n) in
  mkTempdirs ("/tmp/tmp" ++ k) ("/tmp/wim" ++ k) ("/tmp/drivers" ++ k)
    ("/tmp/windows" ++ k) ("/tmp/virtio_mnt" ++ k) ("/tmp/windows_mnt" ++ k).

Definition demo_virtio_url : string :=
  "https://fedorapeople.org/groups/virt/virtio-win/direct-downloads/archive-virtio/virtio-win-0.1.262.iso".

Definition demo_lscpu : string :=
  "Thread(s) per core:  2" ++ nl ++ "Socket(s):           1" ++ nl ++ "NUMA node(s):        1" ++ nl.

Definition demo_images (key : string) : list (string * string) :=
  if String.eqb key "virtio-win-0.1.262.iso" then [("viostor/w10/amd64/viostor.inf", "driver")]
  else if String.eqb key "/home/alice/win10.iso" then
    [("setup.exe", "setup"); ("sources/boot.wim", "wim")]
  else if contains "boot.wim:" key then [("Windows/System32/winload.efi", "boot")]
  else [].

(** Commands for which [failing] holds exit with status 1, the others with 0;
    [copy_fail] says what [shutil.copytree] raises. *)
Definition demo_env (failing : list string -> bool)
  (copy_fail : string -> string -> option pyexn) : env :=
  mkEnv (fun _ cmd => if failing cmd then 1%Z else 0%Z)
    (fun _ => "error")
    (fun cmd => match cmd with ["lscpu"] => demo_lscpu | _ => demo_virtio_url end)
    demo_images copy_fail (fun _ => false) demo_dirs "alice" "/home/alice"
    (fun _ => Some "data") (Some "iso") (Some 8192000%Z) 4%Z (inr (100 * 1024 * 1024 * 1024)%Z).

Definition no_failure (cmd : list string) : bool := false.
Definition no_copy_fault (src dest : string) : option pyexn := None.

Definition demo_world (fs : list (string * string)) (typed : list string) : world :=
  mkWorld fs (tempdir_list (demo_dirs 0)) [] [] [] typed [] (demo_dirs 0) 1 [].

Definition demo_libvirtd_conf : string :=
  "# Master libvirt daemon configuration file" ++ nl ++
  sock_group_search ++ nl ++ sock_perms_search ++ nl.

(** [okpost m P]: every normal return of [m], from any environment and world,
    satisfies [P]. Raised exceptions and [sys.exit] are not constrained. *)
Definition okpost {A} (m : M A) (P : A -> Prop) : Prop :=
  forall e w a w', m e w = (Ok a, w') -> P a.

(** [triple e P m Q X Y]: in environment [e], from a world satisfying [P],
    [m] returns [a] in a world satisfying [Q a], raises [x] in one
    satisfying [X x], or exits with code [c] in one satisfying [Y c]. *)
Definition triple {A} (e : env) (P : world -> Prop) (m : M A)
  (Q : A -> world -> Prop) (X : pyexn -> world -> Prop) (Y : Z -> world -> Prop) : Prop :=
  forall w, P w ->
    match m e w with
    | (Ok a, w') => Q a w'
    | (Raise x, w') => X x w'
    | (Exit c, w') => Y c w'
    end.

(** The mount table, the temporary directories and the method-local
    variables of a world. *)
Definition mt (w : world) : list (string * list (string * string)) * tempdirs * list (string * list string) :=
  (mounts w, tmp w, locals w).

(** [m] leaves them as they are, whatever the outcome. *)
Definition mt_pure {A} (m : M A) : Prop := forall e w, mt (snd (m e w)) = mt w.

(** The method-local list [mounted_isos] of [create_custom_iso] only names
    temporary directories of [T0]. *)
Definition mounted_isos_ok (T0 : tempdirs) (Lx : list (string * list string)) : Prop :=
  Forall (fun d => In d (tempdir_list T0))
    (match lookup "mounted_isos" Lx with Some v => v | None => [] end).

(** What [create_custom_iso] keeps between its steps: the mount table [M0]
    and the directories [T0] it started with. *)
Definition iso_flow_inv (M0 : list (string * list (string * string))) (T0 : tempdirs) (w : world) : Prop :=
  exists Lx, mt w = (M0, T0, Lx) /\ mounted_isos_ok T0 Lx.

Definition any_post {B} : B -> world -> Prop := fun _ _ => True.

(** No temporary directory of the world is a mount point. *)
Definition no_temp_mounted (w : world) : Prop :=
  Forall (fun d => ismount_w d w = false) (tempdir_list (tmp w)).

(** [wimunmount] fails; every other command succeeds. *)
Definition wim_unmount_fails (cmd : list string) : bool :=
  match cmd with "sudo" :: "wimunmount" :: _ => true | _ => false end.

(** Commands whose exit status the script deliberately does not treat as
    fatal: [dpkg-query] (its status selects the apt branch) and
    [wimmountrw] (its [CalledProcessError] is logged and swallowed by
    [mount_wim]). *)
Definition unchecked_cmd (cmd : list string) : bool :=
  match cmd with
  | "dpkg-query" :: _ => true
  | "sudo" :: "wimmountrw" :: _ => true
  | _ => false
  end.

(** [checked_ok e new old]: in the commands [new] (newest first) run after
    the history [old], each command other than the unchecked ones exited
    with status 0. *)
Fixpoint checked_ok (e : env) (new old : list (list string)) : Prop :=
  match new with
  | [] => True
  | cmd :: rest =>
      (unchecked_cmd cmd = true \/ status e (rest ++ old)%list cmd = 0%Z) /\ checked_ok e rest old
  end.

(** The commands run since [w0] extend its trace and pass [checked_ok]. *)
Definition trace_ok (e : env) (w0 w : world) : Prop :=
  exists new, trace w = (new ++ trace w0)%list /\ checked_ok e new (trace w0).

(** [m] runs no external command, whatever the outcome. *)
Definition tr_pure {A} (m : M A) : Prop := forall e w, trace (snd (m e w)) = trace w.

(** Every [sys.exit] that [m] reaches passes status 1. *)
Definition exits_one {A} (m : M A) : Prop :=
  forall e w c w', m e w = (Exit c, w') -> c = 1%Z.

(** A normal return of [m], from a world whose commands since [w0] passed
    [checked_ok], leaves a world where they still do. *)
Definition gtriple {A} (e : env) (w0 : world) (m : M A) : Prop :=
  triple e (trace_ok e w0) m (fun _ => trace_ok e w0) any_post any_post.

(** A host where the script can run to the end. *)
Definition demo_qemu_conf : string :=
  "#user = " ++ quoted "root" ++ nl ++ "#group = " ++ quoted "root" ++ nl.

Definition demo_os_release : string := "NAME=" ++ quoted "Ubuntu" ++ nl ++ "ID=ubuntu" ++ nl.

Definition demo_host_files : list (string * string) :=
  [("/home/alice/win10.iso", "iso"); ("/etc/libvirt/libvirtd.conf", demo_libvirtd_conf);
   ("/etc/libvirt/qemu.conf", demo_qemu_conf); ("/etc/os-release", demo_os_release);
   ("/usr/share/OVMF/OVMF_CODE_4M.fd", "fw")].

(** Every [dpkg-query] exits with status 1 (no package installed yet). *)
Definition dpkg_fails (cmd : list string) : bool :=
  match cmd with "dpkg-query" :: _ => true | _ => false end.

(** [wimmountrw] exits with status 1. *)
Definition wim_mount_fails (cmd : list string) : bool :=
  match cmd with "sudo" :: "wimmountrw" :: _ => true | _ => false end.


(** ** Methods [main] does not call *)

Definition MIN_REQUIRED_SPACE_GB : Z := 7.

(** [check_disk_space(directory)]: [statvfs] gives, for a directory, the
    [OSError] that [os.statvfs] raises or [f_frsize * f_bavail]. *)
Definition check_disk_space (statvfs : string -> pyexn + Z) (directory : string) : M unit :=
  try_except
    (match statvfs directory with
     | inl x => raise x
     | inr available_space =>
         let min_required_space := (MIN_REQUIRED_SPACE_GB * 1024 * 1024 * 1024)%Z in
         if Z.ltb available_space min_required_space then
           fail ("Not enough disk space. Please clear at least " ++ zstr MIN_REQUIRED_SPACE_GB
                 ++ "GB.") None
         else ret tt
     end)
    any_exception
    (fun x => fail ("Failed to check disk space. Error: " ++ exn_str x) None).

Definition validate_uefi_path : M unit :=
  UEFI_PATH <- get_uefi_path ;;
  ok <- isfile UEFI_PATH ;;
  if negb ok then fail ("UEFI firmware not found at specified path: " ++ UEFI_PATH) None
  else ret tt.

Definition allocate_resources : M (Z * Z * Z) :=
  '(available_ram_mb, available_cpus, available_disk_gb) <- resource_assessment ;;
  auto_allocate <- auto_or_manual_config ;;
  if String.eqb (lower auto_allocate) "y"
  then auto_allocation available_ram_mb available_cpus available_disk_gb
  else manual_allocation available_ram_mb available_cpus available_disk_gb.

Definition validate_resource_allocation (allocated_ram allocated_cpus allocated_disk : Z)
  : M unit :=
  '(available_ram_mb, available_cpus, available_disk_gb) <- resource_assessment ;;
  if (Z.ltb available_ram_mb allocated_ram) || (Z.ltb available_cpus allocated_cpus)
     || (Z.ltb available_disk_gb allocated_disk)
  then fail "Invalid resource allocation." None
  else ret tt.

Definition enable_default_network_for_virsh : M unit :=
  run_subprocess ["sudo"; "virsh"; "net-autostart"; "default"]
    "Failed to enable the default network for virsh.".

(** ** Observations and instances for the properties below *)

(** Whether a call ended by raising an exception. *)
Definition raised {A} (o : outcome A) : bool :=
  match o with Raise _ => true | _ => false end.

(** Environments that differ from [e] only in what [urlretrieve] fetches,
    or only in the ISO Mido.sh leaves. *)
Definition with_url_content (u : string -> option string) (e : env) : env :=
  mkEnv (status e) (stderr_of e) (stdout_of e) (image_files e) (copy_fault e) (unreadable e)
    (fresh e) (user e) (home e) u (mido_iso e) (meminfo_available_kb e) (cpu_count e)
    (statvfs_images e).

Definition with_mido_iso (m : option string) (e : env) : env :=
  mkEnv (status e) (stderr_of e) (stdout_of e) (image_files e) (copy_fault e) (unreadable e)
    (fresh e) (user e) (home e) (url_content e) m (meminfo_available_kb e) (cpu_count e)
    (statvfs_images e).

(** [m] leaves the files of the world as they are, whatever the outcome. *)
Definition keeps_files {A} (m : M A) : Prop :=
  forall e w r w', m e w = (r, w') -> files w' = files w.

(** * Properties *)

(** ** The monad *)

Lemma bind_ok {A B} (m : M A) (k : A -> M B) e w a w1 :
  m e w = (Ok a, w1) -> bind m k e w = k a e w1.
Proof. intros H. unfold bind. rewrite H. reflexivity. Qed.

Lemma bind_raise {A B} (m : M A) (k : A -> M B) e w x w1 :
  m e w = (Raise x, w1) -> bind m k e w = (Raise x, w1).
Proof. intros H. unfold bind. rewrite H. reflexivity. Qed.

Lemma bind_exit {A B} (m : M A) (k : A -> M B) e w c w1 :
  m e w = (Exit c, w1) -> bind m k e w = (Exit c, w1).
Proof. intros H. unfold bind. rewrite H. reflexivity. Qed.

(** ** Allocation *)

(** C1: [validate_allocation] ends the process with status 1 exactly when
    some allocated quantity exceeds the available one; when all three are
    within bounds it returns normally and changes nothing. *)
Theorem validate_allocation_fatal_iff_exceeds :
  forall (ar ac ad r c d : Z) (e : env) (w : world),
    (fst (validate_allocation ar ac ad r c d e w) = Exit 1 <-> (ar > r \/ ac > c \/ ad > d)%Z) /\
    (validate_allocation ar ac ad r c d e w = (Ok tt, w) <-> (ar <= r /\ ac <= c /\ ad <= d)%Z).
Proof.
  intros ar ac ad r c d e w. unfold validate_allocation.
  destruct (Z.ltb_spec r ar), (Z.ltb_spec c ac), (Z.ltb_spec d ad); cbn;
    split; split; intros Hc; try discriminate; try lia; try reflexivity.
Qed.

(** C2: automatic allocation returns the floor halves ([//] on Python ints is
    floor division, as [Z.div]) of the three available quantities; with
    8000 MB, 4 CPUs and 100 GB it returns 4000 MB, 2 CPUs and 50 GB. *)
Theorem auto_allocation_halves :
  forall (r c d : Z) (e : env) (w : world),
    fst (auto_allocation r c d e w) = Ok (r / 2, c / 2, d / 2)%Z /\
    fst (auto_allocation 8000 4 100 e w) = Ok (4000, 2, 50)%Z.
Proof.
  intros r c d e w. split; reflexivity.
Qed.

(** ** Unmounting *)

Lemma unmount_unmounted :
  forall p e w, ismount_w p w = false ->
    unmount p e w = (Ok tt, set_logs ((WARNING, p ++ " is not mounted.") :: logs w) w).
Proof.
  intros p e w H. unfold unmount, bind, is_mounted, ismount. rewrite H. reflexivity.
Qed.

(** C7: [unmount] on a path that is not a mount point logs a warning and
    returns normally; no command is run and nothing else in the world
    changes. *)
Theorem unmount_not_mounted_is_noop :
  forall (p : string) (e : env) (w : world),
    ismount_w p w = false ->
    unmount p e w = (Ok tt, set_logs ((WARNING, p ++ " is not mounted.") :: logs w) w).
Proof. exact unmount_unmounted. Qed.

(** ** UEFI firmware *)

Lemma get_uefi_path_unfold :
  forall e w text,
    lookup "/etc/os-release" (files w) = Some text ->
    get_uefi_path e w =
      match os_release_id text with
      | None => (Raise (AttributeError "'NoneType' object has no attribute 'group'"), w)
      | Some d =>
          if str_in d SUPPORTED_DISTROS then (Ok OVMF_PATH, w)
          else fail "Unsupported Linux distribution for UEFI firmware." None e w
      end.
Proof.
  intros e w text H. unfold get_uefi_path, bind, read_file. rewrite H.
  destruct (os_release_id text); [destruct (str_in _ _)|]; reflexivity.
Qed.

Lemma str_in_In : forall s l, str_in s l = true <-> In s l.
Proof.
  intros s l. unfold str_in. rewrite existsb_exists. split.
  - intros [x [Hx Heq]]. apply String.eqb_eq in Heq. subst. exact Hx.
  - intros Hin. exists s. split; [exact Hin | apply String.eqb_refl].
Qed.

(** C9: the firmware path comes from the ID= line of /etc/os-release: for
    ubuntu, pop, debian and linuxmint it is /usr/share/OVMF/OVMF_CODE_4M.fd,
    any other identifier ends the process with status 1, and [create_vm]
    with a supported identifier whose firmware file is absent ends the
    process with status 1 before running any command. *)
Theorem uefi_path_resolution :
  forall (e : env) (w : world) (text d vm_name iso_path : string),
    lookup "/etc/os-release" (files w) = Some text ->
    os_release_id text = Some d ->
    (In d ["ubuntu"; "pop"; "debian"; "linuxmint"] ->
       get_uefi_path e w = (Ok "/usr/share/OVMF/OVMF_CODE_4M.fd", w)) /\
    (~ In d ["ubuntu"; "pop"; "debian"; "linuxmint"] ->
       fst (get_uefi_path e w) = Exit 1) /\
    (In d ["ubuntu"; "pop"; "debian"; "linuxmint"] ->
       lookup "/usr/share/OVMF/OVMF_CODE_4M.fd" (files w) = None ->
       fst (create_vm vm_name iso_path e w) = Exit 1 /\
       trace (snd (create_vm vm_name iso_path e w)) = trace w).
Proof.
  intros e w text d vm_name iso_path Hf Hid.
  assert (Hu := get_uefi_path_unfold e w text Hf). rewrite Hid in Hu.
  split; [|split].
  - intros Hin. rewrite Hu. apply str_in_In in Hin. unfold SUPPORTED_DISTROS.
    rewrite Hin. reflexivity.
  - intros Hnin. rewrite Hu.
    destruct (str_in d SUPPORTED_DISTROS) eqn:E.
    + apply str_in_In in E. contradiction.
    + reflexivity.
  - intros Hin Hfw. apply str_in_In in Hin.
    set (w1 := set_logs ((INFO, "Attempting to create VM with name: " ++ vm_name
                          ++ ", iso_path: " ++ iso_path) :: logs w) w).
    assert (Hu1 : get_uefi_path e w1 = (Ok OVMF_PATH, w1)).
    { rewrite (get_uefi_path_unfold e w1 text Hf), Hid. unfold SUPPORTED_DISTROS.
      rewrite Hin. reflexivity. }
    assert (Hi : isfile OVMF_PATH e w1 = (Ok false, w1)).
    { unfold isfile. cbn [files w1 set_logs]. unfold OVMF_PATH. rewrite Hfw. reflexivity. }
    unfold create_vm. cbn [bind log modify]. fold w1.
    rewrite (bind_ok _ _ _ _ _ _ Hu1), (bind_ok _ _ _ _ _ _ Hi).
    split; reflexivity.
Qed.

Lemma unmount_not_mounted_is_noop_witness :
  ismount_w "/tmp/virtio_mnt0" (demo_world [] []) = false /\
  unmount "/tmp/virtio_mnt0" (demo_env no_failure no_copy_fault) (demo_world [] []) =
    (Ok tt, set_logs ((WARNING, "/tmp/virtio_mnt0" ++ " is not mounted.")
                       :: logs (demo_world [] [])) (demo_world [] [])).
Proof.
  split; [reflexivity|].
  apply (unmount_not_mounted_is_noop "/tmp/virtio_mnt0"). reflexivity.
Defined.

Lemma uefi_path_resolution_witness :
  let w := demo_world [("/etc/os-release", "NAME=" ++ quoted "Ubuntu" ++ nl ++ "ID=ubuntu" ++ nl)] [] in
  lookup "/etc/os-release" (files w) = Some ("NAME=" ++ quoted "Ubuntu" ++ nl ++ "ID=ubuntu" ++ nl) /\
  os_release_id ("NAME=" ++ quoted "Ubuntu" ++ nl ++ "ID=ubuntu" ++ nl) = Some "ubuntu" /\
  fst (create_vm "MyVM" "win10.iso" (demo_env no_failure no_copy_fault) w) = Exit 1.
Proof.
  intros w. split; [reflexivity|]. split; [reflexivity|].
  destruct (uefi_path_resolution (demo_env no_failure no_copy_fault) w
              ("NAME=" ++ quoted "Ubuntu" ++ nl ++ "ID=ubuntu" ++ nl) "ubuntu" "MyVM" "win10.iso"
              eq_refl eq_refl) as [_ [_ H3]].
  apply H3; [cbn; auto | reflexivity].
Defined.

(** ** Configuration backups *)

(** C4 (failing input): the backup copy is run without a status check.  With
    no backup yet and [sudo cp] exiting with status 1, the libvirt step logs
    "Backup of ... created.", rewrites libvirtd.conf through [sudo tee] and
    returns normally, with no backup file on disk. *)
Theorem libvirt_config_edited_after_failed_backup :
  let e := demo_env (fun cmd => match cmd with "sudo" :: "cp" :: _ => true | _ => false end)
             no_copy_fault in
  let w := demo_world [(LIBVIRT_CONFIG_PATH, demo_libvirtd_conf)] [] in
  let (r, w') := modify_and_backup_libvirt_config e w in
  r = Ok tt /\
  lookup (LIBVIRT_CONFIG_PATH ++ ".backup") (files w') = None /\
  In (INFO, "Backup of /etc/libvirt/libvirtd.conf created.") (logs w') /\
  lookup LIBVIRT_CONFIG_PATH (files w') =
    Some ("# Master libvirt daemon configuration file" ++ nl ++
          sock_group_replace ++ nl ++ sock_perms_replace ++ nl ++ additional_settings).
Proof.
  vm_compute. repeat split; auto 20.
Qed.

(** ** Patching configuration files *)

Lemma sudo_cat_read_ok :
  forall p e w, status e (trace w) ["sudo"; "cat"; p] = 0%Z ->
    sudo_cat_read p e w =
      (Ok (file_or_empty p w), set_trace (["sudo"; "cat"; p] :: trace w) w).
Proof.
  intros p e w H. unfold sudo_cat_read, try_except, try_excepts, run_checked, bind, sp_run.
  rewrite H. reflexivity.
Qed.

Lemma cmd_effect_tee :
  forall e p c w, cmd_effect e ["sudo"; "tee"; p] c w = (set_files (assign p c (files w)) w, c).
Proof.
  intros e p c w. unfold cmd_effect.
  repeat match goal with
         | |- context [match ?x with _ => _ end] => is_var x; destruct x
         | |- context [match ?x with _ => _ end] =>
             match x with Ascii _ _ _ _ _ _ _ _ => destruct x end
         end; reflexivity.
Qed.

Lemma sudo_tee_write_ok :
  forall p c e w, status e (trace w) ["sudo"; "tee"; p] = 0%Z ->
    sudo_tee_write p c e w =
      (Ok tt, set_files (assign p c (files w)) (set_trace (["sudo"; "tee"; p] :: trace w) w)).
Proof.
  intros p c e w H. unfold sudo_tee_write, try_except, try_excepts, run_checked, bind, sp_run.
  rewrite H. cbn [Z.eqb]. rewrite cmd_effect_tee. reflexivity.
Qed.

(** C6 (counterexample): a libvirtd.conf with the directive commented twice.
    The first pass turns "##unix_sock_group..." into "#unix_sock_group...",
    so the second pass finds the search string again and rewrites the file a
    second time instead of leaving it unchanged. *)
Lemma modify_config_second_pass_edits_again :
  let e := demo_env no_failure no_copy_fault in
  let w0 := demo_world [(LIBVIRT_CONFIG_PATH, "#" ++ sock_group_search ++ nl)] [] in
  let (r1, w1) := modify_config LIBVIRT_CONFIG_PATH sock_group_search sock_group_replace e w0 in
  let (r2, w2) := modify_config LIBVIRT_CONFIG_PATH sock_group_search sock_group_replace e w1 in
  r1 = Ok tt /\ r2 = Ok tt /\
  lookup LIBVIRT_CONFIG_PATH (files w1) = Some (sock_group_search ++ nl) /\
  lookup LIBVIRT_CONFIG_PATH (files w2) = Some (sock_group_replace ++ nl) /\
  hd (DEBUG, "") (logs w2) = (INFO, "Modified /etc/libvirt/libvirtd.conf.").
Proof.
  vm_compute. repeat split.
Qed.

Lemma lookup_assign_same :
  forall {A} k (v : A) l, lookup k (assign k v l) = Some v.
Proof. intros A k v l. unfold assign. cbn. rewrite String.eqb_refl. reflexivity. Qed.

(** C6 (amended): when the elevated read and write succeed, a first pass over
    a file containing the search string writes [filedata.replace(search,
    replace)] and logs "Modified ..."; if the search string no longer occurs
    in that patched content, a second pass returns normally, leaves every
    file unchanged and logs the "Search string ... not found" warning. *)
Theorem modify_config_patch_then_skip :
  forall path search repl c e w,
    (forall h, status e h ["sudo"; "cat"; path] = 0%Z) ->
    (forall h, status e h ["sudo"; "tee"; path] = 0%Z) ->
    lookup path (files w) = Some c ->
    contains search c = true ->
    let (r1, w1) := modify_config path search repl e w in
    r1 = Ok tt /\
    lookup path (files w1) = Some (py_replace c search repl) /\
    logs w1 = (INFO, "Modified " ++ path ++ ".") :: logs w /\
    (contains search (py_replace c search repl) = false ->
     let (r2, w2) := modify_config path search repl e w1 in
     r2 = Ok tt /\ files w2 = files w1 /\
     logs w2 = (WARNING, "Search string '" ++ search ++ "' not found in " ++ path) :: logs w1).
Proof.
  intros path search repl c e w Hcat Htee Hf Hc.
  unfold modify_config at 1, try_except, try_excepts at 1.
  rewrite (bind_ok _ _ _ _ _ _ (sudo_cat_read_ok path e w (Hcat _))).
  assert (Hfe : file_or_empty path w = c) by (unfold file_or_empty; rewrite Hf; reflexivity).
  rewrite Hfe, Hc.
  rewrite (bind_ok _ _ _ _ _ _ (sudo_tee_write_ok _ _ _ _ (Htee _))).
  cbn [log modify files logs set_logs set_files set_trace].
  split; [reflexivity|]. split; [apply lookup_assign_same|]. split; [reflexivity|].
  intros Hc2.
  unfold modify_config, try_except, try_excepts.
  rewrite (bind_ok _ _ _ _ _ _ (sudo_cat_read_ok _ _ _ (Hcat _))).
  unfold file_or_empty at 1.
  cbn [files set_logs set_files set_trace]. rewrite lookup_assign_same, Hc2.
  cbn. exact (conj eq_refl (conj eq_refl eq_refl)).
Qed.

Lemma modify_config_patch_then_skip_witness :
  let e := demo_env no_failure no_copy_fault in
  let w := demo_world [(LIBVIRT_CONFIG_PATH, demo_libvirtd_conf)] [] in
  (forall h, status e h ["sudo"; "cat"; LIBVIRT_CONFIG_PATH] = 0%Z) /\
  (forall h, status e h ["sudo"; "tee"; LIBVIRT_CONFIG_PATH] = 0%Z) /\
  lookup LIBVIRT_CONFIG_PATH (files w) = Some demo_libvirtd_conf /\
  contains sock_group_search demo_libvirtd_conf = true /\
  contains sock_group_search (py_replace demo_libvirtd_conf sock_group_search sock_group_replace) = false /\
  (let (r1, w1) := modify_config LIBVIRT_CONFIG_PATH sock_group_search sock_group_replace e w in
   r1 = Ok tt /\
   lookup LIBVIRT_CONFIG_PATH (files w1) =
     Some (py_replace demo_libvirtd_conf sock_group_search sock_group_replace) /\
   logs w1 = (INFO, "Modified " ++ LIBVIRT_CONFIG_PATH ++ ".") :: logs w /\
   (contains sock_group_search (py_replace demo_libvirtd_conf sock_group_search sock_group_replace) = false ->
    let (r2, w2) := modify_config LIBVIRT_CONFIG_PATH sock_group_search sock_group_replace e w1 in
    r2 = Ok tt /\ files w2 = files w1 /\
    logs w2 = (WARNING, "Search string '" ++ sock_group_search ++ "' not found in "
                        ++ LIBVIRT_CONFIG_PATH) :: logs w1)).
Proof.
  intros e w.
  split; [intros h; reflexivity|]. split; [intros h; reflexivity|].
  split; [reflexivity|]. split; [vm_compute; reflexivity|]. split; [vm_compute; reflexivity|].
  apply (modify_config_patch_then_skip LIBVIRT_CONFIG_PATH sock_group_search sock_group_replace
           demo_libvirtd_conf e w); [intros h; reflexivity | intros h; reflexivity | reflexivity |
                                      vm_compute; reflexivity].
Defined.

(** ** Normal returns *)

Section Okpost.
Context {A B : Type}.

Lemma okpost_ret (a : A) (P : A -> Prop) : P a -> okpost (ret a) P.
Proof. intros HP e w a' w' H. injection H as <- _. exact HP. Qed.

Lemma okpost_raise (x : pyexn) (P : A -> Prop) : okpost (raise x) P.
Proof. intros e w a w' H. discriminate H. Qed.

Lemma okpost_fail msg exc (P : A -> Prop) : okpost (fail msg exc) P.
Proof. intros e w a w' H. unfold fail, bind in H. destruct exc; discriminate H. Qed.

Lemma okpost_bind_dep (m : M A) (k : A -> M B) (Q : A -> Prop) (P : B -> Prop) :
  okpost m Q -> (forall a, Q a -> okpost (k a) P) -> okpost (bind m k) P.
Proof.
  intros Hm Hk e w b w' H. unfold bind in H.
  destruct (m e w) as [[a|x|c] w1] eqn:E; try discriminate H.
  exact (Hk a (Hm e w a w1 E) e w1 b w' H).
Qed.

Lemma okpost_bind (m : M A) (k : A -> M B) (P : B -> Prop) :
  (forall a, okpost (k a) P) -> okpost (bind m k) P.
Proof.
  intros Hk. apply (okpost_bind_dep m k (fun _ => True)).
  - intros e w a w' _. exact I.
  - intros a _. apply Hk.
Qed.

Lemma okpost_dispatch (cls : list ((pyexn -> bool) * (pyexn -> M A))) x (P : A -> Prop) :
  Forall (fun ch => forall y, okpost (snd ch y) P) cls -> okpost (dispatch cls x) P.
Proof.
  induction 1 as [|[c h] cls Hh _ IH]; cbn.
  - apply okpost_raise.
  - destruct (c x); [apply Hh | exact IH].
Qed.

Lemma okpost_try_excepts (m : M A) cls (P : A -> Prop) :
  okpost m P -> Forall (fun ch => forall y, okpost (snd ch y) P) cls ->
  okpost (try_excepts m cls) P.
Proof.
  intros Hm Hcls e w a w' H. unfold try_excepts in H.
  destruct (m e w) as [[a0|x|c] w1] eqn:E.
  - injection H as -> _. exact (Hm e w a w1 E).
  - exact (okpost_dispatch cls x P Hcls e w1 a w' H).
  - discriminate H.
Qed.

Lemma okpost_try_except (m : M A) c h (P : A -> Prop) :
  okpost m P -> (forall y, okpost (h y) P) -> okpost (try_except m c h) P.
Proof.
  intros Hm Hh. apply okpost_try_excepts; [exact Hm|].
  constructor; [exact Hh | constructor].
Qed.

Lemma okpost_try_finally (m : M A) fin (P : A -> Prop) :
  okpost m P -> okpost (try_finally m fin) P.
Proof.
  intros Hm e w a w' H. unfold try_finally in H.
  destruct (m e w) as [r w1] eqn:E.
  destruct (fin e w1) as [[u|x|c] w2]; try discriminate H.
  injection H as -> _. exact (Hm e w a w1 E).
Qed.

End Okpost.

(** Walk a program made of [bind], [try]/[except]/[finally], [fail] and
    [ret], proving that its normal returns satisfy the goal's predicate. *)
Ltac okpost_step :=
  first
    [ apply okpost_fail
    | apply okpost_raise
    | apply okpost_ret; reflexivity
    | apply okpost_try_finally
    | apply okpost_try_except; [| intros ?]
    | apply okpost_bind; intros ? ].

Lemma generate_custom_iso_ok :
  okpost generate_custom_iso (fun r => r = "CustomWin10.iso").
Proof. unfold generate_custom_iso. repeat okpost_step. Qed.

Lemma create_custom_iso_ok :
  forall win virtio, okpost (create_custom_iso win virtio) (fun r => r = "CustomWin10.iso").
Proof.
  intros win virtio. unfold create_custom_iso.
  apply okpost_bind; intros _. apply okpost_try_finally. apply okpost_try_except.
  - repeat (apply okpost_bind; intros ?). apply okpost_ret; reflexivity.
  - intros y. apply okpost_fail.
Qed.

(** ** ISO selection *)

(** C5: mode "1" returns the path it was given, unchanged and without
    touching the machine; every normal return of modes "2" and "3" is the
    single path "CustomWin10.iso" of the generated image. *)
Theorem iso_modes_return_path :
  (forall p e w, dispatch_choice "1" p e w = (Ok p, w)) /\
  (forall p, okpost (dispatch_choice "2" p) (fun r => r = "CustomWin10.iso")) /\
  (forall p, okpost (dispatch_choice "3" p) (fun r => r = "CustomWin10.iso")).
Proof.
  split; [reflexivity|]. split.
  - intros p. cbn [dispatch_choice String.eqb Ascii.eqb Bool.eqb andb].
    unfold create_iso_with_virtio_from_user_iso.
    apply okpost_bind; intros _. apply okpost_bind; intros _.
    apply okpost_try_except; [| intros y; apply okpost_fail].
    apply okpost_bind; intros u. apply okpost_bind; intros _. apply create_custom_iso_ok.
  - intros p. cbn [dispatch_choice String.eqb Ascii.eqb Bool.eqb andb].
    unfold handle_downloaded_iso.
    repeat first
      [ apply (okpost_bind_dep (create_custom_iso _ _) _ (fun r => r = "CustomWin10.iso"));
        [apply create_custom_iso_ok | intros ? ?]
      | apply okpost_bind; intros ? ].
    apply okpost_ret. assumption.
Qed.

Lemma choice_round_ok :
  okpost choice_round
    (fun r => match r with Some c => str_in c ["1"; "2"; "3"] = true | None => True end).
Proof.
  unfold choice_round. apply okpost_try_except.
  - apply (okpost_bind_dep _ _ (fun _ => True)); [intros e w a w' _; exact I|].
    intros c _. destruct (str_in c ["1"; "2"; "3"]) eqn:E.
    + apply okpost_ret. exact E.
    + apply okpost_raise.
  - intros y. apply okpost_bind; intros _. apply okpost_ret. exact I.
Qed.

Lemma choice_loop_ok :
  forall n, okpost (choice_loop n) (fun c => str_in c ["1"; "2"; "3"] = true).
Proof.
  induction n as [|n IH]; cbn [choice_loop].
  - apply okpost_raise.
  - apply (okpost_bind_dep _ _ _ _ choice_round_ok).
    intros [c|] Hc; [apply okpost_ret; exact Hc | exact IH].
Qed.

Lemma choice_round_invalid :
  forall s rest e w, stdin w = s :: rest -> str_in s ["1"; "2"; "3"] = false ->
    exists w2, choice_round e w = (Ok None, w2) /\ stdin w2 = rest.
Proof.
  intros s rest e w Hin Hs.
  unfold choice_round, try_except, try_excepts, bind, input. rewrite Hin.
  cbv beta iota. rewrite Hs. cbn. eexists. split; reflexivity.
Qed.

Lemma choice_round_valid :
  forall s rest e w, stdin w = s :: rest -> str_in s ["1"; "2"; "3"] = true ->
    exists w2, choice_round e w = (Ok (Some s), w2).
Proof.
  intros s rest e w Hin Hs.
  unfold choice_round, try_except, try_excepts, bind, input. rewrite Hin.
  cbv beta iota. rewrite Hs. cbn. eexists. reflexivity.
Qed.

Lemma choice_loop_skips_invalid :
  forall bad good rest n e w,
    stdin w = (bad ++ good :: rest)%list ->
    Forall (fun s => str_in s ["1"; "2"; "3"] = false) bad ->
    str_in good ["1"; "2"; "3"] = true ->
    (length bad < n)%nat ->
    fst (choice_loop n e w) = Ok good.
Proof.
  induction bad as [|b bad IH]; intros good rest n e w Hin Hbad Hgood Hn;
    (destruct n as [|n]; [cbn in Hn; lia|]); cbn [choice_loop].
  - destruct (choice_round_valid good rest e w Hin Hgood) as [w2 H2].
    unfold bind. rewrite H2. reflexivity.
  - inversion Hbad as [|? ? Hb Hbad']; subst.
    destruct (choice_round_invalid b (bad ++ good :: rest)%list e w Hin Hb) as [w2 [H2 Hs2]].
    unfold bind. rewrite H2.
    apply (IH good rest n e w2 Hs2 Hbad' Hgood). cbn in Hn. lia.
Qed.

(** C10: the menu loop re-prompts past every line outside {"1", "2", "3"}
    and stops at the first line inside it; so a normal return of the prompt
    carries a choice in {"1", "2", "3"}, and the dispatch in [main] then runs
    one of the three ISO handlers, never the "Invalid choice." exit. *)
Theorem prompt_choice_in_menu :
  (forall bad good rest e w,
     stdin w = (bad ++ good :: rest)%list ->
     Forall (fun s => str_in s ["1"; "2"; "3"] = false) bad ->
     str_in good ["1"; "2"; "3"] = true ->
     fst (choice_loop (S (length (stdin w))) e w) = Ok good) /\
  (forall e w iso skip download c w',
     prompt_for_iso_choice e w = (Ok (iso, skip, download, c), w') ->
     (c = "1" \/ c = "2" \/ c = "3") /\
     forall p,
       dispatch_choice c p = handle_user_provided_iso p \/
       dispatch_choice c p = create_iso_with_virtio_from_user_iso p \/
       dispatch_choice c p = handle_downloaded_iso).
Proof.
  split.
  - intros bad good rest e w Hin Hbad Hgood.
    apply (choice_loop_skips_invalid bad good rest _ e w Hin Hbad Hgood).
    rewrite Hin, length_app. cbn. lia.
  - intros e w iso skip download c w' H.
    assert (Hc : str_in c ["1"; "2"; "3"] = true).
    { assert (Hok : okpost prompt_for_iso_choice (fun r => str_in (snd r) ["1"; "2"; "3"] = true)).
      2: exact (Hok e w (iso, skip, download, c) w' H).
      unfold prompt_for_iso_choice.
      apply okpost_bind; intros _. apply okpost_bind; intros w0.
      apply (okpost_bind_dep _ _ _ _ (choice_loop_ok _)). intros c0 Hc0.
      apply okpost_bind; intros iso_ref. apply okpost_ret. exact Hc0. }
    apply str_in_In in Hc. cbn in Hc.
    destruct Hc as [<-|[<-|[<-|[]]]].
    + split; [auto|]. intros p. left. reflexivity.
    + split; [auto|]. intros p. right; left. reflexivity.
    + split; [auto|]. intros p. right; right. reflexivity.
Qed.

Lemma prompt_choice_in_menu_witness :
  let w := demo_world [("/home/alice/win10.iso", "iso")] ["4"; "abc"; "2"; "~/win10.iso"] in
  let e := demo_env no_failure no_copy_fault in
  stdin w = (["4"; "abc"] ++ "2" :: ["~/win10.iso"])%list /\
  Forall (fun s => str_in s ["1"; "2"; "3"] = false) ["4"; "abc"] /\
  str_in "2" ["1"; "2"; "3"] = true /\
  fst (choice_loop (S (length (stdin w))) e w) = Ok "2" /\
  prompt_for_iso_choice e w = (Ok ("/home/alice/win10.iso", "false", "false", "2"), snd (prompt_for_iso_choice e w)) /\
  ("2" = "1" \/ "2" = "2" \/ "2" = "3").
Proof.
  intros w e.
  assert (Hl : stdin w = (["4"; "abc"] ++ "2" :: ["~/win10.iso"])%list) by reflexivity.
  assert (Hb : Forall (fun s => str_in s ["1"; "2"; "3"] = false) ["4"; "abc"])
    by (repeat constructor).
  assert (Hg : str_in "2" ["1"; "2"; "3"] = true) by reflexivity.
  assert (Hp : prompt_for_iso_choice e w =
                 (Ok ("/home/alice/win10.iso", "false", "false", "2"), snd (prompt_for_iso_choice e w)))
    by (vm_compute; reflexivity).
  refine (conj Hl (conj Hb (conj Hg (conj _ (conj Hp _))))).
  - exact (proj1 prompt_choice_in_menu _ _ _ e w Hl Hb Hg).
  - exact (proj1 (proj2 prompt_choice_in_menu e w _ _ _ _ _ Hp)).
Defined.

Lemma iso_modes_return_path_witness :
  let e := demo_env no_failure no_copy_fault in
  let w := demo_world [("/home/alice/win10.iso", "iso")] [] in
  dispatch_choice "1" "/home/alice/win10.iso" e w = (Ok "/home/alice/win10.iso", w) /\
  dispatch_choice "2" "/home/alice/win10.iso" e w =
    (Ok "CustomWin10.iso", snd (dispatch_choice "2" "/home/alice/win10.iso" e w)) /\
  "CustomWin10.iso" = "CustomWin10.iso".
Proof.
  intros e w.
  assert (H2 : dispatch_choice "2" "/home/alice/win10.iso" e w =
                 (Ok "CustomWin10.iso", snd (dispatch_choice "2" "/home/alice/win10.iso" e w)))
    by (vm_compute; reflexivity).
  split; [exact (proj1 iso_modes_return_path _ e w)|]. split; [exact H2|].
  exact (proj1 (proj2 iso_modes_return_path) _ e w _ _ H2).
Defined.

(** ** Hoare triples over the monad *)

Section Triple.
Context (e : env).

Lemma triple_conseq {A} (P P' : world -> Prop) (m : M A) Q Q' X X' Y Y' :
  triple e P m Q X Y ->
  (forall w, P' w -> P w) -> (forall a w, Q a w -> Q' a w) ->
  (forall x w, X x w -> X' x w) -> (forall c w, Y c w -> Y' c w) ->
  triple e P' m Q' X' Y'.
Proof.
  intros H HP HQ HX HY w Hw. specialize (H w (HP w Hw)).
  destruct (m e w) as [[a|x|c] w']; auto.
Qed.

Lemma triple_ret {A} P (a : A) Q X Y :
  (forall w, P w -> Q a w) -> triple e P (ret a) Q X Y.
Proof. intros HQ w Hw. exact (HQ w Hw). Qed.

Lemma triple_raise {A} P x (Q : A -> world -> Prop) X Y :
  (forall w, P w -> X x w) -> triple e P (raise x) Q X Y.
Proof. intros HX w Hw. exact (HX w Hw). Qed.

Lemma triple_fail {A} P msg exc (Q : A -> world -> Prop) X Y :
  (forall w, Y 1%Z w) -> triple e P (fail msg exc) Q X Y.
Proof. intros HY w _. unfold fail, bind. destruct exc; apply HY. Qed.

Lemma triple_bind {A B} P (m : M A) (k : A -> M B) R Q X Y :
  triple e P m R X Y -> (forall a, triple e (R a) (k a) Q X Y) ->
  triple e P (bind m k) Q X Y.
Proof.
  intros Hm Hk w Hw. specialize (Hm w Hw). unfold bind.
  destruct (m e w) as [[a|x|c] w1]; auto. exact (Hk a w1 Hm).
Qed.

Lemma triple_get_world P X Y :
  triple e P get_world (fun a w => a = w /\ P w) X Y.
Proof. intros w Hw. split; [reflexivity | exact Hw]. Qed.

Lemma triple_or {A} P1 P2 (m : M A) Q X Y :
  triple e P1 m Q X Y -> triple e P2 m Q X Y ->
  triple e (fun w => P1 w \/ P2 w) m Q X Y.
Proof. intros H1 H2 w [Hw|Hw]; [exact (H1 w Hw) | exact (H2 w Hw)]. Qed.

Lemma triple_ex {A B} (P : B -> world -> Prop) (m : M A) Q X Y :
  (forall b, triple e (P b) m Q X Y) -> triple e (fun w => exists b, P b w) m Q X Y.
Proof. intros H w [b Hw]. exact (H b w Hw). Qed.

Lemma triple_try_excepts {A} P (m : M A) cls Q X1 X Y :
  triple e P m Q X1 Y -> (forall x, triple e (X1 x) (dispatch cls x) Q X Y) ->
  triple e P (try_excepts m cls) Q X Y.
Proof.
  intros Hm Hd w Hw. specialize (Hm w Hw). unfold try_excepts.
  destruct (m e w) as [[a|x|c] w1]; auto. exact (Hd x w1 Hm).
Qed.

Lemma triple_dispatch_nil {A} P x (Q : A -> world -> Prop) X Y :
  (forall w, P w -> X x w) -> triple e P (dispatch [] x) Q X Y.
Proof. intros HX w Hw. exact (HX w Hw). Qed.

Lemma triple_dispatch_cons {A} P c h cls x (Q : A -> world -> Prop) X Y :
  (c x = true -> triple e P (h x) Q X Y) ->
  (c x = false -> triple e P (dispatch cls x) Q X Y) ->
  triple e P (dispatch ((c, h) :: cls) x) Q X Y.
Proof. intros Ht Hf. cbn. destruct (c x); [exact (Ht eq_refl) | exact (Hf eq_refl)]. Qed.

Lemma triple_try_except {A} P (m : M A) c h Q X1 X Y :
  triple e P m Q X1 Y ->
  (forall x, c x = true -> triple e (X1 x) (h x) Q X Y) ->
  (forall x w, c x = false -> X1 x w -> X x w) ->
  triple e P (try_except m c h) Q X Y.
Proof.
  intros Hm Hh Hn. apply (triple_try_excepts P m _ Q X1 X Y Hm). intros x.
  apply triple_dispatch_cons; [exact (Hh x) |].
  intros Hc. apply triple_dispatch_nil. intros w. exact (Hn x w Hc).
Qed.

Lemma triple_try_finally {A} P (m : M A) fin Q1 X1 Y1 Q X Y :
  triple e P m Q1 X1 Y1 ->
  (forall a, triple e (Q1 a) fin (fun _ => Q a) X Y) ->
  (forall x, triple e (X1 x) fin (fun _ => X x) X Y) ->
  (forall c, triple e (Y1 c) fin (fun _ => Y c) X Y) ->
  triple e P (try_finally m fin) Q X Y.
Proof.
  intros Hm Hok Hx Hy w Hw. specialize (Hm w Hw). unfold try_finally.
  destruct (m e w) as [[a|x|c] w1].
  - specialize (Hok a w1 Hm). destruct (fin e w1) as [[u|x'|c'] w2]; exact Hok.
  - specialize (Hx x w1 Hm). destruct (fin e w1) as [[u|x'|c'] w2]; exact Hx.
  - specialize (Hy c w1 Hm). destruct (fin e w1) as [[u|x'|c'] w2]; exact Hy.
Qed.

Lemma triple_for_each {A} (l : list A) body I X Y :
  (forall a, In a l -> triple e I (body a) (fun _ => I) X Y) ->
  triple e I (for_each l body) (fun _ => I) X Y.
Proof.
  induction l as [|a l IH]; intros Hb; cbn [for_each].
  - apply triple_ret. auto.
  - apply (triple_bind _ _ _ (fun _ => I)); [apply Hb; left; reflexivity|].
    intros _. apply IH. intros b Hin. apply Hb. right. exact Hin.
Qed.

Lemma triple_mt_pure {A} P (m : M A) Q X Y :
  mt_pure m ->
  (forall a w w', mt w' = mt w -> P w -> Q a w') ->
  (forall x w w', mt w' = mt w -> P w -> X x w') ->
  (forall c w w', mt w' = mt w -> P w -> Y c w') ->
  triple e P m Q X Y.
Proof.
  intros Hp HQ HX HY w Hw. specialize (Hp e w).
  destruct (m e w) as [[a|x|c] w']; cbn in Hp; eauto.
Qed.

Lemma triple_run_checked P cmd inp Q X Y :
  (forall w, P w -> status e (trace w) cmd = 0%Z ->
     Q (snd (cmd_effect e cmd inp (set_trace (cmd :: trace w) w)))
       (fst (cmd_effect e cmd inp (set_trace (cmd :: trace w) w)))) ->
  (forall w, P w -> status e (trace w) cmd <> 0%Z ->
     X (CalledProcessError cmd (status e (trace w) cmd) (stderr_of e cmd))
       (set_trace (cmd :: trace w) w)) ->
  triple e P (run_checked cmd inp) Q X Y.
Proof.
  intros HQ HX w Hw. unfold run_checked, bind, sp_run.
  destruct (Z.eqb_spec (status e (trace w) cmd) 0) as [H0|H0].
  - destruct (cmd_effect e cmd inp (set_trace (cmd :: trace w) w)) as [w2 o] eqn:E.
    cbn. specialize (HQ w Hw H0). rewrite E in HQ. exact HQ.
  - cbn. rewrite <- Z.eqb_neq in H0. rewrite H0. apply Z.eqb_neq in H0.
    exact (HX w Hw H0).
Qed.

Lemma triple_run_subprocess P cmd msg Q X Y :
  (forall w, P w -> status e (trace w) cmd = 0%Z ->
     Q tt (fst (cmd_effect e cmd "" (set_trace (cmd :: trace w) w)))) ->
  (forall w, P w -> status e (trace w) cmd <> 0%Z ->
     X (Exception msg)
       (set_logs ((ERROR, "Command failed. Error: " ++ stderr_of e cmd) :: logs w)
          (set_trace (cmd :: trace w) w))) ->
  triple e P (run_subprocess cmd msg) Q X Y.
Proof.
  intros HQ HX. unfold run_subprocess.
  apply (triple_try_except P _ _ _ Q
           (fun x w' => exists w, P w /\ status e (trace w) cmd <> 0%Z /\
              x = CalledProcessError cmd (status e (trace w) cmd) (stderr_of e cmd) /\
              w' = set_trace (cmd :: trace w) w)).
  - apply (triple_bind _ _ _ (fun _ w' => exists w, P w /\ status e (trace w) cmd = 0%Z /\
                                   w' = fst (cmd_effect e cmd "" (set_trace (cmd :: trace w) w)))).
    + apply triple_run_checked.
      * intros w Hw H0. exists w. auto.
      * intros w Hw H0. exists w. auto.
    + intros _. apply triple_ret. intros w' [w [Hw [H0 ->]]]. exact (HQ w Hw H0).
  - intros x _ w' [w [Hw [H0 [-> ->]]]]. cbn.
    exact (HX w Hw H0).
  - intros x w' Hc [w [_ [_ [-> _]]]]. discriminate Hc.
Qed.

End Triple.

(** ** Steps that leave mounts, temporary directories and locals alone *)

Lemma mt_pure_ret {A} (a : A) : mt_pure (ret a).
Proof. intros e w. reflexivity. Qed.

Lemma mt_pure_raise {A} x : mt_pure (A:=A) (raise x).
Proof. intros e w. reflexivity. Qed.

Lemma mt_pure_bind {A B} (m : M A) (k : A -> M B) :
  mt_pure m -> (forall a, mt_pure (k a)) -> mt_pure (bind m k).
Proof.
  intros Hm Hk e w. specialize (Hm e w). unfold bind.
  destruct (m e w) as [[a|x|c] w1]; cbn in *; try exact Hm.
  rewrite (Hk a e w1). exact Hm.
Qed.

Lemma mt_pure_dispatch {A} (cls : list ((pyexn -> bool) * (pyexn -> M A))) :
  Forall (fun ch => forall x, mt_pure (snd ch x)) cls -> forall x, mt_pure (dispatch cls x).
Proof.
  induction 1 as [|[c h] cls Hh _ IH]; intros x; cbn.
  - apply mt_pure_raise.
  - destruct (c x); [apply Hh | apply IH].
Qed.

Lemma mt_pure_try_excepts {A} (m : M A) cls :
  mt_pure m -> Forall (fun ch => forall x, mt_pure (snd ch x)) cls ->
  mt_pure (try_excepts m cls).
Proof.
  intros Hm Hcls e w. specialize (Hm e w). unfold try_excepts.
  destruct (m e w) as [[a|x|c] w1] eqn:E; cbn in *; try exact Hm.
  rewrite (mt_pure_dispatch cls Hcls x e w1). exact Hm.
Qed.

Lemma mt_pure_try_except {A} (m : M A) c h :
  mt_pure m -> (forall x, mt_pure (h x)) -> mt_pure (try_except m c h).
Proof. intros Hm Hh. apply mt_pure_try_excepts; [exact Hm | repeat constructor; exact Hh]. Qed.

Lemma mt_pure_for_each {A} (l : list A) body :
  (forall a, mt_pure (body a)) -> mt_pure (for_each l body).
Proof.
  intros Hb. induction l as [|a l IH]; cbn [for_each].
  - apply mt_pure_ret.
  - apply mt_pure_bind; [apply Hb | intros _; exact IH].
Qed.

Lemma mt_pure_log lvl msg : mt_pure (log lvl msg).
Proof. intros e w. reflexivity. Qed.

Lemma mt_pure_fail {A} msg exc : mt_pure (A:=A) (fail msg exc).
Proof. intros e w. unfold fail, bind. destruct exc; reflexivity. Qed.

Lemma mt_pure_get_world : mt_pure get_world.
Proof. intros e w. reflexivity. Qed.

Lemma mt_pure_path_exists p : mt_pure (path_exists p).
Proof. intros e w. reflexivity. Qed.

Lemma mt_pure_isfile p : mt_pure (isfile p).
Proof. intros e w. reflexivity. Qed.

Lemma mt_pure_ismount p : mt_pure (ismount p).
Proof. intros e w. reflexivity. Qed.

Lemma mt_pure_iterdir p : mt_pure (iterdir p).
Proof.
  intros e w. unfold iterdir. destruct (unreadable e p); [reflexivity|].
  destruct (isdir_w p w); reflexivity.
Qed.

Lemma mt_pure_rmtree p : mt_pure (rmtree p).
Proof. intros e w. reflexivity. Qed.

Lemma mt_pure_makedirs p : mt_pure (makedirs p).
Proof. intros e w. reflexivity. Qed.

Lemma mt_pure_copytree src dest : mt_pure (copytree src dest).
Proof.
  intros e w. unfold copytree. destruct (copy_fault e src dest) as [[]|]; try reflexivity.
  destruct (isdir_w src w); reflexivity.
Qed.

Lemma mt_pure_urlretrieve u d : mt_pure (urlretrieve u d).
Proof.
  intros e w. unfold urlretrieve.
  destruct (url_content e u); [destruct (is_dir_path d w), (parent_exists d w)|]; reflexivity.
Qed.

Lemma mt_pure_local_get n : mt_pure (local_get n).
Proof. intros e w. reflexivity. Qed.

Lemma mt_pure_sp_run cmd inp :
  (forall e w, mt (fst (cmd_effect e cmd inp w)) = mt w) -> mt_pure (sp_run cmd inp).
Proof.
  intros Hc e w. unfold sp_run. destruct (Z.eqb (status e (trace w) cmd) 0); [|reflexivity].
  specialize (Hc e (set_trace (cmd :: trace w) w)).
  destruct (cmd_effect e cmd inp (set_trace (cmd :: trace w) w)) as [w2 o]. exact Hc.
Qed.

Create HintDb mtpure.
#[local] Hint Resolve mt_pure_ret mt_pure_raise mt_pure_log mt_pure_fail mt_pure_get_world
  mt_pure_path_exists mt_pure_isfile mt_pure_ismount mt_pure_iterdir mt_pure_rmtree
  mt_pure_makedirs mt_pure_copytree mt_pure_urlretrieve mt_pure_local_get : mtpure.

(** Take apart a program built from [bind], [try]/[except], loops and
    conditionals down to steps known to leave [mt] alone. *)
Ltac mt_pure_walk :=
  repeat first
    [ match goal with |- forall _ : _, _ => intro end
    | apply mt_pure_bind
    | apply mt_pure_try_except
    | apply mt_pure_try_excepts; [| repeat constructor]
    | apply mt_pure_for_each
    | progress cbn [snd]
    | match goal with
      | |- mt_pure (if ?b then _ else _) => destruct b
      | |- mt_pure (match ?x with _ => _ end) => destruct x
      end
    | solve [auto with mtpure] ].

Lemma mt_pure_log_copy_errors x : mt_pure (log_copy_errors x).
Proof.
  destruct x; cbn [log_copy_errors]; mt_pure_walk.
Qed.

Lemma mt_pure_copy_tree src dest : mt_pure (copy_tree src dest).
Proof.
  unfold copy_tree. apply mt_pure_try_excepts; [apply mt_pure_copytree|].
  repeat constructor; cbn [snd]; intros x; auto with mtpure.
  apply mt_pure_log_copy_errors.
Qed.
#[local] Hint Resolve mt_pure_copy_tree : mtpure.

(** ** Mounts in the custom ISO flow *)

Ltac split_string_matches :=
  repeat match goal with
         | |- context [match ?x with _ => _ end] => is_var x; destruct x
         | |- context [match ?x with _ => _ end] =>
             match x with Ascii _ _ _ _ _ _ _ _ => destruct x end
         end.

Lemma cmd_effect_mount :
  forall e iso mp inp w,
    cmd_effect e ["sudo"; "mount"; "-o"; "loop"; iso; mp] inp w = (mount_at mp (image_files e iso) w, "").
Proof. intros. unfold cmd_effect. split_string_matches; reflexivity. Qed.

Lemma cmd_effect_umount :
  forall e mp inp w, cmd_effect e ["sudo"; "umount"; mp] inp w = (unmount_at mp w, "").
Proof. intros. unfold cmd_effect. split_string_matches; reflexivity. Qed.

Lemma cmd_effect_wimmountrw :
  forall e wim idx dir inp w,
    cmd_effect e ["sudo"; "wimmountrw"; wim; idx; dir] inp w =
      (mount_at dir (image_files e (wim ++ ":" ++ idx)) w, "").
Proof. intros. unfold cmd_effect. split_string_matches; reflexivity. Qed.

Lemma cmd_effect_wimunmount :
  forall e dir inp w, cmd_effect e ["sudo"; "wimunmount"; "--commit"; dir] inp w = (unmount_at dir w, "").
Proof. intros. unfold cmd_effect. split_string_matches; reflexivity. Qed.

Lemma mt_cmd_effect_mkisofs :
  forall e win inp w, mt (fst (cmd_effect e (mkisofs_command win) inp w)) = mt w.
Proof. intros. unfold cmd_effect, mkisofs_command. split_string_matches; reflexivity. Qed.

Lemma mt_inv :
  forall w Mx Tx Lx, mt w = (Mx, Tx, Lx) -> mounts w = Mx /\ tmp w = Tx /\ locals w = Lx.
Proof. intros w Mx Tx Lx H. unfold mt in H. injection H as H1 H2 H3. auto. Qed.

Lemma mt_mount_at :
  forall mp img w, exists h, mt (mount_at mp img w) = ((mp, h) :: mounts w, tmp w, locals w).
Proof. intros. eexists. reflexivity. Qed.

Lemma mt_unmount_at_top :
  forall mp h Mx w, mounts w = (mp, h) :: Mx -> mt (unmount_at mp w) = (Mx, tmp w, locals w).
Proof.
  intros mp h Mx w H. unfold unmount_at. rewrite H. cbn. rewrite String.eqb_refl. reflexivity.
Qed.

Lemma lookup_not_ismount :
  forall {A} p (l : list (string * A)),
    existsb (fun '(q, _) => String.eqb p q) l = false -> lookup p l = None.
Proof.
  intros A p l. induction l as [|[q v] l IH]; cbn; [reflexivity|].
  destruct (String.eqb p q); [discriminate|]. exact IH.
Qed.

Lemma unmount_at_absent :
  forall mp w, existsb (fun '(q, _) => String.eqb mp q) (mounts w) = false -> unmount_at mp w = w.
Proof. intros mp w H. unfold unmount_at. rewrite (lookup_not_ismount _ _ H). reflexivity. Qed.

Lemma mt_pure_run_subprocess cmd msg :
  (forall e w, mt (fst (cmd_effect e cmd "" w)) = mt w) -> mt_pure (run_subprocess cmd msg).
Proof.
  intros Hc. unfold run_subprocess, run_checked. mt_pure_walk.
  apply mt_pure_sp_run. exact Hc.
Qed.

Lemma mt_pure_generate_custom_iso : mt_pure generate_custom_iso.
Proof.
  unfold generate_custom_iso. mt_pure_walk.
  apply mt_pure_sp_run. intros e' w'. apply mt_cmd_effect_mkisofs.
Qed.

Lemma mt_pure_prepare_directories : mt_pure prepare_directories_for_custom_iso.
Proof. unfold prepare_directories_for_custom_iso. mt_pure_walk. Qed.

Section Mounts.
Context (e : env).

Lemma triple_nook {A} P (m : M A) Q :
  okpost m (fun _ => False) -> triple e P m Q any_post any_post.
Proof.
  intros Hm w _. specialize (Hm e w).
  destruct (m e w) as [[a|x|c] w']; [exfalso; exact (Hm a w' eq_refl) | exact I | exact I].
Qed.

Lemma triple_get_world_bind {A} P (k : world -> M A) Q X Y :
  (forall w0, P w0 -> triple e (fun w => w = w0) (k w0) Q X Y) ->
  triple e P (bind get_world k) Q X Y.
Proof. intros H w Hw. unfold bind, get_world. exact (H w Hw w eq_refl). Qed.

Lemma triple_local_get_bind {A} P n (k : list string -> M A) Q X Y :
  (forall w0, P w0 ->
     triple e (fun w => w = w0)
       (k (match lookup n (locals w0) with Some v => v | None => [] end)) Q X Y) ->
  triple e P (bind (local_get n) k) Q X Y.
Proof. intros H w Hw. unfold bind, local_get. exact (H w Hw w eq_refl). Qed.

(** A step that leaves [mt] alone keeps any property of [mt]. *)
Lemma triple_mt_keep {A} (V : _ -> Prop) (m : M A) :
  mt_pure m -> triple e (fun w => V (mt w)) m (fun _ w => V (mt w)) any_post any_post.
Proof.
  intros Hp. apply triple_mt_pure; [exact Hp | | |]; intros; [|exact I|exact I].
  match goal with H : mt _ = mt _ |- _ => rewrite H end. assumption.
Qed.

Lemma triple_mt_weaken {A} (V V' : _ -> Prop) (m : M A) :
  mt_pure m -> (forall v, V v -> V' v) ->
  triple e (fun w => V (mt w)) m (fun _ w => V' (mt w)) any_post any_post.
Proof.
  intros Hp HV. apply triple_mt_pure; [exact Hp | | |]; intros; [|exact I|exact I].
  match goal with H : mt _ = mt _ |- _ => rewrite H end. auto.
Qed.

Lemma mount_iso_spec iso d Mx Tx Lx :
  triple e (fun w => mt w = (Mx, Tx, Lx)) (mount_iso iso d)
    (fun _ w => mt w = (Mx, Tx, Lx) \/ exists h, mt w = ((d, h) :: Mx, Tx, Lx))
    any_post any_post.
Proof.
  unfold mount_iso.
  apply (triple_bind e _ _ _ (fun _ w => mt w = (Mx, Tx, Lx))).
  { apply (triple_mt_keep (fun v => v = (Mx, Tx, Lx))). auto with mtpure. }
  intros ie. destruct (negb ie).
  { apply (triple_mt_weaken (fun v => v = (Mx, Tx, Lx))
             (fun v => v = (Mx, Tx, Lx) \/ exists h, v = ((d, h) :: Mx, Tx, Lx)));
      [auto with mtpure | auto]. }
  apply (triple_bind e _ _ _ (fun _ w => mt w = (Mx, Tx, Lx))).
  { apply (triple_mt_keep (fun v => v = (Mx, Tx, Lx))). auto with mtpure. }
  intros me. destruct (negb me).
  { apply (triple_mt_weaken (fun v => v = (Mx, Tx, Lx))
             (fun v => v = (Mx, Tx, Lx) \/ exists h, v = ((d, h) :: Mx, Tx, Lx)));
      [auto with mtpure | auto]. }
  apply (triple_try_except e _ _ _ _ _ any_post).
  - apply (triple_bind e _ _ _ (fun _ w => exists h, mt w = ((d, h) :: Mx, Tx, Lx))).
    + apply triple_run_subprocess.
      * intros w Hw _. rewrite cmd_effect_mount. cbn [fst].
        destruct (mt_inv _ _ _ _ Hw) as [H1 [H2 H3]].
        destruct (mt_mount_at d (image_files e iso) (set_trace (["sudo"; "mount"; "-o"; "loop"; iso; d] :: trace w) w)) as [h Hh].
        exists h. rewrite Hh. cbn. rewrite H1, H2, H3. reflexivity.
      * intros. exact I.
    + intros _. apply (triple_ex e (fun h w => mt w = ((d, h) :: Mx, Tx, Lx))). intros h.
      apply (triple_bind e _ _ _ (fun _ w => mt w = ((d, h) :: Mx, Tx, Lx))).
      { apply (triple_mt_keep (fun v => v = ((d, h) :: Mx, Tx, Lx))). auto with mtpure. }
      intros entries.
      apply (triple_bind e _ _ _ (fun _ w => mt w = ((d, h) :: Mx, Tx, Lx))).
      { destruct entries; [apply triple_fail; intros; exact I|].
        apply triple_ret. auto. }
      intros _.
      apply (triple_mt_weaken (fun v => v = ((d, h) :: Mx, Tx, Lx))
               (fun v => v = (Mx, Tx, Lx) \/ exists h, v = ((d, h) :: Mx, Tx, Lx)));
        [auto with mtpure | intros v Hv; right; exists h; exact Hv].
  - intros x _. apply triple_nook. repeat okpost_step.
  - intros. exact I.
Qed.

Lemma unmount_mounted_spec d h Mx Tx Lx :
  triple e (fun w => mt w = ((d, h) :: Mx, Tx, Lx)) (unmount d)
    (fun _ w => mt w = (Mx, Tx, Lx)) any_post any_post.
Proof.
  unfold unmount.
  apply (triple_bind e _ _ _ (fun b w => b = true /\ mt w = ((d, h) :: Mx, Tx, Lx))).
  { intros w Hw. split; [|exact Hw]. destruct (mt_inv _ _ _ _ Hw) as [H1 _].
    cbn. unfold ismount_w. rewrite H1. cbn. rewrite String.eqb_refl. reflexivity. }
  intros b. destruct b; [| intros w [Hf _]; discriminate Hf]. cbn [negb].
  apply (triple_try_excepts e _ _ _ _ any_post).
  - apply (triple_bind e _ _ _ (fun _ w => mt w = (Mx, Tx, Lx))).
    + apply triple_run_subprocess; [|intros; exact I].
      intros w [_ Hw] _. rewrite cmd_effect_umount. cbn [fst].
      destruct (mt_inv _ _ _ _ Hw) as [H1 [H2 H3]].
      rewrite (mt_unmount_at_top d h Mx); [cbn; rewrite H2, H3; reflexivity | exact H1].
    + intros _.
      apply (triple_bind e _ _ _ (fun _ w => mt w = (Mx, Tx, Lx))).
      { apply (triple_mt_keep (fun v => v = (Mx, Tx, Lx))). auto with mtpure. }
      intros entries.
      apply (triple_bind e _ _ _ (fun _ w => mt w = (Mx, Tx, Lx))).
      { destruct entries; [apply triple_ret; auto | apply triple_fail; intros; exact I]. }
      intros _. apply (triple_mt_keep (fun v => v = (Mx, Tx, Lx))). auto with mtpure.
  - intros x. apply triple_nook. cbn [dispatch]. destruct (is_PermissionError x);
      [|cbn [any_exception]]; repeat okpost_step.
Qed.

Lemma unmount_absent_spec d (V : _ -> Prop) :
  triple e (fun w => V (mt w) /\ ismount_w d w = false) (unmount d)
    (fun _ w => V (mt w)) any_post any_post.
Proof.
  intros w [HV Hd]. rewrite (unmount_unmounted d e w Hd). exact HV.
Qed.

Lemma triple_pre {A} P P' (m : M A) Q X Y :
  triple e P m Q X Y -> (forall w, P' w -> P w) -> triple e P' m Q X Y.
Proof. intros H HP w Hw. exact (H w (HP w Hw)). Qed.

Lemma triple_any {A} P (m : M A) : triple e P m (fun _ _ => True) any_post any_post.
Proof. intros w _. destruct (m e w) as [[a|x|c] w']; exact I. Qed.

Lemma triple_log P lvl msg (Q : unit -> world -> Prop) X Y :
  (forall w, P w -> Q tt (set_logs ((lvl, msg) :: logs w) w)) -> triple e P (log lvl msg) Q X Y.
Proof. intros H w Hw. exact (H w Hw). Qed.

Lemma mount_wim_spec wim idx Mx Tx Lx :
  triple e (fun w => mt w = (Mx, Tx, Lx)) (mount_wim wim idx)
    (fun _ w => mt w = (Mx, Tx, Lx) \/ exists h, mt w = ((wimtemp_dir Tx, h) :: Mx, Tx, Lx))
    any_post any_post.
Proof.
  unfold mount_wim. apply triple_get_world_bind. intros w0 Hw0.
  destruct (mt_inv _ _ _ _ Hw0) as [_ [H2 _]]. cbv beta zeta. rewrite H2.
  apply (triple_pre (fun w => mt w = (Mx, Tx, Lx))); [| intros w ->; exact Hw0].
  apply (triple_bind e _ _ _ (fun _ w => mt w = (Mx, Tx, Lx))).
  { apply (triple_mt_keep (fun v => v = (Mx, Tx, Lx))). auto with mtpure. }
  intros _.
  apply (triple_bind e _ _ _ (fun _ w => mt w = (Mx, Tx, Lx))).
  { apply (triple_mt_keep (fun v => v = (Mx, Tx, Lx))). auto with mtpure. }
  intros ex. destruct (negb ex).
  { apply (triple_mt_weaken (fun v => v = (Mx, Tx, Lx))
             (fun v => v = (Mx, Tx, Lx) \/ exists h, v = ((wimtemp_dir Tx, h) :: Mx, Tx, Lx)));
      [auto with mtpure | auto]. }
  apply (triple_try_except e _ _ _ _ _ (fun _ w => mt w = (Mx, Tx, Lx))).
  - apply (triple_bind e _ _ _ (fun _ w => exists h, mt w = ((wimtemp_dir Tx, h) :: Mx, Tx, Lx))).
    + apply triple_run_checked.
      * intros w Hw _. rewrite cmd_effect_wimmountrw. cbn [fst].
        destruct (mt_inv _ _ _ _ Hw) as [H1' [H2' H3']].
        match goal with |- exists h, mt (mount_at ?mp ?img ?w') = _ =>
          destruct (mt_mount_at mp img w') as [h Hh] end.
        exists h. rewrite Hh. cbn. rewrite H1', H2', H3'. reflexivity.
      * intros w Hw _. exact Hw.
    + intros _. apply triple_log. intros w [h Hw]. right. exists h. exact Hw.
  - intros x Hc. destruct x; try discriminate Hc.
    apply (triple_mt_weaken (fun v => v = (Mx, Tx, Lx))
             (fun v => v = (Mx, Tx, Lx) \/ exists h, v = ((wimtemp_dir Tx, h) :: Mx, Tx, Lx)));
      [auto with mtpure | auto].
  - intros. exact I.
Qed.

Lemma unmount_wim_spec Mx Tx Lx :
  existsb (fun '(q, _) => String.eqb (wimtemp_dir Tx) q) Mx = false ->
  triple e (fun w => mt w = (Mx, Tx, Lx) \/ exists h, mt w = ((wimtemp_dir Tx, h) :: Mx, Tx, Lx))
    unmount_wim (fun _ w => mt w = (Mx, Tx, Lx)) any_post any_post.
Proof.
  intros Hnot. unfold unmount_wim. apply triple_get_world_bind. intros w0 Hw0.
  assert (H2 : tmp w0 = Tx)
    by (destruct Hw0 as [Hw0|[h Hw0]]; apply (mt_inv _ _ _ _ Hw0)).
  rewrite H2.
  apply (triple_pre (fun w => mt w = (Mx, Tx, Lx) \/ exists h, mt w = ((wimtemp_dir Tx, h) :: Mx, Tx, Lx)));
    [| intros w ->; exact Hw0].
  apply triple_run_subprocess; [| intros; exact I].
  intros w Hw _. rewrite cmd_effect_wimunmount. cbn [fst].
  destruct Hw as [Hw|[h Hw]]; destruct (mt_inv _ _ _ _ Hw) as [H1' [H2' H3']].
  - rewrite unmount_at_absent; [exact Hw|]. cbn. rewrite H1'. exact Hnot.
  - rewrite (mt_unmount_at_top _ h Mx); [cbn; rewrite H2', H3'; reflexivity | exact H1'].
Qed.

Lemma iso_copy_spec iso d d' Mx Tx Lx :
  existsb (fun '(q, _) => String.eqb d q) Mx = false ->
  triple e (fun w => mt w = (Mx, Tx, Lx))
    (mount_iso iso d ;; copy_tree d d' ;; unmount d)
    (fun _ w => mt w = (Mx, Tx, Lx)) any_post any_post.
Proof.
  intros Hd.
  apply (triple_bind e _ _ _ (fun _ w => mt w = (Mx, Tx, Lx) \/ exists h, mt w = ((d, h) :: Mx, Tx, Lx))).
  { apply mount_iso_spec. }
  intros _.
  apply (triple_bind e _ _ _ (fun _ w => mt w = (Mx, Tx, Lx) \/ exists h, mt w = ((d, h) :: Mx, Tx, Lx))).
  { apply (triple_mt_keep (fun v => v = (Mx, Tx, Lx) \/ exists h, v = ((d, h) :: Mx, Tx, Lx))).
    auto with mtpure. }
  intros _.
  apply (triple_or e (fun w => mt w = (Mx, Tx, Lx)) (fun w => exists h, mt w = ((d, h) :: Mx, Tx, Lx))).
  - apply (triple_pre (fun w => (fun v => v = (Mx, Tx, Lx)) (mt w) /\ ismount_w d w = false));
      [apply (unmount_absent_spec d (fun v => v = (Mx, Tx, Lx))) |].
    intros w Hw. split; [exact Hw|]. destruct (mt_inv _ _ _ _ Hw) as [H1 _].
    unfold ismount_w. rewrite H1. exact Hd.
  - apply (triple_ex e (fun h w => mt w = ((d, h) :: Mx, Tx, Lx))). intros h.
    apply unmount_mounted_spec.
Qed.

Lemma copy_virtio_drivers_spec iso Mx Tx Lx :
  existsb (fun '(q, _) => String.eqb (virtio_mount_dir Tx) q) Mx = false ->
  triple e (fun w => mt w = (Mx, Tx, Lx)) (copy_virtio_drivers iso)
    (fun _ w => mt w = (Mx, Tx, Lx)) any_post any_post.
Proof.
  intros Hd. unfold copy_virtio_drivers.
  apply (triple_bind e _ _ _ (fun _ w => mt w = (Mx, Tx, Lx))).
  { apply (triple_mt_keep (fun v => v = (Mx, Tx, Lx))). auto with mtpure. }
  intros _. apply triple_get_world_bind. intros w0 Hw0.
  destruct (mt_inv _ _ _ _ Hw0) as [_ [H2 _]]. cbv beta zeta. rewrite H2.
  apply (triple_pre (fun w => mt w = (Mx, Tx, Lx))); [| intros w ->; exact Hw0].
  apply (triple_try_except e _ _ _ _ _ any_post).
  - apply iso_copy_spec. exact Hd.
  - intros x _. apply triple_nook. repeat okpost_step.
  - intros. exact I.
Qed.

Lemma copy_windows_files_spec iso Mx Tx Lx :
  existsb (fun '(q, _) => String.eqb (windows_mount_dir Tx) q) Mx = false ->
  triple e (fun w => mt w = (Mx, Tx, Lx)) (copy_windows_files iso)
    (fun _ w => mt w = (Mx, Tx, Lx)) any_post any_post.
Proof.
  intros Hd. unfold copy_windows_files.
  apply (triple_bind e _ _ _ (fun _ w => mt w = (Mx, Tx, Lx))).
  { apply (triple_mt_keep (fun v => v = (Mx, Tx, Lx))). auto with mtpure. }
  intros _. apply triple_get_world_bind. intros w0 Hw0.
  destruct (mt_inv _ _ _ _ Hw0) as [_ [H2 _]]. cbv beta zeta. rewrite H2.
  apply (triple_pre (fun w => mt w = (Mx, Tx, Lx))); [| intros w ->; exact Hw0].
  apply (triple_try_except e _ _ _ _ _ any_post).
  - apply iso_copy_spec. exact Hd.
  - intros x _. apply triple_nook. repeat okpost_step.
  - intros. exact I.
Qed.

Lemma add_drivers_spec Mx Tx Lx :
  existsb (fun '(q, _) => String.eqb (wimtemp_dir Tx) q) Mx = false ->
  triple e (fun w => mt w = (Mx, Tx, Lx)) add_drivers_to_windows_boot_images
    (fun _ w => mt w = (Mx, Tx, Lx)) any_post any_post.
Proof.
  intros Hd. unfold add_drivers_to_windows_boot_images.
  apply (triple_bind e _ _ _ (fun _ w => mt w = (Mx, Tx, Lx))).
  { apply (triple_mt_keep (fun v => v = (Mx, Tx, Lx))). auto with mtpure. }
  intros _. apply triple_for_each. intros idx _.
  apply triple_get_world_bind. intros w0 Hw0.
  destruct (mt_inv _ _ _ _ Hw0) as [_ [H2 _]]. cbv beta zeta. rewrite H2.
  apply (triple_pre (fun w => mt w = (Mx, Tx, Lx))); [| intros w ->; exact Hw0].
  apply (triple_bind e _ _ _
           (fun _ w => mt w = (Mx, Tx, Lx) \/ exists h, mt w = ((wimtemp_dir Tx, h) :: Mx, Tx, Lx))).
  { apply mount_wim_spec. }
  intros _.
  apply (triple_bind e _ _ _
           (fun _ w => mt w = (Mx, Tx, Lx) \/ exists h, mt w = ((wimtemp_dir Tx, h) :: Mx, Tx, Lx))).
  { apply (triple_mt_keep
             (fun v => v = (Mx, Tx, Lx) \/ exists h, v = ((wimtemp_dir Tx, h) :: Mx, Tx, Lx))).
    auto with mtpure. }
  intros _. apply unmount_wim_spec. exact Hd.
Qed.

Lemma iso_flow_lift {A} M0 T0 (m : M A) :
  (forall Lx, triple e (fun w => mt w = (M0, T0, Lx)) m (fun _ w => mt w = (M0, T0, Lx))
                any_post any_post) ->
  triple e (iso_flow_inv M0 T0) m (fun _ => iso_flow_inv M0 T0) any_post any_post.
Proof.
  intros H w [Lx [Hw HJ]]. specialize (H Lx w Hw).
  destruct (m e w) as [[a|x|c] w']; [exists Lx; split; assumption | exact I | exact I].
Qed.

Lemma iso_flow_keep {A} M0 T0 (m : M A) :
  mt_pure m -> triple e (iso_flow_inv M0 T0) m (fun _ => iso_flow_inv M0 T0) any_post any_post.
Proof.
  intros Hp. apply (triple_mt_keep (fun v => exists Lx, v = (M0, T0, Lx) /\ mounted_isos_ok T0 Lx)).
  exact Hp.
Qed.

Lemma record_mounted_spec M0 T0 d :
  In d (tempdir_list T0) ->
  triple e (iso_flow_inv M0 T0) (record_mounted d) (fun _ => iso_flow_inv M0 T0) any_post any_post.
Proof.
  intros Hd w [Lx [Hw HJ]]. destruct (mt_inv _ _ _ _ Hw) as [H1 [H2 H3]].
  unfold record_mounted, bind, local_get, local_set, modify. cbn.
  eexists. split.
  - unfold mt. cbn. rewrite H1, H2. reflexivity.
  - unfold mounted_isos_ok. rewrite lookup_assign_same. apply Forall_app. split.
    + rewrite H3. exact HJ.
    + constructor; [exact Hd | constructor].
Qed.

Lemma create_custom_iso_spec win virtio M0 T0 L0 :
  Forall (fun d => existsb (fun '(q, _) => String.eqb d q) M0 = false) (tempdir_list T0) ->
  triple e (fun w => mt w = (M0, T0, L0)) (create_custom_iso win virtio)
    (fun _ w => mounts w = M0) any_post any_post.
Proof.
  intros Hclean.
  assert (Hc : forall d, In d (tempdir_list T0) ->
                 existsb (fun '(q, _) => String.eqb d q) M0 = false)
    by (intros d Hd; rewrite Forall_forall in Hclean; exact (Hclean d Hd)).
  unfold create_custom_iso.
  apply (triple_bind e _ _ _ (fun _ => iso_flow_inv M0 T0)).
  { intros w Hw. destruct (mt_inv _ _ _ _ Hw) as [H1 [H2 H3]].
    cbn. eexists. split.
    - unfold mt. cbn. rewrite H1, H2. reflexivity.
    - unfold mounted_isos_ok. rewrite lookup_assign_same. constructor. }
  intros _.
  apply (triple_try_finally e _ _ _ (fun _ => iso_flow_inv M0 T0) any_post any_post).
  - apply (triple_try_except e _ _ _ _ _ any_post).
    + apply (triple_bind e _ _ _ (fun _ => iso_flow_inv M0 T0)).
      { apply iso_flow_keep. apply mt_pure_prepare_directories. }
      intros _. apply (triple_bind e _ _ _ (fun _ => iso_flow_inv M0 T0)).
      { apply iso_flow_lift. intros Lx. apply copy_virtio_drivers_spec. apply Hc. cbn; tauto. }
      intros _. apply triple_get_world_bind. intros w1 Hw1.
      destruct Hw1 as [Lx1 [Hw1' HJ1]]. destruct (mt_inv _ _ _ _ Hw1') as [_ [H2 _]]. rewrite H2.
      apply (triple_pre (iso_flow_inv M0 T0)); [| intros w ->; exists Lx1; split; assumption].
      apply (triple_bind e _ _ _ (fun _ => iso_flow_inv M0 T0)).
      { apply record_mounted_spec. cbn; tauto. }
      intros _. apply (triple_bind e _ _ _ (fun _ => iso_flow_inv M0 T0)).
      { apply iso_flow_lift. intros Lx. apply copy_windows_files_spec. apply Hc. cbn; tauto. }
      intros _. apply triple_get_world_bind. intros w2 Hw2.
      destruct Hw2 as [Lx2 [Hw2' HJ2]]. destruct (mt_inv _ _ _ _ Hw2') as [_ [H2' _]]. rewrite H2'.
      apply (triple_pre (iso_flow_inv M0 T0)); [| intros w ->; exists Lx2; split; assumption].
      apply (triple_bind e _ _ _ (fun _ => iso_flow_inv M0 T0)).
      { apply record_mounted_spec. cbn; tauto. }
      intros _. apply (triple_bind e _ _ _ (fun _ => iso_flow_inv M0 T0)).
      { apply iso_flow_lift. intros Lx. apply add_drivers_spec. apply Hc. cbn; tauto. }
      intros _. apply iso_flow_keep. apply mt_pure_generate_custom_iso.
    + intros x _. apply triple_fail. intros. exact I.
    + intros. exact I.
  - intros _. apply triple_local_get_bind. intros w0 Hw0.
    assert (HJ0 : Forall (fun d => In d (tempdir_list T0))
                    (match lookup "mounted_isos" (locals w0) with Some v => v | None => [] end)).
    { destruct Hw0 as [Lx [Hw HJ]]. destruct (mt_inv _ _ _ _ Hw) as [_ [_ H3]]. rewrite H3. exact HJ. }
    apply (triple_pre (iso_flow_inv M0 T0)); [| intros w ->; exact Hw0].
    eapply triple_conseq; [apply triple_for_each | intros w Hw; exact Hw | | intros; exact I | intros; exact I].
    + intros d Hin. rewrite Forall_forall in HJ0. specialize (HJ0 d Hin).
      apply (triple_pre (fun w => (fun v => exists Lx, v = (M0, T0, Lx) /\ mounted_isos_ok T0 Lx) (mt w)
                                 /\ ismount_w d w = false));
        [apply (unmount_absent_spec d (fun v => exists Lx, v = (M0, T0, Lx) /\ mounted_isos_ok T0 Lx)) |].
      intros w Hw. split; [exact Hw|]. destruct Hw as [Lx [Hw _]].
      destruct (mt_inv _ _ _ _ Hw) as [H1 _]. unfold ismount_w. rewrite H1. exact (Hc d HJ0).
    + intros _ w [Lx [Hw _]]. exact (proj1 (mt_inv _ _ _ _ Hw)).
  - intros x. apply triple_any.
  - intros c. apply triple_any.
Qed.

End Mounts.

(** C8 (counterexample): the WIM mounts of [add_drivers_to_windows_boot_images]
    are not covered by any cleanup.  When [wimunmount] exits with status 1,
    [create_custom_iso] exits with status 1 and the WIM image stays mounted
    at the wim temporary directory; the [finally] block only visits the two
    ISO mount points, which were already unmounted. *)
Lemma create_custom_iso_leaves_wim_mounted :
  let e := demo_env wim_unmount_fails no_copy_fault in
  let w := demo_world [("/home/alice/win10.iso", "iso"); ("virtio-win-0.1.262.iso", "iso")] [] in
  let (r, w') := create_custom_iso "/home/alice/win10.iso" "virtio-win-0.1.262.iso" e w in
  r = Exit 1 /\ ismount_w "/tmp/wim0" w = false /\ ismount_w "/tmp/wim0" w' = true /\
  map fst (mounts w') = ["/tmp/wim0"].
Proof. vm_compute. repeat split. Qed.

Lemma unmount_outcome :
  forall e w mp, ismount_w mp w = true ->
    let w1 := unmount_at mp (set_trace (["sudo"; "umount"; mp] :: trace w) w) in
    fst (unmount mp e w) =
      if (status e (trace w) ["sudo"; "umount"; mp] =? 0)%Z
      then match fst (iterdir mp e w1) with Ok [] => Ok tt | _ => Exit 1 end
      else Exit 1.
Proof.
  intros e w mp H w1.
  unfold unmount, is_mounted, ismount. cbv zeta. unfold bind at 1. rewrite H. cbn [negb].
  unfold try_excepts, run_subprocess, try_except, try_excepts, run_checked, bind, sp_run.
  cbv beta zeta.
  destruct (Z.eqb_spec (status e (trace w) ["sudo"; "umount"; mp]) 0) as [H0|H0].
  - rewrite cmd_effect_umount.
    cbv beta iota zeta delta [ret Z.eqb]. fold w1.
    unfold iterdir. destruct (unreadable e mp); [reflexivity|].
    destruct (isdir_w mp w1); [|reflexivity].
    destruct (nodup string_dec _); reflexivity.
  - apply Z.eqb_neq in H0. rewrite H0. reflexivity.
Qed.

(** C8 (amended): each mount of the flow is released by the step that made
    it: a normal return of [create_custom_iso], started with none of its
    temporary directories mounted, leaves the mount table as it found it.
    And [unmount] of a mount point is fatal (exit status 1) when [umount]
    fails, when the directory cannot be listed, or when any entry, a file
    or a subdirectory, is still found under it after the unmount. *)
Theorem create_custom_iso_mounts_released :
  (forall e w win virtio r w',
     no_temp_mounted w ->
     create_custom_iso win virtio e w = (Ok r, w') ->
     mounts w' = mounts w) /\
  (forall e w mp, ismount_w mp w = true ->
     let w1 := unmount_at mp (set_trace (["sudo"; "umount"; mp] :: trace w) w) in
     ((status e (trace w) ["sudo"; "umount"; mp] =? 0)%Z = false \/
      unreadable e mp = true \/
      existsb (under mp) (known_paths w1) = true) ->
     fst (unmount mp e w) = Exit 1).
Proof.
  split.
  - intros e w win virtio r w' Hclean Hrun.
    pose proof (create_custom_iso_spec e win virtio (mounts w) (tmp w) (locals w) Hclean w eq_refl) as Hs.
    rewrite Hrun in Hs. exact Hs.
  - intros e w mp H w1 Hc.
    rewrite (unmount_outcome e w mp H). fold w1.
    destruct ((status e (trace w) ["sudo"; "umount"; mp] =? 0)%Z) eqn:Hs; [|reflexivity].
    destruct Hc as [Hc | [Hu | Hk]]; [discriminate Hc| |].
    + unfold iterdir. rewrite Hu. reflexivity.
    + unfold iterdir. destruct (unreadable e mp); [reflexivity|].
      destruct (isdir_w mp w1); [|reflexivity].
      apply existsb_exists in Hk. destruct Hk as [q [Hq Hu]].
      match goal with
      | |- match fst (Ok (nodup ?d (map ?g ?l)), _) with _ => _ end = _ =>
          assert (Hin : In (g q) (nodup d (map g l)))
            by (apply nodup_In; apply (in_map g); apply filter_In; split; assumption);
          destruct (nodup d (map g l)); [destruct Hin | reflexivity]
      end.
Qed.

Lemma create_custom_iso_mounts_released_witness :
  let e := demo_env no_failure no_copy_fault in
  let w := demo_world [("/home/alice/win10.iso", "iso"); ("virtio-win-0.1.262.iso", "iso")] [] in
  let wm := set_mounts [("/tmp/virtio_mnt0", [])] (set_dirs ("/tmp/virtio_mnt0/EFI" :: dirs w) w) in
  no_temp_mounted w /\
  create_custom_iso "/home/alice/win10.iso" "virtio-win-0.1.262.iso" e w =
    (Ok "CustomWin10.iso", snd (create_custom_iso "/home/alice/win10.iso" "virtio-win-0.1.262.iso" e w)) /\
  mounts (snd (create_custom_iso "/home/alice/win10.iso" "virtio-win-0.1.262.iso" e w)) = mounts w /\
  ismount_w "/tmp/virtio_mnt0" wm = true /\
  fst (unmount "/tmp/virtio_mnt0" e wm) = Exit 1.
Proof.
  intros e w wm.
  assert (Hc : no_temp_mounted w) by (repeat constructor).
  assert (Hr : create_custom_iso "/home/alice/win10.iso" "virtio-win-0.1.262.iso" e w =
    (Ok "CustomWin10.iso", snd (create_custom_iso "/home/alice/win10.iso" "virtio-win-0.1.262.iso" e w)))
    by (vm_compute; reflexivity).
  assert (Hm : ismount_w "/tmp/virtio_mnt0" wm = true) by reflexivity.
  refine (conj Hc (conj Hr (conj _ (conj Hm _)))).
  - exact (proj1 create_custom_iso_mounts_released e w _ _ _ _ Hc Hr).
  - apply (proj2 create_custom_iso_mounts_released e wm "/tmp/virtio_mnt0" Hm).
    right. right. vm_compute. reflexivity.
Defined.

(** ** Failing commands *)

Lemma trace_cmd_effect :
  forall e cmd inp w, trace (fst (cmd_effect e cmd inp w)) = trace w.
Proof.
  intros e cmd inp w. unfold cmd_effect, mount_at, unmount_at.
  repeat match goal with
         | |- context [match ?x with _ => _ end] => destruct x
         end; reflexivity.
Qed.

Ltac destruct_goal_matches :=
  repeat match goal with
         | |- context [match ?x with _ => _ end] => destruct x
         end.

Lemma tr_pure_ret {A} (a : A) : tr_pure (ret a).
Proof. intros e w. reflexivity. Qed.

Lemma tr_pure_raise {A} x : tr_pure (A:=A) (raise x).
Proof. intros e w. reflexivity. Qed.

Lemma tr_pure_fail {A} msg exc : tr_pure (A:=A) (fail msg exc).
Proof. intros e w. unfold fail, bind. destruct exc; reflexivity. Qed.

Lemma tr_pure_bind {A B} (m : M A) (k : A -> M B) :
  tr_pure m -> (forall a, tr_pure (k a)) -> tr_pure (bind m k).
Proof.
  intros Hm Hk e w. specialize (Hm e w). unfold bind.
  destruct (m e w) as [[a|x|c] w1]; cbn in *; try exact Hm.
  rewrite (Hk a e w1). exact Hm.
Qed.

Lemma tr_pure_dispatch {A} (cls : list ((pyexn -> bool) * (pyexn -> M A))) :
  Forall (fun ch => forall x, tr_pure (snd ch x)) cls -> forall x, tr_pure (dispatch cls x).
Proof.
  induction 1 as [|[c h] cls Hh _ IH]; intros x; cbn.
  - apply tr_pure_raise.
  - destruct (c x); [apply Hh | apply IH].
Qed.

Lemma tr_pure_try_excepts {A} (m : M A) cls :
  tr_pure m -> Forall (fun ch => forall x, tr_pure (snd ch x)) cls ->
  tr_pure (try_excepts m cls).
Proof.
  intros Hm Hcls e w. specialize (Hm e w). unfold try_excepts.
  destruct (m e w) as [[a|x|c] w1] eqn:E; cbn in *; try exact Hm.
  rewrite (tr_pure_dispatch cls Hcls x e w1). exact Hm.
Qed.

Lemma tr_pure_try_except {A} (m : M A) c h :
  tr_pure m -> (forall x, tr_pure (h x)) -> tr_pure (try_except m c h).
Proof. intros Hm Hh. apply tr_pure_try_excepts; [exact Hm | repeat constructor; exact Hh]. Qed.

Lemma tr_pure_for_each {A} (l : list A) body :
  (forall a, tr_pure (body a)) -> tr_pure (for_each l body).
Proof.
  intros Hb. induction l as [|a l IH]; cbn [for_each].
  - apply tr_pure_ret.
  - apply tr_pure_bind; [apply Hb | intros _; exact IH].
Qed.

Lemma tr_pure_log lvl msg : tr_pure (log lvl msg).
Proof. intros e w. reflexivity. Qed.

Lemma tr_pure_print msg : tr_pure (print msg).
Proof. intros e w. reflexivity. Qed.

Lemma tr_pure_input p : tr_pure (input p).
Proof. intros e w. unfold input. destruct (stdin w); reflexivity. Qed.

Lemma tr_pure_isfile p : tr_pure (isfile p).
Proof. intros e w. reflexivity. Qed.

Lemma tr_pure_path_exists p : tr_pure (path_exists p).
Proof. intros e w. reflexivity. Qed.

Lemma tr_pure_is_mounted p : tr_pure (is_mounted p).
Proof. intros e w. reflexivity. Qed.

Lemma tr_pure_iterdir p : tr_pure (iterdir p).
Proof. intros e w. unfold iterdir. destruct_goal_matches; reflexivity. Qed.

Lemma tr_pure_read_file p : tr_pure (read_file p).
Proof. intros e w. unfold read_file. destruct_goal_matches; reflexivity. Qed.

Lemma tr_pure_write_file p c : tr_pure (write_file p c).
Proof. intros e w. reflexivity. Qed.

Lemma tr_pure_remove_file p : tr_pure (remove_file p).
Proof. intros e w. reflexivity. Qed.

Lemma tr_pure_rmtree p : tr_pure (rmtree p).
Proof. intros e w. reflexivity. Qed.

Lemma tr_pure_makedirs p : tr_pure (makedirs p).
Proof. intros e w. reflexivity. Qed.

Lemma tr_pure_expanduser p : tr_pure (expanduser p).
Proof. intros e w. reflexivity. Qed.

Lemma tr_pure_get_world : tr_pure get_world.
Proof. intros e w. reflexivity. Qed.

Lemma tr_pure_get_env : tr_pure get_env.
Proof. intros e w. reflexivity. Qed.

Lemma tr_pure_copytree src dest : tr_pure (copytree src dest).
Proof. intros e w. unfold copytree. destruct_goal_matches; reflexivity. Qed.

Lemma tr_pure_urlretrieve u d : tr_pure (urlretrieve u d).
Proof. intros e w. unfold urlretrieve. destruct_goal_matches; reflexivity. Qed.

Lemma tr_pure_local_get n : tr_pure (local_get n).
Proof. intros e w. reflexivity. Qed.

Lemma tr_pure_local_set n v : tr_pure (local_set n v).
Proof. intros e w. reflexivity. Qed.

Lemma tr_pure_init_temp_dirs : tr_pure init_temp_dirs.
Proof. intros e w. reflexivity. Qed.

Create HintDb trpure.
#[local] Hint Resolve tr_pure_ret tr_pure_raise tr_pure_fail tr_pure_log tr_pure_print
  tr_pure_input tr_pure_isfile tr_pure_path_exists tr_pure_is_mounted tr_pure_iterdir
  tr_pure_read_file tr_pure_write_file tr_pure_remove_file tr_pure_rmtree tr_pure_makedirs
  tr_pure_expanduser tr_pure_get_world tr_pure_get_env tr_pure_copytree tr_pure_urlretrieve
  tr_pure_local_get tr_pure_local_set tr_pure_init_temp_dirs : trpure.

(** Take apart a program down to steps that run no command. *)
Ltac tr_walk :=
  repeat first
    [ match goal with |- forall _ : _, _ => intro end
    | solve [auto with trpure]
    | apply tr_pure_bind
    | apply tr_pure_try_except
    | apply tr_pure_try_excepts; [| repeat constructor]
    | apply tr_pure_for_each
    | progress cbn [snd]
    | match goal with
      | |- tr_pure (if ?b then _ else _) => destruct b
      | |- tr_pure (match ?x with _ => _ end) => destruct x
      | |- tr_pure (let _ := _ in _) => cbv zeta
      end ].

Lemma tr_pure_copy_tree src dest : tr_pure (copy_tree src dest).
Proof.
  unfold copy_tree. tr_walk. destruct x; cbn [log_copy_errors]; tr_walk.
Qed.

Lemma tr_pure_choice_loop n : tr_pure (choice_loop n).
Proof.
  induction n as [|n IH]; cbn [choice_loop]; [apply tr_pure_raise|].
  unfold choice_round. tr_walk.
Qed.

Lemma tr_pure_print_options i l : tr_pure (print_options i l).
Proof. revert i. induction l as [|o l IH]; intros i; cbn [print_options]; tr_walk. Qed.

#[local] Hint Resolve tr_pure_copy_tree tr_pure_choice_loop tr_pure_print_options : trpure.

Lemma tr_pure_prompt_for_iso_choice : tr_pure prompt_for_iso_choice.
Proof. unfold prompt_for_iso_choice. tr_walk. Qed.

Lemma tr_pure_download_file u d : tr_pure (download_file u d).
Proof. unfold download_file. tr_walk. Qed.

Lemma tr_pure_chmod p : tr_pure (chmod p).
Proof. unfold chmod. tr_walk. Qed.

Lemma tr_pure_prepare_directories : tr_pure prepare_directories_for_custom_iso.
Proof. unfold prepare_directories_for_custom_iso. tr_walk. Qed.

Lemma tr_pure_record_mounted n : tr_pure (record_mounted n).
Proof. unfold record_mounted. tr_walk. Qed.

Lemma tr_pure_handle_user_provided_iso p : tr_pure (handle_user_provided_iso p).
Proof. unfold handle_user_provided_iso. tr_walk. Qed.

Lemma tr_pure_get_uefi_path : tr_pure get_uefi_path.
Proof. unfold get_uefi_path. tr_walk. Qed.

Lemma tr_pure_field_or_raise l t : tr_pure (field_or_raise l t).
Proof. unfold field_or_raise. tr_walk. Qed.

Lemma tr_pure_resource_assessment : tr_pure resource_assessment.
Proof. unfold resource_assessment. tr_walk. Qed.

Lemma tr_pure_auto_or_manual_config : tr_pure auto_or_manual_config.
Proof. unfold auto_or_manual_config. tr_walk. Qed.

Lemma tr_pure_py_floordiv a b : tr_pure (py_floordiv a b).
Proof. unfold py_floordiv. tr_walk. Qed.

#[local] Hint Resolve tr_pure_py_floordiv : trpure.

Lemma tr_pure_auto_allocation r c d : tr_pure (auto_allocation r c d).
Proof. unfold auto_allocation. tr_walk. Qed.

Lemma tr_pure_input_int p : tr_pure (input_int p).
Proof. unfold input_int. tr_walk. Qed.

#[local] Hint Resolve tr_pure_input_int : trpure.

Lemma tr_pure_manual_allocation r c d : tr_pure (manual_allocation r c d).
Proof. unfold manual_allocation. tr_walk. Qed.

Lemma tr_pure_validate_allocation a b c d f g : tr_pure (validate_allocation a b c d f g).
Proof. unfold validate_allocation. tr_walk. Qed.

#[local] Hint Resolve tr_pure_prompt_for_iso_choice tr_pure_download_file tr_pure_chmod
  tr_pure_prepare_directories tr_pure_record_mounted tr_pure_handle_user_provided_iso
  tr_pure_get_uefi_path tr_pure_field_or_raise tr_pure_resource_assessment
  tr_pure_auto_or_manual_config tr_pure_auto_allocation tr_pure_manual_allocation
  tr_pure_validate_allocation : trpure.

Section Checked.
Context (e : env) (w0 : world).

Lemma trace_ok_refl : trace_ok e w0 w0.
Proof. exists []. split; [reflexivity | exact I]. Qed.

Lemma trace_ok_same w w' : trace w' = trace w -> trace_ok e w0 w -> trace_ok e w0 w'.
Proof. intros Ht [n [Hn Hc]]. exists n. rewrite Ht. auto. Qed.

Lemma trace_ok_push w cmd :
  trace_ok e w0 w -> unchecked_cmd cmd = true \/ status e (trace w) cmd = 0%Z ->
  trace_ok e w0 (set_trace (cmd :: trace w) w).
Proof.
  intros [n [Hn Hc]] H. exists (cmd :: n). cbn. rewrite Hn. split; [reflexivity|].
  split; [rewrite <- Hn; exact H | exact Hc].
Qed.

Lemma triple_tr {A} (m : M A) :
  tr_pure m ->
  triple e (trace_ok e w0) m (fun _ => trace_ok e w0) (fun _ => trace_ok e w0) any_post.
Proof.
  intros Hp w Hw. specialize (Hp e w).
  destruct (m e w) as [[a|x|c] w']; cbn in Hp; try exact I; exact (trace_ok_same w w' Hp Hw).
Qed.

Lemma g_tr {A} (m : M A) : tr_pure m -> gtriple e w0 m.
Proof.
  intros Hp. apply (triple_conseq e _ _ _ _ _ _ _ _ _ (triple_tr m Hp)); auto.
  intros; exact I.
Qed.

Lemma g_bind {A B} (m : M A) (k : A -> M B) :
  gtriple e w0 m -> (forall a, gtriple e w0 (k a)) -> gtriple e w0 (bind m k).
Proof. intros Hm Hk. exact (triple_bind e _ m k _ _ _ _ Hm Hk). Qed.

Lemma g_try_excepts_nook {A} (m : M A) cls :
  gtriple e w0 m -> (forall x, okpost (dispatch cls x) (fun _ => False)) ->
  gtriple e w0 (try_excepts m cls).
Proof.
  intros Hm Hh. apply (triple_try_excepts e _ m cls _ any_post); [exact Hm|].
  intros x w _. specialize (Hh x e w).
  destruct (dispatch cls x e w) as [[a|y|c] w']; [exfalso; exact (Hh a w' eq_refl) | exact I | exact I].
Qed.

Lemma g_try_except_nook {A} (m : M A) c h :
  gtriple e w0 m -> (forall x, okpost (h x) (fun _ => False)) ->
  gtriple e w0 (try_except m c h).
Proof.
  intros Hm Hh. unfold try_except. apply g_try_excepts_nook; [exact Hm|].
  intros x. cbn [dispatch]. destruct (c x); [apply Hh | apply okpost_raise].
Qed.

(** A [try] whose body keeps [trace_ok] also when it raises. *)
Lemma g_try_except_keep {A} (m : M A) c h :
  triple e (trace_ok e w0) m (fun _ => trace_ok e w0) (fun _ => trace_ok e w0) any_post ->
  (forall x, gtriple e w0 (h x)) ->
  gtriple e w0 (try_except m c h).
Proof.
  intros Hm Hh. apply (triple_try_except e _ m c h _ (fun _ => trace_ok e w0)); [exact Hm | |].
  - intros x _. apply Hh.
  - intros; exact I.
Qed.

Lemma g_for_each {A} (l : list A) body :
  (forall a, gtriple e w0 (body a)) -> gtriple e w0 (for_each l body).
Proof. intros Hb. apply triple_for_each. intros a _. apply Hb. Qed.

Lemma g_try_finally {A} (m : M A) fin :
  gtriple e w0 m -> gtriple e w0 fin -> gtriple e w0 (try_finally m fin).
Proof.
  intros Hm Hf.
  apply (triple_try_finally e _ m fin (fun _ => trace_ok e w0) any_post any_post);
    [exact Hm | intros _; exact Hf | |];
    intros ? w _; destruct (fin e w) as [[? | ? | ?] ?]; exact I.
Qed.

Lemma triple_sp_run_tr cmd inp X Y :
  triple e (trace_ok e w0) (sp_run cmd inp)
    (fun r w => (fst (fst r) = 0%Z \/ unchecked_cmd cmd = true) -> trace_ok e w0 w) X Y.
Proof.
  intros w Hw. unfold sp_run.
  destruct (Z.eqb_spec (status e (trace w) cmd) 0) as [H0|H0].
  - destruct (cmd_effect e cmd inp (set_trace (cmd :: trace w) w)) as [w2 o] eqn:E.
    intros _. apply (trace_ok_same (set_trace (cmd :: trace w) w)).
    + pose proof (trace_cmd_effect e cmd inp (set_trace (cmd :: trace w) w)) as Ht.
      rewrite E in Ht. exact Ht.
    + apply trace_ok_push; [exact Hw | right; exact H0].
  - intros [H|H]; [contradiction | apply trace_ok_push; [exact Hw | left; exact H]].
Qed.

Lemma g_run_checked cmd inp : gtriple e w0 (run_checked cmd inp).
Proof.
  unfold run_checked.
  apply (triple_bind e _ _ _
           (fun r w => (fst (fst r) = 0%Z \/ unchecked_cmd cmd = true) -> trace_ok e w0 w));
    [apply triple_sp_run_tr|].
  intros [[code o] err]. cbv beta iota. destruct (Z.eqb_spec code 0) as [->|H].
  - apply triple_ret. intros w Hw. apply Hw. left. reflexivity.
  - apply triple_raise. intros; exact I.
Qed.

Lemma triple_run_checked_unchecked cmd inp :
  unchecked_cmd cmd = true ->
  triple e (trace_ok e w0) (run_checked cmd inp)
    (fun _ => trace_ok e w0) (fun _ => trace_ok e w0) any_post.
Proof.
  intros Hu. unfold run_checked.
  apply (triple_bind e _ _ _
           (fun r w => (fst (fst r) = 0%Z \/ unchecked_cmd cmd = true) -> trace_ok e w0 w));
    [apply triple_sp_run_tr|].
  intros [[code o] err]. cbv beta iota. destruct (Z.eqb code 0).
  - apply triple_ret. intros w Hw. apply Hw. right. exact Hu.
  - apply triple_raise. intros w Hw. apply Hw. right. exact Hu.
Qed.

Lemma g_check_output cmd : gtriple e w0 (check_output cmd).
Proof. apply g_run_checked. Qed.

Lemma g_call_unchecked cmd : unchecked_cmd cmd = true -> gtriple e w0 (call cmd).
Proof.
  intros Hu. unfold call.
  apply (triple_bind e _ _ _
           (fun r w => (fst (fst r) = 0%Z \/ unchecked_cmd cmd = true) -> trace_ok e w0 w));
    [apply triple_sp_run_tr|].
  intros [[code o] err]. cbv beta iota. apply triple_ret. intros w Hw. apply Hw. right. exact Hu.
Qed.

Lemma g_run_unchecked cmd : unchecked_cmd cmd = true -> gtriple e w0 (run_unchecked cmd).
Proof.
  intros Hu. unfold run_unchecked.
  apply (triple_bind e _ _ _
           (fun r w => (fst (fst r) = 0%Z \/ unchecked_cmd cmd = true) -> trace_ok e w0 w));
    [apply triple_sp_run_tr|].
  intros r. apply triple_ret. intros w Hw. apply Hw. right. exact Hu.
Qed.

(** The [sudo cp] of [backup_file] is run with [subprocess.run] and no
    [check]; the properties below are stated for runs where it succeeds. *)
Hypothesis cp_ok : forall h args, status e h ("sudo" :: "cp" :: args) = 0%Z.

Lemma g_run_cp args : gtriple e w0 (run_unchecked ("sudo" :: "cp" :: args)).
Proof.
  unfold run_unchecked.
  apply (triple_bind e _ _ _ (fun _ => trace_ok e w0));
    [| intros r; apply triple_ret; intros w Hw; exact Hw].
  intros w Hw. unfold sp_run. cbv zeta. rewrite cp_ok. cbn [Z.eqb].
  set (cmd := "sudo" :: "cp" :: args).
  destruct (cmd_effect e cmd "" (set_trace (cmd :: trace w) w)) as [w2 o] eqn:E.
  apply (trace_ok_same (set_trace (cmd :: trace w) w)).
  - pose proof (trace_cmd_effect e cmd "" (set_trace (cmd :: trace w) w)) as Ht.
    rewrite E in Ht. exact Ht.
  - apply trace_ok_push; [exact Hw | right; apply cp_ok].
Qed.

(** [if subprocess.call(cmd) != 0: self.fail(msg)] *)
Lemma g_call_check {A} cmd msg (k : M A) :
  gtriple e w0 k ->
  gtriple e w0 (code <- call cmd ;;
                (if negb (Z.eqb code 0) then fail msg None else ret tt) ;; k).
Proof.
  intros Hk.
  apply (triple_bind e _ _ _ (fun code w => code = 0%Z -> trace_ok e w0 w)).
  - unfold call.
    apply (triple_bind e _ _ _
             (fun r w => (fst (fst r) = 0%Z \/ unchecked_cmd cmd = true) -> trace_ok e w0 w));
      [apply triple_sp_run_tr|].
    intros [[code o] err]. cbv beta iota. apply triple_ret. intros w Hw H0. apply Hw. left. exact H0.
  - intros code. destruct (Z.eqb_spec code 0) as [->|H]; cbn [negb].
    + apply (triple_bind e _ _ _ (fun _ => trace_ok e w0)); [|intros _; exact Hk].
      apply triple_ret. intros w Hw. apply Hw. reflexivity.
    + apply (triple_bind e _ _ _ (fun _ _ => False)); [|intros _ w []].
      apply triple_fail. intros; exact I.
Qed.

Ltac nook_tac :=
  repeat first
    [ okpost_step
    | progress cbn [dispatch]
    | match goal with
      | |- okpost (if ?b then _ else _) _ => destruct b
      | |- okpost (match ?x with _ => _ end) _ => destruct x
      end ].

Create HintDb gtr.
#[local] Hint Resolve g_run_checked g_check_output : gtr.
#[local] Hint Extern 1 (gtriple _ _ (call _)) => apply g_call_unchecked; reflexivity : gtr.
#[local] Hint Extern 1 (gtriple _ _ (run_unchecked _)) =>
  first [apply g_run_unchecked; reflexivity | apply g_run_cp] : gtr.

(** Take apart a program down to steps known to keep [trace_ok]. *)
Ltac g_walk :=
  repeat first
    [ match goal with |- forall _ : _, _ => intro end
    | solve [auto with gtr]
    | solve [apply g_tr; tr_walk]
    | apply g_call_check
    | apply g_bind
    | apply g_try_except_nook; [| intros ?; solve [nook_tac]]
    | apply g_try_excepts_nook; [| intros ?; solve [nook_tac]]
    | apply g_for_each
    | apply g_try_finally
    | match goal with
      | |- gtriple _ _ (if ?b then _ else _) => destruct b
      | |- gtriple _ _ (match ?x with _ => _ end) => destruct x
      | |- gtriple _ _ (let _ := _ in _) => cbv zeta
      end ].

Lemma g_run_subprocess cmd msg : gtriple e w0 (run_subprocess cmd msg).
Proof. unfold run_subprocess. g_walk. Qed.
#[local] Hint Resolve g_run_subprocess : gtr.

Lemma g_unmount mp : gtriple e w0 (unmount mp).
Proof. unfold unmount. g_walk. Qed.

Lemma g_mount_iso iso mp : gtriple e w0 (mount_iso iso mp).
Proof. unfold mount_iso. g_walk. Qed.

Lemma g_mount_wim wim idx : gtriple e w0 (mount_wim wim idx).
Proof.
  unfold mount_wim. g_walk.
  apply g_try_except_keep.
  - apply (triple_bind e _ _ _ (fun _ => trace_ok e w0)).
    + apply triple_run_checked_unchecked. reflexivity.
    + intros _. apply triple_tr, tr_pure_log.
  - intros x. destruct x; g_walk.
Qed.

Lemma g_unmount_wim : gtriple e w0 unmount_wim.
Proof. unfold unmount_wim. g_walk. Qed.

#[local] Hint Resolve g_unmount g_mount_iso g_mount_wim g_unmount_wim : gtr.

Lemma g_copy_virtio_drivers v : gtriple e w0 (copy_virtio_drivers v).
Proof. unfold copy_virtio_drivers. g_walk. Qed.

Lemma g_copy_windows_files v : gtriple e w0 (copy_windows_files v).
Proof. unfold copy_windows_files. g_walk. Qed.

Lemma g_add_drivers : gtriple e w0 add_drivers_to_windows_boot_images.
Proof. unfold add_drivers_to_windows_boot_images. g_walk. Qed.

Lemma g_generate_custom_iso : gtriple e w0 generate_custom_iso.
Proof. unfold generate_custom_iso. g_walk. Qed.

#[local] Hint Resolve g_copy_virtio_drivers g_copy_windows_files g_add_drivers
  g_generate_custom_iso : gtr.

Lemma g_create_custom_iso win virtio : gtriple e w0 (create_custom_iso win virtio).
Proof. unfold create_custom_iso. g_walk. Qed.

Lemma g_cleanup_temp_dirs : gtriple e w0 cleanup_temp_dirs.
Proof. unfold cleanup_temp_dirs. g_walk. Qed.

Lemma g_get_redirected_url u : gtriple e w0 (get_redirected_url u).
Proof. unfold get_redirected_url. g_walk. Qed.

#[local] Hint Resolve g_create_custom_iso g_cleanup_temp_dirs g_get_redirected_url : gtr.

Lemma g_create_iso_with_virtio p : gtriple e w0 (create_iso_with_virtio_from_user_iso p).
Proof. unfold create_iso_with_virtio_from_user_iso. g_walk. Qed.

Lemma g_handle_downloaded_iso : gtriple e w0 handle_downloaded_iso.
Proof. unfold handle_downloaded_iso. g_walk. Qed.

#[local] Hint Resolve g_create_iso_with_virtio g_handle_downloaded_iso : gtr.

Lemma g_dispatch_choice c p : gtriple e w0 (dispatch_choice c p).
Proof. unfold dispatch_choice. g_walk. Qed.

Lemma g_all_installed l : gtriple e w0 (all_installed l).
Proof. induction l as [|p l IH]; cbn [all_installed]; g_walk. Qed.

#[local] Hint Resolve g_all_installed : gtr.

Lemma g_install_packages l : gtriple e w0 (install_packages l).
Proof. unfold install_packages. g_walk. Qed.

Lemma g_sudo_cat_read p : gtriple e w0 (sudo_cat_read p).
Proof. unfold sudo_cat_read. g_walk. Qed.

Lemma g_sudo_tee_write p c : gtriple e w0 (sudo_tee_write p c).
Proof. unfold sudo_tee_write. g_walk. Qed.

Lemma g_backup_file p : gtriple e w0 (backup_file p).
Proof. unfold backup_file. g_walk. Qed.

#[local] Hint Resolve g_sudo_cat_read g_sudo_tee_write g_backup_file : gtr.

Lemma g_modify_config p s r : gtriple e w0 (modify_config p s r).
Proof. unfold modify_config. g_walk. Qed.

#[local] Hint Resolve g_modify_config : gtr.

Lemma g_setup_libvirt : gtriple e w0 setup_libvirt.
Proof.
  unfold setup_libvirt, add_user_to_libvirt_and_kvm_groups, modify_and_backup_libvirt_config,
    manage_libvirtd_service, modify_and_backup_qemu_config, restart_libvirtd_service,
    enable_virsh_default_network.
  g_walk.
Qed.

Lemma g_create_vm n p : gtriple e w0 (create_vm n p).
Proof. unfold create_vm, get_cpu_topology. g_walk. Qed.

#[local] Hint Resolve g_dispatch_choice g_install_packages g_setup_libvirt g_create_vm : gtr.

Lemma g_main : gtriple e w0 main.
Proof. unfold main. g_walk. Qed.

End Checked.

Lemma exits_one_ret {A} (a : A) : exits_one (ret a).
Proof. intros e w c w' H. discriminate H. Qed.

Lemma exits_one_raise {A} x : exits_one (A:=A) (raise x).
Proof. intros e w c w' H. discriminate H. Qed.

Lemma exits_one_fail {A} msg exc : exits_one (A:=A) (fail msg exc).
Proof.
  intros e w c w' H. unfold fail, bind in H.
  destruct exc; injection H as <- _; reflexivity.
Qed.

Lemma exits_one_sys_exit {A} : exits_one (A:=A) (sys_exit 1).
Proof. intros e w c w' H. injection H as <- _. reflexivity. Qed.

Lemma exits_one_bind {A B} (m : M A) (k : A -> M B) :
  exits_one m -> (forall a, exits_one (k a)) -> exits_one (bind m k).
Proof.
  intros Hm Hk e w c w' H. unfold bind in H.
  destruct (m e w) as [[a|x|c0] w1] eqn:E; [exact (Hk a e w1 c w' H) | discriminate H |].
  injection H as <- _. exact (Hm e w c0 w1 E).
Qed.

Lemma exits_one_dispatch {A} (cls : list ((pyexn -> bool) * (pyexn -> M A))) :
  Forall (fun ch => forall x, exits_one (snd ch x)) cls -> forall x, exits_one (dispatch cls x).
Proof.
  induction 1 as [|[c h] cls Hh _ IH]; intros x; cbn.
  - apply exits_one_raise.
  - destruct (c x); [apply Hh | apply IH].
Qed.

Lemma exits_one_try_excepts {A} (m : M A) cls :
  exits_one m -> Forall (fun ch => forall x, exits_one (snd ch x)) cls ->
  exits_one (try_excepts m cls).
Proof.
  intros Hm Hcls e w c w' H. unfold try_excepts in H.
  destruct (m e w) as [[a|x|c0] w1] eqn:E; [discriminate H | |].
  - exact (exits_one_dispatch cls Hcls x e w1 c w' H).
  - injection H as <- _. exact (Hm e w c0 w1 E).
Qed.

Lemma exits_one_try_except {A} (m : M A) c h :
  exits_one m -> (forall x, exits_one (h x)) -> exits_one (try_except m c h).
Proof. intros Hm Hh. apply exits_one_try_excepts; [exact Hm | repeat constructor; exact Hh]. Qed.

Lemma exits_one_try_finally {A} (m : M A) fin :
  exits_one m -> exits_one fin -> exits_one (try_finally m fin).
Proof.
  intros Hm Hf e w c w' H. unfold try_finally in H.
  destruct (m e w) as [r w1] eqn:E.
  destruct (fin e w1) as [[u|x|c0] w2] eqn:F.
  - injection H as -> _. exact (Hm e w c w1 E).
  - discriminate H.
  - injection H as <- _. exact (Hf e w1 c0 w2 F).
Qed.

Lemma exits_one_for_each {A} (l : list A) body :
  (forall a, exits_one (body a)) -> exits_one (for_each l body).
Proof.
  intros Hb. induction l as [|a l IH]; cbn [for_each].
  - apply exits_one_ret.
  - apply exits_one_bind; [apply Hb | intros _; exact IH].
Qed.

Lemma exits_one_sp_run cmd inp : exits_one (sp_run cmd inp).
Proof.
  intros e w c w' H. unfold sp_run in H.
  destruct (Z.eqb (status e (trace w) cmd) 0); [|discriminate H].
  destruct (cmd_effect e cmd inp (set_trace (cmd :: trace w) w)). discriminate H.
Qed.

Ltac head_of t := match t with ?f _ => head_of f | _ => t end.

Create HintDb exone.
#[local] Hint Resolve exits_one_ret exits_one_raise exits_one_fail exits_one_sys_exit
  exits_one_sp_run : exone.

(** Take apart a program down to [sys.exit(1)] and steps that never exit;
    a step of the last kind is unfolded and evaluated. *)
Ltac exits_one_walk :=
  repeat first
    [ match goal with |- forall _ : _, _ => intro end
    | solve [auto with exone]
    | apply exits_one_bind
    | apply exits_one_try_except
    | apply exits_one_try_excepts; [| repeat constructor]
    | apply exits_one_for_each
    | apply exits_one_try_finally
    | progress cbn [snd]
    | match goal with
      | |- exits_one (if ?b then _ else _) => destruct b
      | |- exits_one (match ?x with _ => _ end) => destruct x
      | |- exits_one (let _ := _ in _) => cbv zeta
      end
    | solve [let H := fresh in
             intros ? ? ? ?;
             match goal with |- ?m _ _ = _ -> _ => let h := head_of m in unfold h end;
             cbv beta; destruct_goal_matches; intros H; discriminate H] ].

Lemma exits_one_log_copy_errors x : exits_one (log_copy_errors x).
Proof. destruct x; cbn [log_copy_errors]; exits_one_walk. Qed.

#[local] Hint Resolve exits_one_log_copy_errors : exone.

Lemma exits_one_choice_loop n : exits_one (choice_loop n).
Proof. induction n as [|n IH]; cbn [choice_loop]; unfold choice_round; exits_one_walk. Qed.

Lemma exits_one_print_options i l : exits_one (print_options i l).
Proof. revert i. induction l as [|o l IH]; intros i; cbn [print_options]; exits_one_walk. Qed.

Lemma exits_one_all_installed l : exits_one (all_installed l).
Proof. induction l as [|p l IH]; cbn [all_installed]; unfold call; exits_one_walk. Qed.

Lemma exits_one_run_subprocess cmd msg : exits_one (run_subprocess cmd msg).
Proof. unfold run_subprocess, run_checked. exits_one_walk. Qed.

#[local] Hint Resolve exits_one_choice_loop exits_one_print_options exits_one_all_installed
  exits_one_run_subprocess : exone.

Lemma exits_one_unmount mp : exits_one (unmount mp).
Proof. unfold unmount. exits_one_walk. Qed.

#[local] Hint Resolve exits_one_unmount : exone.

Lemma exits_one_create_custom_iso win virtio : exits_one (create_custom_iso win virtio).
Proof.
  unfold create_custom_iso, prepare_directories_for_custom_iso, copy_virtio_drivers,
    copy_windows_files, add_drivers_to_windows_boot_images, generate_custom_iso,
    record_mounted, mount_iso, mount_wim, unmount_wim, copy_tree, run_checked.
  exits_one_walk.
Qed.

#[local] Hint Resolve exits_one_create_custom_iso : exone.

Lemma exits_one_dispatch_choice c p : exits_one (dispatch_choice c p).
Proof.
  unfold dispatch_choice, handle_user_provided_iso, create_iso_with_virtio_from_user_iso,
    handle_downloaded_iso, cleanup_temp_dirs, get_redirected_url, download_file, chmod,
    check_output, run_checked, call.
  exits_one_walk.
Qed.

Lemma exits_one_setup_libvirt : exits_one setup_libvirt.
Proof.
  unfold setup_libvirt, add_user_to_libvirt_and_kvm_groups, modify_and_backup_libvirt_config,
    manage_libvirtd_service, modify_and_backup_qemu_config, restart_libvirtd_service,
    enable_virsh_default_network, backup_file, modify_config, sudo_cat_read, sudo_tee_write,
    run_checked, run_unchecked.
  exits_one_walk.
Qed.

Lemma exits_one_create_vm n p : exits_one (create_vm n p).
Proof.
  unfold create_vm, get_uefi_path, get_cpu_topology, check_output, run_checked,
    field_or_raise, resource_assessment, auto_or_manual_config, auto_allocation,
    manual_allocation, input_int, validate_allocation, py_floordiv.
  exits_one_walk.
Qed.

#[local] Hint Resolve exits_one_dispatch_choice exits_one_setup_libvirt exits_one_create_vm : exone.

Lemma exits_one_main : exits_one main.
Proof. unfold main, prompt_for_iso_choice, install_packages. exits_one_walk. Qed.

(** C3 (counterexample): not every failing command is fatal.  With every
    [dpkg-query] exiting with status 1, [main] installs the packages and
    ends normally (exit status 0); and a [wimmountrw] exiting with status 1
    is logged with its standard error, after which [mount_wim] returns
    normally with nothing mounted. *)
Lemma failed_commands_not_always_fatal :
  (let e := demo_env dpkg_fails no_copy_fault in
   let w := demo_world demo_host_files ["1"; "~/win10.iso"; "y"] in
   status e [] (dpkg_query "qemu-system-x86") = 1%Z /\
   In (dpkg_query "qemu-system-x86") (trace (snd (main e w))) /\
   exit_status (fst (main e w)) = 0%Z) /\
  (let e := demo_env wim_mount_fails no_copy_fault in
   let w := demo_world [("/tmp/windows0/sources/boot.wim", "wim")] [] in
   let (r, w') := mount_wim "/tmp/windows0/sources/boot.wim" 1 e w in
   status e [] ["sudo"; "wimmountrw"; "/tmp/windows0/sources/boot.wim"; "1"; "/tmp/wim0"] = 1%Z /\
   r = Ok tt /\ ismount_w "/tmp/wim0" w' = false /\
   In (ERROR, "Failed to mount WIM image. Error: error") (logs w')).
Proof.
  split.
  - vm_compute. split; [reflexivity|]. split; [repeat first [left; reflexivity | right] | reflexivity].
  - vm_compute. split; [reflexivity|]. split; [reflexivity|]. split; [reflexivity | repeat first [left; reflexivity | right]].
Qed.

(** C3 (amended): a command run through [run_subprocess] that exits with a
    non-zero status is logged with its standard error and raises
    [Exception(fail_msg)]; every [sys.exit] of the script passes status 1
    (an uncaught exception also ends with status 1); and when [main] ends
    with status 0, every command it ran, other than [dpkg-query] and
    [wimmountrw], exited with status 0. The last part is stated for runs in
    which the [sudo cp] of [backup_file] succeeds: that command's status is
    not checked at all, which is the defect of C4, not an intended
    exception. *)
Theorem checked_command_failure_is_fatal :
  (forall cmd msg e w,
     status e (trace w) cmd <> 0%Z ->
     run_subprocess cmd msg e w =
       (Raise (Exception msg),
        set_logs ((ERROR, "Command failed. Error: " ++ stderr_of e cmd) :: logs w)
          (set_trace (cmd :: trace w) w))) /\
  (forall e w r w',
     main e w = (r, w') ->
     (forall c, r = Exit c -> c = 1%Z) /\
     ((forall h args, status e h ("sudo" :: "cp" :: args) = 0%Z) ->
      exit_status r = 0%Z -> trace_ok e w w')).
Proof.
  split.
  - intros cmd msg e w H.
    unfold run_subprocess, try_except, try_excepts, run_checked, bind, sp_run.
    cbv beta zeta. apply Z.eqb_neq in H. rewrite H.
    cbv beta iota zeta delta [ret raise]. rewrite H. reflexivity.
  - intros e w r w' Hm. split.
    + intros c ->. exact (exits_one_main e w c w' Hm).
    + intros Hcp H0. pose proof (g_main e w Hcp w (trace_ok_refl e w)) as G. rewrite Hm in G.
      destruct r as [u|x|c]; [exact G | discriminate H0 |].
      cbn in H0. rewrite (exits_one_main e w c w' Hm) in H0. discriminate H0.
Qed.

Lemma checked_command_failure_is_fatal_witness :
  let e := demo_env no_failure no_copy_fault in
  let w := demo_world demo_host_files ["1"; "~/win10.iso"; "y"] in
  (forall h args, status e h ("sudo" :: "cp" :: args) = 0%Z) /\
  exit_status (fst (main e w)) = 0%Z /\ trace_ok e w (snd (main e w)) /\
  run_subprocess ["sudo"; "apt"; "update"] "Failed to update package list."
    (demo_env (fun _ => true) no_copy_fault) w =
    (Raise (Exception "Failed to update package list."),
     set_logs ((ERROR, "Command failed. Error: error") :: logs w)
       (set_trace (["sudo"; "apt"; "update"] :: trace w) w)).
Proof.
  intros e w.
  assert (Hcp : forall h args, status e h ("sudo" :: "cp" :: args) = 0%Z) by reflexivity.
  assert (H0 : exit_status (fst (main e w)) = 0%Z) by (vm_compute; reflexivity).
  split; [exact Hcp|]. split; [exact H0|]. split.
  - exact (proj2 (proj2 checked_command_failure_is_fatal e w (fst (main e w)) (snd (main e w))
                    (surjective_pairing _)) Hcp H0).
  - apply (proj1 checked_command_failure_is_fatal). vm_compute. discriminate.
Defined.

(** ** Further methods *)

(** ** Helpers for the remaining methods *)

Ltac split_cmd_matches :=
  repeat match goal with
         | |- context [match ?x with _ => _ end] => is_var x; destruct x
         | |- context [match ?x with _ => _ end] =>
             match x with Ascii _ _ _ _ _ _ _ _ => destruct x end
         end.

Lemma cmd_effect_cat :
  forall e p inp w, cmd_effect e ["sudo"; "cat"; p] inp w = (w, file_or_empty p w).
Proof. intros e p inp w. unfold cmd_effect. split_cmd_matches; reflexivity. Qed.

Lemma cmd_effect_cp :
  forall e a b inp w,
    cmd_effect e ["sudo"; "cp"; a; b] inp w =
      (match lookup a (files w) with
       | Some c => set_files (assign b c (files w)) w
       | None => w
       end, "").
Proof. intros e a b inp w. unfold cmd_effect. split_cmd_matches; reflexivity. Qed.

Lemma sudo_cat_read_eq :
  forall p e w,
    let cmd := ["sudo"; "cat"; p] in
    let code := status e (trace w) cmd in
    let w1 := set_trace (cmd :: trace w) w in
    sudo_cat_read p e w =
      if Z.eqb code 0 then (Ok (file_or_empty p w), w1)
      else (Exit 1, set_logs ((ERROR, "Failed to read " ++ p ++ ". Error: "
                               ++ exn_str (CalledProcessError cmd code (stderr_of e cmd)))
                              :: logs w) w1).
Proof.
  intros p e w cmd code w1. subst cmd code w1.
  unfold sudo_cat_read, try_except, try_excepts, run_checked, bind, sp_run.
  destruct (Z.eqb (status e (trace w) ["sudo"; "cat"; p]) 0) eqn:E.
  - rewrite cmd_effect_cat. reflexivity.
  - cbv beta iota zeta. rewrite E. reflexivity.
Qed.

Lemma sudo_tee_write_eq :
  forall p c e w,
    let cmd := ["sudo"; "tee"; p] in
    let code := status e (trace w) cmd in
    let w1 := set_trace (cmd :: trace w) w in
    sudo_tee_write p c e w =
      if Z.eqb code 0 then (Ok tt, set_files (assign p c (files w)) w1)
      else (Exit 1, set_logs ((ERROR, "Failed to modify " ++ p ++ ". Error: "
                               ++ exn_str (CalledProcessError cmd code (stderr_of e cmd)))
                              :: logs w) w1).
Proof.
  intros p c e w cmd code w1. subst cmd code w1.
  unfold sudo_tee_write, try_except, try_excepts, run_checked, bind, sp_run.
  destruct (Z.eqb (status e (trace w) ["sudo"; "tee"; p]) 0) eqn:E.
  - rewrite cmd_effect_tee. reflexivity.
  - cbv beta iota zeta. rewrite E. reflexivity.
Qed.

Lemma lookup_assign_other :
  forall {A} k k' (v : A) l, k <> k' -> lookup k (assign k' v l) = lookup k l.
Proof.
  intros A k k' v l Hne. unfold assign. cbn.
  destruct (String.eqb_spec k k') as [->|_]; [contradiction|].
  induction l as [|[k2 v2] l IH]; [reflexivity|]. cbn [remove_key].
  destruct (String.eqb_spec k' k2) as [<-|Hne2].
  - rewrite IH. cbn [lookup]. destruct (String.eqb_spec k k'); [contradiction|reflexivity].
  - cbn [lookup]. destruct (k =? k2); [reflexivity|exact IH].
Qed.

Lemma append_length_string :
  forall s t, String.length (s ++ t) = (String.length s + String.length t)%nat.
Proof. induction s as [|c s IH]; intros t; cbn; [reflexivity | rewrite IH; reflexivity]. Qed.

Lemma append_neq_self :
  forall s t, t <> "" -> s <> s ++ t.
Proof.
  intros s t Ht H. apply (f_equal String.length) in H. rewrite append_length_string in H.
  destruct t; [contradiction | cbn in H; lia].
Qed.

(** ** The elevated read and write *)

(** [sudo cat] either returns the file's text (the empty string for a
    missing file) or exits with status 1 after logging the
    [CalledProcessError] text: it never raises, so the
    [raise Exception("Exiting due to failure in reading ...")] after
    [self.fail] is never reached. *)
Theorem sudo_cat_read_result :
  forall p e w,
    let cmd := ["sudo"; "cat"; p] in
    let code := status e (trace w) cmd in
    let w1 := set_trace (cmd :: trace w) w in
    sudo_cat_read p e w =
      if Z.eqb code 0 then (Ok (file_or_empty p w), w1)
      else (Exit 1, set_logs ((ERROR, "Failed to read " ++ p ++ ". Error: "
                               ++ exn_str (CalledProcessError cmd code (stderr_of e cmd)))
                              :: logs w) w1).
Proof. exact sudo_cat_read_eq. Qed.

(** [sudo tee path] with [content] on its input either replaces the file's
    text by exactly [content] and returns, or exits with status 1 after
    logging the [CalledProcessError] text; it never raises. *)
Theorem sudo_tee_write_result :
  forall p c e w,
    let cmd := ["sudo"; "tee"; p] in
    let code := status e (trace w) cmd in
    let w1 := set_trace (cmd :: trace w) w in
    sudo_tee_write p c e w =
      if Z.eqb code 0 then (Ok tt, set_files (assign p c (files w)) w1)
      else (Exit 1, set_logs ((ERROR, "Failed to modify " ++ p ++ ". Error: "
                               ++ exn_str (CalledProcessError cmd code (stderr_of e cmd)))
                              :: logs w) w1).
Proof. exact sudo_tee_write_eq. Qed.

Lemma modify_config_no_raise :
  forall p search repl e w x w', modify_config p search repl e w <> (Raise x, w').
Proof.
  intros p search repl e w x w'. unfold modify_config, try_except, try_excepts, bind.
  rewrite sudo_cat_read_eq. cbv zeta.
  destruct (Z.eqb _ 0); [|discriminate].
  destruct (contains search (file_or_empty p w)).
  - rewrite sudo_tee_write_eq. cbv zeta. destruct (Z.eqb _ 0); discriminate.
  - discriminate.
Qed.

(** [modify_config] never raises an exception: a failed read or write
    exits with status 1 inside [sudo_cat_read] / [sudo_tee_write], so its own
    [except Exception] handler is never entered. *)
Theorem modify_config_never_raises :
  forall p search repl e w, raised (fst (modify_config p search repl e w)) = false.
Proof.
  intros p search repl e w.
  destruct (modify_config p search repl e w) as [[u|x|k] w'] eqn:E; try reflexivity.
  exfalso. exact (modify_config_no_raise _ _ _ _ _ _ _ E).
Qed.

(** ** Backups *)

(** [backup_file] of a path that does not exist logs a warning and returns,
    running no command; of an existing file whose [sudo cp] succeeds, it
    leaves [path.backup] with the file's text and the file itself
    unchanged. *)
Theorem backup_file_result :
  forall p e w,
    (lookup p (files w) = None -> isdir_w p w = false ->
     backup_file p e w =
       (Ok tt, set_logs ((WARNING, "File " ++ p ++ " does not exist, skipping backup.") :: logs w) w)) /\
    (forall c, lookup p (files w) = Some c ->
     status e (trace w) ["sudo"; "cp"; p; p ++ ".backup"] = 0%Z ->
     exists w', backup_file p e w = (Ok tt, w') /\
       lookup (p ++ ".backup") (files w') = Some c /\ lookup p (files w') = Some c /\
       trace w' = ["sudo"; "cp"; p; p ++ ".backup"] :: trace w /\
       logs w' = (INFO, "Backup of " ++ p ++ " created.") :: logs w).
Proof.
  intros p e w. split.
  - intros Hf Hd. unfold backup_file, try_except, try_excepts, bind, path_exists.
    rewrite Hf, Hd. reflexivity.
  - intros c Hf Hs. unfold backup_file, try_except, try_excepts, path_exists, run_unchecked, sp_run, bind.
    rewrite Hf. cbv beta iota zeta. rewrite Hs. cbv beta iota zeta. rewrite cmd_effect_cp. cbn [files set_trace]. rewrite Hf.
    eexists. split; [reflexivity|]. cbn [files set_files set_logs logs trace].
    split; [apply lookup_assign_same|]. split; [|split; reflexivity].
    rewrite lookup_assign_other; [exact Hf|]. apply append_neq_self. discriminate.
Qed.

(** ** Mounting with missing paths *)

(** [mount_iso] with an ISO path that does not exist, or an existing ISO and
    a mount point that does not exist, logs one error and returns normally:
    no command is run, nothing is mounted, and the caller goes on. *)
Theorem mount_iso_missing_path_returns :
  forall iso mp e w,
    (lookup iso (files w) = None -> isdir_w iso w = false ->
     mount_iso iso mp e w =
       (Ok tt, set_logs ((ERROR, "ISO path " ++ iso ++ " does not exist.") :: logs w) w)) /\
    (forall c, lookup iso (files w) = Some c ->
     lookup mp (files w) = None -> isdir_w mp w = false ->
     mount_iso iso mp e w =
       (Ok tt, set_logs ((ERROR, "Mount point " ++ mp ++ " does not exist.") :: logs w) w)).
Proof.
  intros iso mp e w. split.
  - intros Hf Hd. unfold mount_iso, bind, path_exists. rewrite Hf, Hd. reflexivity.
  - intros c Hf Hm Hd. unfold mount_iso, bind, path_exists. rewrite Hf.
    cbv beta iota delta [negb]. rewrite Hm, Hd. reflexivity.
Qed.

(** [mount_wim] of a WIM path that does not exist logs the attempt and an
    error and returns normally, running no command. *)
Theorem mount_wim_missing_path_returns :
  forall wim index e w,
    lookup wim (files w) = None -> isdir_w wim w = false ->
    mount_wim wim index e w =
      (Ok tt, set_logs ((ERROR, "WIM file " ++ wim ++ " does not exist.")
                        :: (INFO, "Mounting WIM image from " ++ wim ++ " at index " ++ zstr index
                                  ++ " to " ++ wimtemp_dir (tmp w))
                        :: logs w) w).
Proof.
  intros wim index e w Hf Hd. unfold mount_wim, get_world, log, modify, bind, path_exists.
  cbn [files set_logs dirs mounts]. rewrite Hf.
  change (isdir_w wim (set_logs ((INFO, "Mounting WIM image from " ++ wim ++ " at index "
            ++ zstr index ++ " to " ++ wimtemp_dir (tmp w)) :: logs w) w) = false) in Hd.
  rewrite Hd. reflexivity.
Qed.

(** ** Copying trees *)

(** [copy_tree] from a source that is not a directory: [shutil.copytree]
    raises [FileNotFoundError], the generic handler iterates over
    [e.args[0]], which is the errno, and the resulting [TypeError] escapes
    [copy_tree]. *)
Theorem copy_tree_missing_source_raises :
  forall src dest e w,
    copy_fault e src dest = None -> isdir_w src w = false ->
    copy_tree src dest e w = (Raise (TypeError "'int' object is not iterable"), w).
Proof.
  intros src dest e w Hf Hd. unfold copy_tree, try_excepts, copytree. rewrite Hf, Hd. reflexivity.
Qed.

(** [copy_tree] logs and absorbs a [FileExistsError] and a
    [PermissionError], returning normally without changing any file; and a
    [shutil.Error] (one log line per failed file, in order), returning
    normally with the files [copytree] managed to copy before raising: every
    file under [src] whose path is not one of the failed sources (or under
    one) is copied to the same relative place under [dest]. *)
Theorem copy_tree_logged_failures :
  forall src dest e w,
    (forall p, copy_fault e src dest = Some (FileExistsError p) ->
       copy_tree src dest e w = (Ok tt, set_logs ((ERROR, dest ++ " already exists.") :: logs w) w)) /\
    (forall p, copy_fault e src dest = Some (PermissionError p) ->
       copy_tree src dest e w =
         (Ok tt, set_logs ((ERROR, "Do not have the necessary permissions to copy to " ++ dest ++ ".")
                           :: logs w) w)) /\
    (forall errs, copy_fault e src dest = Some (ShutilError errs) ->
       exists w', copy_tree src dest e w = (Ok tt, w') /\
         files w' = files (copy_entries src dest
                             (fun p => existsb (fun f => String.eqb f p || under f p)
                                         (map (fun '(s, _, _) => s) errs)) w) /\
         logs w' = app (rev (map (fun '(s, d, m) =>
                                   (ERROR, "Error occurred when copying " ++ s ++ " to " ++ d ++ ": " ++ m))
                                 errs)) (logs w)).
Proof.
  intros src dest e w. split; [|split].
  - intros p Hf. unfold copy_tree, try_excepts, copytree. rewrite Hf. reflexivity.
  - intros p Hf. unfold copy_tree, try_excepts, copytree. rewrite Hf. reflexivity.
  - intros errs Hf. unfold copy_tree, try_excepts, copytree. rewrite Hf. cbn [dispatch].
    cbv beta iota delta [is_FileExistsError is_PermissionError any_exception log_copy_errors].
    set (wc := copy_entries _ _ _ w).
    assert (Hl : logs wc = logs w) by reflexivity.
    assert (Hg : forall l w0, exists w',
      for_each l (fun '(s, d, m) =>
        log ERROR ("Error occurred when copying " ++ s ++ " to " ++ d ++ ": " ++ m)) e w0 = (Ok tt, w') /\
      files w' = files w0 /\
      logs w' = app (rev (map (fun '(s, d, m) =>
                                (ERROR, "Error occurred when copying " ++ s ++ " to " ++ d ++ ": " ++ m))
                              l)) (logs w0)).
    { induction l as [|[[s d] m] l IH]; intros w0.
      - eexists. split; [reflexivity|]. split; reflexivity.
      - cbn [for_each]. unfold bind at 1, log at 1, modify at 1.
        destruct (IH (set_logs ((ERROR, "Error occurred when copying " ++ s ++ " to " ++ d ++ ": " ++ m)
                                 :: logs w0) w0)) as [w' [H1 [H2 H3]]].
        exists w'. split; [exact H1|]. split; [exact H2|].
        rewrite H3. cbn [map rev logs set_logs]. rewrite <- app_assoc. reflexivity. }
    destruct (Hg errs wc) as [w' [H1 [H2 H3]]].
    exists w'. split; [exact H1|]. split; [exact H2|]. rewrite H3, Hl. reflexivity.
Qed.

(** ** Resources *)

Lemma resource_assessment_eq :
  forall e w,
    resource_assessment e w =
      match meminfo_available_kb e with
      | Some kb =>
          match statvfs_images e with
          | inr free => (Ok (kb / 1024, cpu_count e, free / 1073741824)%Z, w)
          | inl x =>
              (Exit 1, set_logs ((ERROR, "Failed to assess system resources. Error: " ++ exn_str x)
                                 :: logs w) w)
          end
      | None =>
          (Exit 1, set_logs ((ERROR, "Failed to assess system resources. Error: 'MemAvailable'")
                             :: logs w) w)
      end.
Proof.
  intros e w. unfold resource_assessment, try_except, try_excepts, bind, get_env. cbv beta iota.
  destruct (meminfo_available_kb e); [destruct (statvfs_images e)|]; reflexivity.
Qed.

Lemma auto_allocation_fst :
  forall r c d e w, fst (auto_allocation r c d e w) = Ok (r / 2, c / 2, d / 2)%Z.
Proof. intros r c d e w. reflexivity. Qed.

(** [resource_assessment] reads RAM as [MemAvailable] kB floor-divided by
    1024 (MiB), the CPU count as [os.cpu_count()], and the disk as the free
    bytes of the image store floor-divided by 1024^3 (whole GiB), changing
    nothing; without a [MemAvailable] entry it logs the [KeyError], and when
    [os.statvfs] of the image store fails it logs that error, exiting with
    status 1 in both cases. *)
Theorem resource_assessment_result :
  forall e w,
    resource_assessment e w =
      match meminfo_available_kb e with
      | Some kb =>
          match statvfs_images e with
          | inr free => (Ok (kb / 1024, cpu_count e, free / 1073741824)%Z, w)
          | inl x =>
              (Exit 1, set_logs ((ERROR, "Failed to assess system resources. Error: " ++ exn_str x)
                                 :: logs w) w)
          end
      | None =>
          (Exit 1, set_logs ((ERROR, "Failed to assess system resources. Error: 'MemAvailable'")
                             :: logs w) w)
      end.
Proof. exact resource_assessment_eq. Qed.

(** [check_disk_space] exits with status 1 exactly when the free space is
    below 7 GiB (7516192768 bytes), and also when [os.statvfs] fails; at or
    above the threshold it returns and changes nothing. *)
Theorem check_disk_space_threshold :
  forall statvfs d e w,
    (forall free, statvfs d = inr free ->
       check_disk_space statvfs d e w =
         if (free <? 7516192768)%Z
         then (Exit 1, set_logs ((ERROR, "Not enough disk space. Please clear at least 7GB.")
                                 :: logs w) w)
         else (Ok tt, w)) /\
    (forall x, statvfs d = inl x ->
       check_disk_space statvfs d e w =
         (Exit 1, set_logs ((ERROR, "Failed to check disk space. Error: " ++ exn_str x) :: logs w) w)).
Proof.
  intros statvfs d e w. split.
  - intros free H. unfold check_disk_space, try_except, try_excepts. rewrite H. cbv zeta.
    change (MIN_REQUIRED_SPACE_GB * 1024 * 1024 * 1024)%Z with 7516192768%Z.
    destruct (free <? 7516192768)%Z; reflexivity.
  - intros x H. unfold check_disk_space, try_except, try_excepts. rewrite H. reflexivity.
Qed.

(** [validate_resource_allocation] assesses the resources again and exits
    with status 1 when some dimension exceeds what is available then (or
    when the assessment fails, [MemAvailable] missing or [os.statvfs] of the
    image store failing); otherwise it returns normally. *)
Theorem validate_resource_allocation_result :
  forall r c d e w,
    fst (validate_resource_allocation r c d e w) =
      match meminfo_available_kb e with
      | None => Exit 1
      | Some kb =>
          match statvfs_images e with
          | inl _ => Exit 1
          | inr free =>
              if (kb / 1024 <? r)%Z || (cpu_count e <? c)%Z || (free / 1073741824 <? d)%Z
              then Exit 1 else Ok tt
          end
      end.
Proof.
  intros r c d e w. unfold validate_resource_allocation, bind. rewrite resource_assessment_eq.
  destruct (meminfo_available_kb e); [|reflexivity].
  destruct (statvfs_images e); [reflexivity|]. cbv beta iota.
  destruct (_ || _ || _); reflexivity.
Qed.

(** [validate_uefi_path] fails when /etc/os-release is missing or has no
    "ID=" line (an uncaught exception), exits with status 1 when the ID is
    not in the supported list or the OVMF firmware file is missing, and
    otherwise returns normally. *)
Theorem validate_uefi_path_result :
  forall e w,
    fst (validate_uefi_path e w) =
      match lookup "/etc/os-release" (files w) with
      | None => Raise (FileNotFoundError "/etc/os-release")
      | Some text =>
          match os_release_id text with
          | None => Raise (AttributeError "'NoneType' object has no attribute 'group'")
          | Some id =>
              if str_in id SUPPORTED_DISTROS
                 && match lookup OVMF_PATH (files w) with Some _ => true | None => false end
              then Ok tt else Exit 1
          end
      end.
Proof.
  intros e w. unfold validate_uefi_path, get_uefi_path, bind, read_file.
  destruct (lookup "/etc/os-release" (files w)) as [text|]; [|reflexivity].
  destruct (os_release_id text) as [id|]; [|reflexivity].
  destruct (str_in id SUPPORTED_DISTROS); [|reflexivity]. cbn [andb].
  unfold ret at 1, isfile. cbv beta iota zeta. destruct (lookup OVMF_PATH (files w)); reflexivity.
Qed.

(** [allocate_resources] with an answer that lowercases to exactly "y"
    returns half of each assessed quantity (floor division). *)
Theorem allocate_resources_auto :
  forall kb free a rest e w,
    meminfo_available_kb e = Some kb -> statvfs_images e = inr free ->
    stdin w = a :: rest -> lower a = "y" ->
    fst (allocate_resources e w) =
      Ok (kb / 1024 / 2, cpu_count e / 2, free / 1073741824 / 2)%Z.
Proof.
  intros kb free a rest e w Hkb Hfree Hin Ha. unfold allocate_resources, bind at 1.
  rewrite resource_assessment_eq, Hkb, Hfree. cbv beta iota.
  unfold auto_or_manual_config, bind at 1, input. rewrite Hin. cbv beta iota.
  rewrite Ha. apply auto_allocation_fst.
Qed.

(** [manual_allocation] reading three lines returns the three integers they
    parse to when none exceeds its availability (zero and negative values
    included); a line that is not an integer, or a value above its
    availability, exits with status 1. *)
Theorem manual_allocation_result :
  forall ar ac ad s1 s2 s3 rest e w,
    stdin w = s1 :: s2 :: s3 :: rest ->
    fst (manual_allocation ar ac ad e w) =
      match py_int s1, py_int s2, py_int s3 with
      | Some n1, Some n2, Some n3 =>
          if (ar <? n1)%Z || (ac <? n2)%Z || (ad <? n3)%Z then Exit 1 else Ok (n1, n2, n3)
      | _, _, _ => Exit 1
      end.
Proof.
  intros ar ac ad s1 s2 s3 rest e w Hin.
  unfold manual_allocation, try_except, try_excepts, input_int, bind, input. rewrite Hin.
  cbn [stdin set_stdin set_out].
  destruct (py_int s1) as [n1|]; [|reflexivity]. cbn [ret stdin set_stdin set_out].
  destruct (py_int s2) as [n2|]; [|reflexivity]. cbn [ret stdin set_stdin set_out].
  destruct (py_int s3) as [n3|]; [|reflexivity]. cbn [ret stdin set_stdin set_out].
  destruct (_ || _ || _); reflexivity.
Qed.

(** ** Downloads *)

Lemma is_dir_path_set_logs :
  forall p l w, is_dir_path p (set_logs l w) = is_dir_path p w.
Proof. reflexivity. Qed.

Lemma parent_exists_set_logs :
  forall p l w, parent_exists p (set_logs l w) = parent_exists p w.
Proof. reflexivity. Qed.

Lemma download_file_ok :
  forall url dest c e w,
    url_content e url = Some c ->
    is_dir_path (path_str dest) w = false -> parent_exists (path_str dest) w = true ->
    download_file url dest e w =
      (Ok tt, set_logs ((INFO, "Successfully downloaded from " ++ url ++ " to " ++ path_str dest ++ ".")
                        :: (DEBUG, "Debug: Downloading file from " ++ url ++ " to " ++ path_str dest ++ ".")
                        :: logs w)
                (set_files (assign (path_str dest) c (files w)) w)).
Proof.
  intros url dest c e w Hc Hd Hp.
  unfold download_file, try_except, try_excepts, bind, log, modify, urlretrieve. cbv zeta.
  rewrite Hc. rewrite is_dir_path_set_logs, parent_exists_set_logs, Hd, Hp. cbn [negb].
  unfold path_exists. cbn [files set_files set_logs]. rewrite lookup_assign_same.
  reflexivity.
Qed.

(** [download_file] saves what the URL serves at [str(Path(dest))] and
    returns normally, running no command, when that path is not a directory
    and its parent directory exists; when the fetch fails, when the path is
    a directory, or when its parent directory is missing, it logs the error
    and exits with status 1. *)
Theorem download_file_result :
  forall url dest e w,
    let d := path_str dest in
    (forall c, url_content e url = Some c -> is_dir_path d w = false -> parent_exists d w = true ->
       exists w', download_file url dest e w = (Ok tt, w') /\
         lookup d (files w') = Some c /\ trace w' = trace w) /\
    (url_content e url = None \/ is_dir_path d w = true \/ parent_exists d w = false ->
       fst (download_file url dest e w) = Exit 1).
Proof.
  intros url dest e w d. subst d. split.
  - intros c Hc Hd Hp. rewrite (download_file_ok url dest c e w Hc Hd Hp).
    eexists. split; [reflexivity|]. split; [apply lookup_assign_same | reflexivity].
  - intros H. unfold download_file, try_except, try_excepts, bind, log, modify, urlretrieve.
    cbv zeta. cbn [files set_files set_logs].
    destruct H as [H | [H | H]].
    + rewrite H. reflexivity.
    + rewrite is_dir_path_set_logs, H. destruct (url_content e url); reflexivity.
    + rewrite is_dir_path_set_logs, parent_exists_set_logs, H.
      destruct (url_content e url); [|reflexivity].
      destruct (is_dir_path (path_str dest) w); reflexivity.
Qed.

Lemma cmd_effect_dpkg :
  forall e p inp w, cmd_effect e (dpkg_query p) inp w = (w, stdout_of e (dpkg_query p)).
Proof. intros e p inp w. unfold cmd_effect, dpkg_query. split_cmd_matches; reflexivity. Qed.

Lemma cmd_effect_systemctl :
  forall e a inp w,
    cmd_effect e ["sudo"; "systemctl"; a; "libvirtd"] inp w =
      (w, stdout_of e ["sudo"; "systemctl"; a; "libvirtd"]).
Proof. intros e a inp w. unfold cmd_effect. split_cmd_matches; reflexivity. Qed.

Lemma cmd_effect_curl :
  forall e u inp w,
    let cmd := ["curl"; "-sIL"; "-o"; "/dev/null"; "-w"; "%{url_effective}"; u] in
    cmd_effect e cmd inp w = (w, stdout_of e cmd).
Proof. intros e u inp w cmd. subst cmd. unfold cmd_effect. split_cmd_matches; reflexivity. Qed.

(** [get_redirected_url] returns curl's standard output with surrounding
    whitespace stripped when curl exits with status 0, and exits with
    status 1 otherwise. *)
Theorem get_redirected_url_result :
  forall url e w,
    let cmd := ["curl"; "-sIL"; "-o"; "/dev/null"; "-w"; "%{url_effective}"; url] in
    fst (get_redirected_url url e w) =
      if Z.eqb (status e (trace w) cmd) 0 then Ok (py_strip (stdout_of e cmd)) else Exit 1.
Proof.
  intros url e w cmd. subst cmd.
  unfold get_redirected_url, try_except, try_excepts, check_output, run_checked, sp_run, bind,
    log, modify.
  cbn [trace set_logs].
  destruct (Z.eqb (status e (trace w) _) 0) eqn:E.
  - rewrite cmd_effect_curl. reflexivity.
  - cbv beta iota zeta. rewrite E. reflexivity.
Qed.

(** When the URL curl reports has a path ending in "/", the file name
    [os.path.basename(urlsplit(url).path)] is empty, [Path("")] is the
    current directory ".", and [download_file] of the VirtIO ISO under that
    name exits with status 1 (the fetch fails, or [urlretrieve] cannot open
    a directory for writing), whatever the URL serves. *)
Theorem download_empty_basename_exits :
  forall url e w,
    url_basename url = "" ->
    fst (download_file url (url_basename url) e w) = Exit 1.
Proof.
  intros url e w H. rewrite H.
  unfold download_file, try_except, try_excepts, bind, log, modify, urlretrieve.
  cbv zeta. cbn [files set_files set_logs].
  destruct (url_content e url); reflexivity.
Qed.

(** ** Packages and services *)

Lemma set_trace_same : forall w, set_trace (trace w) w = w.
Proof. intros []. reflexivity. Qed.

Lemma all_installed_prefix :
  forall pre rest e w,
    (forall h q, In q pre -> status e h (dpkg_query q) = 0%Z) ->
    all_installed (pre ++ rest) e w =
      all_installed rest e (set_trace (rev (map dpkg_query pre) ++ trace w) w).
Proof.
  induction pre as [|q pre IH]; intros rest e w Hok.
  { cbn [app rev map]. rewrite set_trace_same. reflexivity. }
  cbn [app all_installed]. unfold bind at 1, call, bind at 1, sp_run.
  rewrite (Hok _ q (or_introl eq_refl)). cbn [Z.eqb]. rewrite cmd_effect_dpkg.
  cbv beta iota delta [ret]. cbn [Z.eqb].
  rewrite IH by (intros h q' Hq'; apply Hok; right; exact Hq').
  cbn [trace set_trace rev map]. rewrite <- app_assoc. reflexivity.
Qed.

Lemma all_installed_all :
  forall ps e w,
    (forall h q, In q ps -> status e h (dpkg_query q) = 0%Z) ->
    all_installed ps e w = (Ok true, set_trace (rev (map dpkg_query ps) ++ trace w) w).
Proof.
  intros ps e w Hok. pose proof (all_installed_prefix ps [] e w Hok) as H.
  rewrite app_nil_r in H. rewrite H. reflexivity.
Qed.

Lemma all_installed_stop :
  forall pre p post e w,
    (forall h q, In q pre -> status e h (dpkg_query q) = 0%Z) ->
    (forall h, status e h (dpkg_query p) <> 0%Z) ->
    all_installed (pre ++ p :: post) e w =
      (Ok false, set_trace (dpkg_query p :: rev (map dpkg_query pre) ++ trace w) w).
Proof.
  intros pre p post e w Hok Hp. rewrite (all_installed_prefix pre (p :: post) e w Hok).
  cbn [all_installed]. unfold bind at 1, call, bind at 1, sp_run.
  destruct (Z.eqb_spec (status e (trace (set_trace (rev (map dpkg_query pre) ++ trace w) w))
                         (dpkg_query p)) 0) as [E|E]; [exact (False_ind _ (Hp _ E))|].
  cbv beta iota zeta delta [ret]. apply Z.eqb_neq in E. rewrite E. reflexivity.
Qed.

Lemma run_subprocess_ok :
  forall cmd msg e w,
    status e (trace w) cmd = 0%Z ->
    run_subprocess cmd msg e w = (Ok tt, fst (cmd_effect e cmd "" (set_trace (cmd :: trace w) w))).
Proof.
  intros cmd msg e w H. unfold run_subprocess, try_except, try_excepts, run_checked, bind, sp_run.
  rewrite H. cbv beta iota zeta. destruct (cmd_effect e cmd "" (set_trace (cmd :: trace w) w)).
  reflexivity.
Qed.

(** [install_packages] queries the packages in order with [dpkg-query] and
    stops at the first query that exits non-zero.  When every query exits 0
    it runs no other command; otherwise it runs [sudo apt update] and then
    [sudo apt install -y] with the whole package list. *)
Theorem install_packages_commands :
  forall ps e w,
    ((forall h q, In q ps -> status e h (dpkg_query q) = 0%Z) ->
     exists w', install_packages ps e w = (Ok tt, w') /\
       trace w' = (rev (map dpkg_query ps) ++ trace w)%list) /\
    (forall pre p post, ps = (pre ++ p :: post)%list ->
     (forall h q, In q pre -> status e h (dpkg_query q) = 0%Z) ->
     (forall h, status e h (dpkg_query p) <> 0%Z) ->
     (forall h, status e h ["sudo"; "apt"; "update"] = 0%Z) ->
     (forall h, status e h (["sudo"; "apt"; "install"; "-y"] ++ ps)%list = 0%Z) ->
     exists w', install_packages ps e w = (Ok tt, w') /\
       trace w' = ((["sudo"; "apt"; "install"; "-y"] ++ ps)%list :: ["sudo"; "apt"; "update"]
                   :: dpkg_query p :: rev (map dpkg_query pre) ++ trace w)%list).
Proof.
  intros ps e w. split.
  - intros Hok. unfold install_packages, bind, log, modify.
    rewrite all_installed_all by exact Hok. cbv beta iota.
    eexists. split; [reflexivity|]. reflexivity.
  - intros pre p post Hps Hok Hp Hu Hi. unfold install_packages, bind at 1 2 3, log, modify.
    subst ps. rewrite all_installed_stop by assumption. cbv beta iota.
    unfold bind, log, modify. cbn [negb].
    rewrite run_subprocess_ok by apply Hu. cbv beta iota.
    rewrite run_subprocess_ok by apply Hi. cbv beta iota.
    eexists. split; [reflexivity|]. reflexivity.
Qed.

Lemma run_subprocess_fail :
  forall cmd msg e w,
    status e (trace w) cmd <> 0%Z ->
    run_subprocess cmd msg e w =
      (Raise (Exception msg),
       set_logs ((ERROR, "Command failed. Error: " ++ stderr_of e cmd) :: logs w)
         (set_trace (cmd :: trace w) w)).
Proof.
  intros cmd msg e w H.
  unfold run_subprocess, try_except, try_excepts, run_checked, bind, sp_run.
  cbv beta zeta. apply Z.eqb_neq in H. rewrite H.
  cbv beta iota zeta delta [ret raise]. rewrite H. reflexivity.
Qed.

Lemma manage_libvirtd_prefix :
  forall pre rest e w,
    (forall h a, In a pre -> status e h ["sudo"; "systemctl"; a; "libvirtd"] = 0%Z) ->
    manage_libvirtd_service (pre ++ rest) e w =
      manage_libvirtd_service rest e
        (set_trace (rev (map (fun a => ["sudo"; "systemctl"; a; "libvirtd"]) pre) ++ trace w) w).
Proof.
  induction pre as [|a pre IH]; intros rest e w Hok.
  { cbn [app rev map]. rewrite set_trace_same. reflexivity. }
  unfold manage_libvirtd_service. cbn [app for_each]. unfold bind at 1.
  rewrite run_subprocess_ok by (apply Hok; left; reflexivity).
  rewrite cmd_effect_systemctl. cbn [fst].
  fold (manage_libvirtd_service (pre ++ rest)).
  rewrite IH by (intros h b Hb; apply Hok; right; exact Hb).
  cbn [trace set_trace rev map]. rewrite <- app_assoc. reflexivity.
Qed.

(** [manage_libvirtd_service] runs [sudo systemctl <action> libvirtd] for
    the actions in order.  When all exit 0 it returns normally; the first
    one that exits non-zero raises [Exception("Failed to <action> the
    libvirtd service.")] and the later actions are not run. *)
Theorem manage_libvirtd_service_commands :
  forall acts e w,
    ((forall h a, In a acts -> status e h ["sudo"; "systemctl"; a; "libvirtd"] = 0%Z) ->
     exists w', manage_libvirtd_service acts e w = (Ok tt, w') /\
       trace w' = (rev (map (fun a => ["sudo"; "systemctl"; a; "libvirtd"]) acts) ++ trace w)%list) /\
    (forall pre a post, acts = (pre ++ a :: post)%list ->
     (forall h b, In b pre -> status e h ["sudo"; "systemctl"; b; "libvirtd"] = 0%Z) ->
     (forall h, status e h ["sudo"; "systemctl"; a; "libvirtd"] <> 0%Z) ->
     exists w', manage_libvirtd_service acts e w =
                  (Raise (Exception ("Failed to " ++ a ++ " the libvirtd service.")), w') /\
       trace w' = (["sudo"; "systemctl"; a; "libvirtd"]
                   :: rev (map (fun b => ["sudo"; "systemctl"; b; "libvirtd"]) pre) ++ trace w)%list).
Proof.
  intros acts e w. split.
  - intros Hok. pose proof (manage_libvirtd_prefix acts [] e w Hok) as H.
    rewrite app_nil_r in H. rewrite H. eexists. split; reflexivity.
  - intros pre a post -> Hok Ha. rewrite (manage_libvirtd_prefix pre (a :: post) e w Hok).
    unfold manage_libvirtd_service. cbn [for_each]. unfold bind at 1.
    rewrite run_subprocess_fail by apply Ha. eexists. split; reflexivity.
Qed.

(** ** Downloading Windows *)

(** [handle_downloaded_iso], once Mido.sh is downloaded (the URL serves it
    and no directory named Mido.sh is in the way), exits with status 1
    when [./Mido.sh win10x64] exits non-zero, and also when it exits 0 but
    leaves no win10x64.iso; in both cases no later step (VirtIO download,
    ISO build) is run. *)
Theorem handle_downloaded_iso_mido_checks :
  forall c e w,
    url_content e "https://raw.githubusercontent.com/ElliotKillick/Mido/main/Mido.sh" = Some c ->
    is_dir_path "Mido.sh" w = false ->
    ((forall h, status e h ["./Mido.sh"; "win10x64"] <> 0%Z) ->
     exists w', handle_downloaded_iso e w = (Exit 1, w') /\
       hd (DEBUG, "") (logs w') = (ERROR, "Failed to download Windows 10 ISO.") /\
       trace w' = ["./Mido.sh"; "win10x64"] :: trace w) /\
    ((forall h, status e h ["./Mido.sh"; "win10x64"] = 0%Z) ->
     mido_iso e = None -> lookup "win10x64.iso" (files w) = None ->
     exists w', handle_downloaded_iso e w = (Exit 1, w') /\
       hd (DEBUG, "") (logs w') = (ERROR, "win10x64.iso not found. Something went wrong.") /\
       trace w' = ["./Mido.sh"; "win10x64"] :: trace w).
Proof.
  intros c e w Hc Hd. split; [intros Hm | intros Hm Hn Hf];
  unfold handle_downloaded_iso; unfold bind at 1, log at 1, modify at 1;
  unfold bind at 1; rewrite (download_file_ok _ _ c) by first [exact Hc | exact Hd | reflexivity];
  change (path_str "Mido.sh") with "Mido.sh";
  unfold bind at 1, log at 1, modify at 1;
  unfold bind at 1, chmod, bind at 1, path_exists;
  cbn [files set_logs set_files]; rewrite lookup_assign_same; cbv beta iota delta [ret];
  unfold bind at 1, call, bind at 1, sp_run; cbn [trace set_logs set_files].
  -     destruct (Z.eqb_spec (status e (trace w) ["./Mido.sh"; "win10x64"]) 0) as [E|E];
      [exfalso; exact (Hm _ E)|].
    cbv beta iota zeta delta [ret]. apply Z.eqb_neq in E. rewrite E.
    cbv beta iota delta [negb fail bind log modify sys_exit].
    eexists. split; [reflexivity|]. split; reflexivity.
  - rewrite Hm. cbv beta iota zeta.
    unfold cmd_effect. cbv beta iota. rewrite Hn.
    cbv beta iota delta [ret negb Z.eqb]. unfold bind, isfile.
    cbv beta iota zeta. cbn [files set_logs set_files set_trace].
    rewrite lookup_assign_other by discriminate. rewrite Hf.
    cbv beta iota delta [negb fail bind log modify sys_exit].
    eexists. split; [reflexivity|]. split; reflexivity.
Qed.

(** ** ISO selection *)


Lemma keeps_files_ret {A} (a : A) : keeps_files (ret a).
Proof. intros e w r w' H. injection H as _ <-. reflexivity. Qed.

Lemma keeps_files_raise {A} x : keeps_files (A:=A) (raise x).
Proof. intros e w r w' H. injection H as _ <-. reflexivity. Qed.

Lemma keeps_files_print s : keeps_files (print s).
Proof. intros e w r w' H. injection H as _ <-. reflexivity. Qed.

Lemma keeps_files_input s : keeps_files (input s).
Proof.
  intros e w r w' H. unfold input in H.
  destruct (stdin w); injection H as _ <-; reflexivity.
Qed.

Lemma keeps_files_bind {A B} (m : M A) (k : A -> M B) :
  keeps_files m -> (forall a, keeps_files (k a)) -> keeps_files (bind m k).
Proof.
  intros Hm Hk e w r w' H. unfold bind in H.
  destruct (m e w) as [[a|x|c] w1] eqn:E.
  - rewrite (Hk a e w1 r w' H). exact (Hm e w _ w1 E).
  - injection H as _ <-. exact (Hm e w _ w1 E).
  - injection H as _ <-. exact (Hm e w _ w1 E).
Qed.

Lemma keeps_files_try_except {A} (m : M A) c h :
  keeps_files m -> (forall x, keeps_files (h x)) -> keeps_files (try_except m c h).
Proof.
  intros Hm Hh e w r w' H. unfold try_except, try_excepts in H.
  destruct (m e w) as [[a|x|k] w1] eqn:E.
  - injection H as _ <-. exact (Hm e w _ w1 E).
  - cbn [dispatch] in H. destruct (c x).
    + rewrite (Hh x e w1 r w' H). exact (Hm e w _ w1 E).
    + injection H as _ <-. exact (Hm e w _ w1 E).
  - injection H as _ <-. exact (Hm e w _ w1 E).
Qed.

Lemma keeps_files_choice_loop n : keeps_files (choice_loop n).
Proof.
  induction n as [|n IH]; cbn [choice_loop].
  - apply keeps_files_raise.
  - apply keeps_files_bind.
    + unfold choice_round. apply keeps_files_try_except.
      * apply keeps_files_bind; [apply keeps_files_input|]. intros a.
        destruct (str_in a _); [apply keeps_files_ret | apply keeps_files_raise].
      * intros x. apply keeps_files_bind; [apply keeps_files_print | intros; apply keeps_files_ret].
    + intros [c|]; [apply keeps_files_ret | exact IH].
Qed.

Lemma keeps_files_print_options i l : keeps_files (print_options i l).
Proof.
  revert i; induction l as [|o l IH]; intros i; cbn [print_options].
  - apply keeps_files_ret.
  - apply keeps_files_bind; [apply keeps_files_print | intros; apply IH].
Qed.

(** The world [prompt_for_iso_choice] runs its menu loop from keeps its
    files, and the loop's choice is one of "1", "2", "3". *)
Lemma prompt_for_iso_choice_split :
  forall e w iso skip download c w',
    prompt_for_iso_choice e w = (Ok (iso, skip, download, c), w') ->
    str_in c ["1"; "2"; "3"] = true /\
    exists w1, files w1 = files w /\
      (if str_in c ["1"; "2"] then
         exists r rest, stdin w1 = r :: rest /\
           iso = match r with
                 | String "~" EmptyString => home e
                 | String "~" (String "/" r') => home e ++ "/" ++ r'
                 | _ => r
                 end /\ lookup iso (files w1) <> None
       else iso = "") /\
      skip = (if String.eqb c "1" then "true" else "false") /\
      download = (if String.eqb c "2" then "false" else "true").
Proof.
  intros e w iso skip download c w' H. unfold prompt_for_iso_choice, bind at 1 in H.
  destruct (print_options 1 iso_options e w) as [[u|x|k] w0] eqn:E0; try discriminate H.
  pose proof (keeps_files_print_options 1 iso_options e w _ w0 E0) as F0.
  unfold bind at 1, get_world in H. unfold bind at 1 in H.
  destruct (choice_loop (S (length (stdin w0))) e w0) as [[c0|x|k] w1] eqn:E1;
    try discriminate H.
  pose proof (keeps_files_choice_loop _ e w0 _ w1 E1) as F1.
  pose proof (choice_loop_ok _ e w0 c0 w1 E1) as Hc0.
  unfold bind at 1 in H.
  destruct (str_in c0 ["1"; "2"]) eqn:E12.
  - unfold bind at 1, input in H. destruct (stdin w1) as [|r rest] eqn:Es; [discriminate H|].
    unfold bind at 1, expanduser, bind at 1, isfile, bind at 1 in H.
    cbn [files set_stdin set_out] in H.
    destruct (lookup _ (files w1)) eqn:El.
    + unfold ret in H. cbv beta iota zeta in H. injection H as <- <- <- <- _.
      split; [exact Hc0|]. exists w1. split; [congruence|].
      rewrite E12. split; [|split; reflexivity].
      exists r, rest. split; [exact Es|]. split; [reflexivity|].
      intros Hx. pose proof (eq_trans (eq_sym El) Hx) as HH. discriminate HH.
    + unfold fail, bind, log, modify, sys_exit in H. discriminate H.
  - unfold ret at 1 in H. cbv beta iota zeta in H. unfold ret in H.
    injection H as <- <- <- <- _.
    split; [exact Hc0|]. exists w1. split; [congruence|].
    rewrite E12. split; [reflexivity|]. split; reflexivity.
Qed.

(** [prompt_for_iso_choice], when it returns, returns with choice "1" or
    "2" a path (the entered line, [~] expanded) that is a file of the world
    it started in, and with choice "3" the empty path; [skip_ref] is "true"
    only for "1" and [download_ref] is "false" only for "2". *)
Theorem prompt_for_iso_choice_result :
  forall e w iso skip download c w',
    prompt_for_iso_choice e w = (Ok (iso, skip, download, c), w') ->
    (c = "1" /\ lookup iso (files w) <> None /\ skip = "true" /\ download = "true") \/
    (c = "2" /\ lookup iso (files w) <> None /\ skip = "false" /\ download = "false") \/
    (c = "3" /\ iso = "" /\ skip = "false" /\ download = "true").
Proof.
  intros e w iso skip download c w' H.
  destruct (prompt_for_iso_choice_split e w iso skip download c w' H)
    as [Hc [w1 [F [Hi [-> ->]]]]].
  unfold str_in in Hc. cbn [existsb] in Hc.
  destruct (String.eqb_spec c "1") as [->|N1]; [|destruct (String.eqb_spec c "2") as [->|N2]];
  [| |destruct (String.eqb_spec c "3") as [->|N3]; [|discriminate Hc]].
  - left. destruct Hi as [r [rest [_ [_ Hl]]]]. rewrite <- F. auto.
  - right; left. destruct Hi as [r [rest [_ [_ Hl]]]]. rewrite <- F. auto.
  - right; right. auto.
Qed.

(** ** Group membership *)

(** [add_user_to_libvirt_and_kvm_groups] runs [sudo usermod -a -G
    kvm,libvirt <user>] and nothing else.  When it exits 0 the method
    returns; otherwise the [Exception] that [run_subprocess] raises is caught
    by the method's own [except Exception], which logs it and exits with
    status 1: the failure never propagates as an exception. *)
Theorem add_user_to_groups_result :
  forall e w,
    let cmd := ["sudo"; "usermod"; "-a"; "-G"; "kvm,libvirt"; user e] in
    (status e (trace w) cmd = 0%Z ->
     add_user_to_libvirt_and_kvm_groups e w =
       (Ok tt, fst (cmd_effect e cmd "" (set_trace (cmd :: trace w) w)))) /\
    (status e (trace w) cmd <> 0%Z ->
     add_user_to_libvirt_and_kvm_groups e w =
       (Exit 1,
        set_logs ((ERROR, "Failed to add user to kvm and libvirt groups. Error: "
                          ++ "Failed to add the user to kvm and libvirt groups.")
                  :: (ERROR, "Command failed. Error: " ++ stderr_of e cmd) :: logs w)
          (set_trace (cmd :: trace w) w))).
Proof.
  intros e w cmd. split; intros H;
    unfold add_user_to_libvirt_and_kvm_groups, try_except at 1, try_excepts at 1,
      bind at 1, get_env; cbv beta iota.
  - rewrite run_subprocess_ok by exact H. reflexivity.
  - rewrite run_subprocess_fail by exact H. cbn [dispatch any_exception].
    reflexivity.
Qed.

(** ** Instances *)

Lemma backup_file_result_witness :
  let e := demo_env no_failure no_copy_fault in
  let w := demo_world [("/etc/libvirt/qemu.conf", "user = root")] [] in
  (lookup "/etc/none.conf" (files w) = None /\ isdir_w "/etc/none.conf" w = false /\
   backup_file "/etc/none.conf" e w =
     (Ok tt, set_logs ((WARNING, "File " ++ "/etc/none.conf" ++ " does not exist, skipping backup.")
                       :: logs w) w)) /\
  (lookup "/etc/libvirt/qemu.conf" (files w) = Some "user = root" /\
   status e (trace w) ["sudo"; "cp"; "/etc/libvirt/qemu.conf"; "/etc/libvirt/qemu.conf" ++ ".backup"] = 0%Z /\
   exists w', backup_file "/etc/libvirt/qemu.conf" e w = (Ok tt, w') /\
     lookup ("/etc/libvirt/qemu.conf" ++ ".backup") (files w') = Some "user = root" /\
     lookup "/etc/libvirt/qemu.conf" (files w') = Some "user = root" /\
     trace w' = ["sudo"; "cp"; "/etc/libvirt/qemu.conf"; "/etc/libvirt/qemu.conf" ++ ".backup"] :: trace w /\
     logs w' = (INFO, "Backup of " ++ "/etc/libvirt/qemu.conf" ++ " created.") :: logs w).
Proof.
  intros e w. split.
  - split; [reflexivity|]. split; [reflexivity|].
    apply (proj1 (backup_file_result "/etc/none.conf" e w)); reflexivity.
  - split; [reflexivity|]. split; [reflexivity|].
    apply (proj2 (backup_file_result "/etc/libvirt/qemu.conf" e w)); reflexivity.
Defined.

Lemma mount_iso_missing_path_returns_witness :
  let e := demo_env no_failure no_copy_fault in
  let w := demo_world [("win10.iso", "iso")] [] in
  (lookup "missing.iso" (files w) = None /\ isdir_w "missing.iso" w = false /\
   mount_iso "missing.iso" "/mnt/none" e w =
     (Ok tt, set_logs ((ERROR, "ISO path " ++ "missing.iso" ++ " does not exist.") :: logs w) w)) /\
  (lookup "win10.iso" (files w) = Some "iso" /\ lookup "/mnt/none" (files w) = None /\
   isdir_w "/mnt/none" w = false /\
   mount_iso "win10.iso" "/mnt/none" e w =
     (Ok tt, set_logs ((ERROR, "Mount point " ++ "/mnt/none" ++ " does not exist.") :: logs w) w)).
Proof.
  intros e w. split.
  - split; [reflexivity|]. split; [reflexivity|].
    apply (proj1 (mount_iso_missing_path_returns "missing.iso" "/mnt/none" e w)); reflexivity.
  - split; [reflexivity|]. split; [reflexivity|]. split; [reflexivity|].
    apply (proj2 (mount_iso_missing_path_returns "win10.iso" "/mnt/none" e w) "iso");
      reflexivity.
Defined.

Lemma mount_wim_missing_path_returns_witness :
  let e := demo_env no_failure no_copy_fault in
  let w := demo_world [] [] in
  lookup "boot.wim" (files w) = None /\ isdir_w "boot.wim" w = false /\
  mount_wim "boot.wim" 2 e w =
    (Ok tt, set_logs ((ERROR, "WIM file " ++ "boot.wim" ++ " does not exist.")
                      :: (INFO, "Mounting WIM image from " ++ "boot.wim" ++ " at index " ++ zstr 2
                                ++ " to " ++ wimtemp_dir (tmp w))
                      :: logs w) w).
Proof.
  intros e w. split; [reflexivity|]. split; [reflexivity|].
  apply mount_wim_missing_path_returns; reflexivity.
Defined.

Lemma copy_tree_missing_source_raises_witness :
  let e := demo_env no_failure no_copy_fault in
  let w := demo_world [] [] in
  copy_fault e "/nonexistent" "/tmp/drivers" = None /\ isdir_w "/nonexistent" w = false /\
  copy_tree "/nonexistent" "/tmp/drivers" e w = (Raise (TypeError "'int' object is not iterable"), w).
Proof.
  intros e w. split; [reflexivity|]. split; [reflexivity|].
  apply copy_tree_missing_source_raises; reflexivity.
Defined.

Lemma copy_tree_logged_failures_witness :
  let w := demo_world [] [] in
  let e1 := demo_env no_failure (fun _ _ => Some (FileExistsError "dst")) in
  let e2 := demo_env no_failure (fun _ _ => Some (PermissionError "dst")) in
  let errs := [("src/a.inf", "dst/a.inf", "[Errno 5] Input/output error")] in
  let e3 := demo_env no_failure (fun _ _ => Some (ShutilError errs)) in
  (copy_fault e1 "src" "dst" = Some (FileExistsError "dst") /\
   copy_tree "src" "dst" e1 w = (Ok tt, set_logs ((ERROR, "dst" ++ " already exists.") :: logs w) w)) /\
  (copy_fault e2 "src" "dst" = Some (PermissionError "dst") /\
   copy_tree "src" "dst" e2 w =
     (Ok tt, set_logs ((ERROR, "Do not have the necessary permissions to copy to " ++ "dst" ++ ".")
                       :: logs w) w)) /\
  (copy_fault e3 "src" "dst" = Some (ShutilError errs) /\
   exists w', copy_tree "src" "dst" e3 w = (Ok tt, w') /\ files w' = files w /\
     logs w' = app (rev (map (fun '(s, d, m) =>
                               (ERROR, "Error occurred when copying " ++ s ++ " to " ++ d ++ ": " ++ m))
                             errs)) (logs w)).
Proof.
  intros w e1 e2 errs e3. split; [|split].
  - split; [reflexivity|].
    apply (proj1 (copy_tree_logged_failures "src" "dst" e1 w) "dst"); reflexivity.
  - split; [reflexivity|].
    apply (proj1 (proj2 (copy_tree_logged_failures "src" "dst" e2 w)) "dst"); reflexivity.
  - split; [reflexivity|].
    apply (proj2 (proj2 (copy_tree_logged_failures "src" "dst" e3 w)) errs); reflexivity.
Defined.

Lemma check_disk_space_threshold_witness :
  let e := demo_env no_failure no_copy_fault in
  let w := demo_world [] [] in
  let full (d : string) : pyexn + Z := inr 1000000000%Z in
  let gone (d : string) : pyexn + Z := inl (OSError 2 "No such file or directory") in
  (full "/var/lib/libvirt/images" = inr 1000000000%Z /\
   check_disk_space full "/var/lib/libvirt/images" e w =
     if (1000000000 <? 7516192768)%Z
     then (Exit 1, set_logs ((ERROR, "Not enough disk space. Please clear at least 7GB.")
                             :: logs w) w)
     else (Ok tt, w)) /\
  (gone "/var/lib/libvirt/images" = inl (OSError 2 "No such file or directory") /\
   check_disk_space gone "/var/lib/libvirt/images" e w =
     (Exit 1, set_logs ((ERROR, "Failed to check disk space. Error: "
                                ++ exn_str (OSError 2 "No such file or directory")) :: logs w) w)).
Proof.
  intros e w full gone. split.
  - split; [reflexivity|].
    apply (proj1 (check_disk_space_threshold full "/var/lib/libvirt/images" e w)); reflexivity.
  - split; [reflexivity|].
    apply (proj2 (check_disk_space_threshold gone "/var/lib/libvirt/images" e w)); reflexivity.
Defined.

Lemma allocate_resources_auto_witness :
  let e := demo_env no_failure no_copy_fault in
  let w := demo_world [] ["Y"] in
  meminfo_available_kb e = Some 8192000%Z /\
  statvfs_images e = inr (100 * 1024 * 1024 * 1024)%Z /\ stdin w = ["Y"] /\ lower "Y" = "y" /\
  fst (allocate_resources e w) =
    Ok (8192000 / 1024 / 2, cpu_count e / 2, 100 * 1024 * 1024 * 1024 / 1073741824 / 2)%Z.
Proof.
  intros e w. split; [reflexivity|]. split; [reflexivity|]. split; [reflexivity|].
  split; [reflexivity|].
  apply (allocate_resources_auto 8192000 (100 * 1024 * 1024 * 1024) "Y" []); reflexivity.
Defined.

Lemma manual_allocation_result_witness :
  let e := demo_env no_failure no_copy_fault in
  let w := demo_world [] ["4000"; " 2 "; "500"] in
  stdin w = ["4000"; " 2 "; "500"] /\
  fst (manual_allocation 8000 4 100 e w) =
    match py_int "4000", py_int " 2 ", py_int "500" with
    | Some n1, Some n2, Some n3 =>
        if (8000 <? n1)%Z || (4 <? n2)%Z || (100 <? n3)%Z then Exit 1 else Ok (n1, n2, n3)
    | _, _, _ => Exit 1
    end.
Proof.
  intros e w. split; [reflexivity|].
  apply (manual_allocation_result 8000 4 100 "4000" " 2 " "500" []); reflexivity.
Defined.

Lemma download_file_result_witness :
  let url := "https://example.org/virtio-win-0.1.240.iso" in
  let e := demo_env no_failure no_copy_fault in
  let e' := with_url_content (fun _ => None) e in
  let w := demo_world [] [] in
  (url_content e url = Some "data" /\
   is_dir_path (path_str "virtio-win-0.1.240.iso") w = false /\
   parent_exists (path_str "virtio-win-0.1.240.iso") w = true /\
   exists w', download_file url "virtio-win-0.1.240.iso" e w = (Ok tt, w') /\
     lookup (path_str "virtio-win-0.1.240.iso") (files w') = Some "data" /\ trace w' = trace w) /\
  (url_content e' url = None /\ fst (download_file url "virtio-win-0.1.240.iso" e' w) = Exit 1).
Proof.
  intros url e e' w. split.
  - split; [reflexivity|]. split; [reflexivity|]. split; [reflexivity|].
    apply (proj1 (download_file_result url "virtio-win-0.1.240.iso" e w)); reflexivity.
  - split; [reflexivity|].
    apply (proj2 (download_file_result url "virtio-win-0.1.240.iso" e' w)). left. reflexivity.
Defined.

Lemma download_empty_basename_exits_witness :
  let url := "https://fedorapeople.org/groups/virt/virtio-win/direct-downloads/latest-virtio/" in
  let e := demo_env no_failure no_copy_fault in
  let w := demo_world [] [] in
  url_basename url = "" /\ url_content e url = Some "data" /\
  fst (download_file url (url_basename url) e w) = Exit 1.
Proof.
  intros url e w. split; [vm_compute; reflexivity|]. split; [reflexivity|].
  apply download_empty_basename_exits. vm_compute. reflexivity.
Defined.

Lemma install_packages_commands_witness :
  let ps := ["ovmf"; "wimtools"] in
  let w := demo_world [] [] in
  let e := demo_env no_failure no_copy_fault in
  let e' := demo_env (fun cmd => match cmd with
                                 | ["dpkg-query"; _; _; "wimtools"] => true
                                 | _ => false
                                 end) no_copy_fault in
  ((forall h q, In q ps -> status e h (dpkg_query q) = 0%Z) /\
   exists w', install_packages ps e w = (Ok tt, w') /\
     trace w' = (rev (map dpkg_query ps) ++ trace w)%list) /\
  (ps = (["ovmf"] ++ "wimtools" :: [])%list /\
   (forall h q, In q ["ovmf"] -> status e' h (dpkg_query q) = 0%Z) /\
   (forall h, status e' h (dpkg_query "wimtools") <> 0%Z) /\
   (forall h, status e' h ["sudo"; "apt"; "update"] = 0%Z) /\
   (forall h, status e' h (["sudo"; "apt"; "install"; "-y"] ++ ps)%list = 0%Z) /\
   exists w', install_packages ps e' w = (Ok tt, w') /\
     trace w' = ((["sudo"; "apt"; "install"; "-y"] ++ ps)%list :: ["sudo"; "apt"; "update"]
                 :: dpkg_query "wimtools" :: rev (map dpkg_query ["ovmf"]) ++ trace w)%list).
Proof.
  intros ps w e e'.
  assert (H1 : forall h q, In q ps -> status e h (dpkg_query q) = 0%Z)
    by (intros; reflexivity).
  assert (H2 : forall h q, In q ["ovmf"] -> status e' h (dpkg_query q) = 0%Z)
    by (intros h q [<-|[]]; reflexivity).
  assert (H3 : forall h, status e' h (dpkg_query "wimtools") <> 0%Z)
    by (intros h; vm_compute; discriminate).
  assert (H4 : forall h, status e' h ["sudo"; "apt"; "update"] = 0%Z) by (intros; reflexivity).
  assert (H5 : forall h, status e' h (["sudo"; "apt"; "install"; "-y"] ++ ps)%list = 0%Z)
    by (intros; reflexivity).
  split.
  - split; [exact H1|]. exact (proj1 (install_packages_commands ps e w) H1).
  - split; [reflexivity|]. split; [exact H2|]. split; [exact H3|].
    split; [exact H4|]. split; [exact H5|].
    exact (proj2 (install_packages_commands ps e' w) ["ovmf"] "wimtools" [] eq_refl H2 H3 H4 H5).
Defined.

Lemma manage_libvirtd_service_commands_witness :
  let acts := ["enable"; "start"] in
  let w := demo_world [] [] in
  let e := demo_env no_failure no_copy_fault in
  let e' := demo_env (fun cmd => match cmd with
                                 | ["sudo"; "systemctl"; "start"; _] => true
                                 | _ => false
                                 end) no_copy_fault in
  ((forall h a, In a acts -> status e h ["sudo"; "systemctl"; a; "libvirtd"] = 0%Z) /\
   exists w', manage_libvirtd_service acts e w = (Ok tt, w') /\
     trace w' = (rev (map (fun a => ["sudo"; "systemctl"; a; "libvirtd"]) acts) ++ trace w)%list) /\
  (acts = (["enable"] ++ "start" :: [])%list /\
   (forall h b, In b ["enable"] -> status e' h ["sudo"; "systemctl"; b; "libvirtd"] = 0%Z) /\
   (forall h, status e' h ["sudo"; "systemctl"; "start"; "libvirtd"] <> 0%Z) /\
   exists w', manage_libvirtd_service acts e' w =
                (Raise (Exception ("Failed to " ++ "start" ++ " the libvirtd service.")), w') /\
     trace w' = (["sudo"; "systemctl"; "start"; "libvirtd"]
                 :: rev (map (fun b => ["sudo"; "systemctl"; b; "libvirtd"]) ["enable"]) ++ trace w)%list).
Proof.
  intros acts w e e'.
  assert (H1 : forall h a, In a acts -> status e h ["sudo"; "systemctl"; a; "libvirtd"] = 0%Z)
    by (intros; reflexivity).
  assert (H2 : forall h b, In b ["enable"] -> status e' h ["sudo"; "systemctl"; b; "libvirtd"] = 0%Z)
    by (intros h b [<-|[]]; reflexivity).
  assert (H3 : forall h, status e' h ["sudo"; "systemctl"; "start"; "libvirtd"] <> 0%Z)
    by (intros h; vm_compute; discriminate).
  split.
  - split; [exact H1|]. exact (proj1 (manage_libvirtd_service_commands acts e w) H1).
  - split; [reflexivity|]. split; [exact H2|]. split; [exact H3|].
    exact (proj2 (manage_libvirtd_service_commands acts e' w) ["enable"] "start" [] eq_refl H2 H3).
Defined.

Lemma handle_downloaded_iso_mido_checks_witness :
  let mido_url := "https://raw.githubusercontent.com/ElliotKillick/Mido/main/Mido.sh" in
  let w := demo_world [] [] in
  let e1 := demo_env (fun cmd => match cmd with
                                 | ["./Mido.sh"; "win10x64"] => true
                                 | _ => false
                                 end) no_copy_fault in
  let e2 := with_mido_iso None (demo_env no_failure no_copy_fault) in
  (url_content e1 mido_url = Some "data" /\ is_dir_path "Mido.sh" w = false /\
   (forall h, status e1 h ["./Mido.sh"; "win10x64"] <> 0%Z) /\
   exists w', handle_downloaded_iso e1 w = (Exit 1, w') /\
     hd (DEBUG, "") (logs w') = (ERROR, "Failed to download Windows 10 ISO.") /\
     trace w' = ["./Mido.sh"; "win10x64"] :: trace w) /\
  (url_content e2 mido_url = Some "data" /\ is_dir_path "Mido.sh" w = false /\
   (forall h, status e2 h ["./Mido.sh"; "win10x64"] = 0%Z) /\
   mido_iso e2 = None /\ lookup "win10x64.iso" (files w) = None /\
   exists w', handle_downloaded_iso e2 w = (Exit 1, w') /\
     hd (DEBUG, "") (logs w') = (ERROR, "win10x64.iso not found. Something went wrong.") /\
     trace w' = ["./Mido.sh"; "win10x64"] :: trace w).
Proof.
  intros mido_url w e1 e2.
  assert (H1 : forall h, status e1 h ["./Mido.sh"; "win10x64"] <> 0%Z)
    by (intros h; vm_compute; discriminate).
  assert (H2 : forall h, status e2 h ["./Mido.sh"; "win10x64"] = 0%Z) by (intros; reflexivity).
  split.
  - split; [reflexivity|]. split; [reflexivity|]. split; [exact H1|].
    exact (proj1 (handle_downloaded_iso_mido_checks "data" e1 w eq_refl eq_refl) H1).
  - split; [reflexivity|]. split; [reflexivity|]. split; [exact H2|]. split; [reflexivity|].
    split; [reflexivity|].
    exact (proj2 (handle_downloaded_iso_mido_checks "data" e2 w eq_refl eq_refl) H2 eq_refl eq_refl).
Defined.

Lemma prompt_for_iso_choice_result_witness :
  let e := demo_env no_failure no_copy_fault in
  let w := demo_world [("/home/alice/win10.iso", "iso")] ["4"; "abc"; "1"; "~/win10.iso"] in
  prompt_for_iso_choice e w =
    (Ok ("/home/alice/win10.iso", "true", "true", "1"), snd (prompt_for_iso_choice e w)) /\
  ((("1" = "1" /\ lookup "/home/alice/win10.iso" (files w) <> None /\ "true" = "true"
     /\ "true" = "true") \/
    ("1" = "2" /\ lookup "/home/alice/win10.iso" (files w) <> None /\ "true" = "false"
     /\ "true" = "false") \/
    ("1" = "3" /\ "/home/alice/win10.iso" = "" /\ "true" = "false" /\ "true" = "true"))).
Proof.
  intros e w.
  assert (Hp : prompt_for_iso_choice e w =
                 (Ok ("/home/alice/win10.iso", "true", "true", "1"), snd (prompt_for_iso_choice e w)))
    by (vm_compute; reflexivity).
  split; [exact Hp|].
  exact (prompt_for_iso_choice_result e w _ _ _ _ _ Hp).
Defined.

Lemma add_user_to_groups_result_witness :
  let w := demo_world [] [] in
  let e := demo_env no_failure no_copy_fault in
  let e' := demo_env (fun cmd => match cmd with
                                 | "sudo" :: "usermod" :: _ => true
                                 | _ => false
                                 end) no_copy_fault in
  let cmd := ["sudo"; "usermod"; "-a"; "-G"; "kvm,libvirt"; "alice"] in
  (status e (trace w) cmd = 0%Z /\
   add_user_to_libvirt_and_kvm_groups e w =
     (Ok tt, fst (cmd_effect e cmd "" (set_trace (cmd :: trace w) w)))) /\
  (status e' (trace w) cmd <> 0%Z /\
   add_user_to_libvirt_and_kvm_groups e' w =
     (Exit 1,
      set_logs ((ERROR, "Failed to add user to kvm and libvirt groups. Error: "
                        ++ "Failed to add the user to kvm and libvirt groups.")
                :: (ERROR, "Command failed. Error: " ++ stderr_of e' cmd) :: logs w)
        (set_trace (cmd :: trace w) w))).
Proof.
  intros w e e' cmd.
  assert (H1 : status e (trace w) cmd = 0%Z) by reflexivity.
  assert (H2 : status e' (trace w) cmd <> 0%Z) by (vm_compute; discriminate).
  split.
  - split; [exact H1|]. exact (proj1 (add_user_to_groups_result e w) H1).
  - split; [exact H2|]. exact (proj2 (add_user_to_groups_result e' w) H2).
Defined.
